(** * opensearch-dsl-js: the immutable query builder, embedded in Rocq

    The development follows the TypeScript sources:

    - [core/types.ts], [core/Query.ts]: the base class [Query] with its
      constructor, [toJSON], [_deepClone], [_recordOperation],
      [_createNew], [when], [unless] and [equals];
    - [queries/BoolQuery.ts], [queries/TermQuery.ts],
      [queries/RangeQuery.ts], [queries/NestedQuery.ts],
      [queries/DisMaxQuery.ts], [queries/BoostingQuery.ts];
    - [Q.ts]: the small factory.

    JavaScript data is modelled as trees ([value]); every object and array
    node carries the flag that [Object.freeze] sets.  Query instances live in
    a store ([heap]) and are handled through references, as in the source:
    a method receives [this] as a reference, a constructor allocates.  The
    module-level counter [queryIdCounter], the clock behind [Date.now()] and
    the generator behind [Math.random()] are fields of the [world] that every
    effectful function threads.

    Objects are ordinary data objects: own enumerable string-keyed data
    properties, in the order in which JavaScript enumerates them.
    Prototype chains, accessors, symbols, sparse arrays and the rounding
    of IEEE doubles are outside the model; the one place where the
    prototype shows, the assignment to [__proto__] in [_deepClone], is
    modelled by its effect on the own properties. *)

From Stdlib Require Import ZArith QArith String Ascii List Bool Lia.
From Stdlib Require Import DecimalString DecimalNat DecimalZ.
From stdpp Require Import base tactics option list.

Import ListNotations.
Local Open Scope string_scope.
Local Open Scope list_scope.

Set Default Proof Using "Type".
Set Warnings "-register-all".

(** ** Numbers

    A JavaScript number is a rational, one of the two infinities, or NaN.
    Rounding of IEEE doubles is outside the model. *)

Inductive number : Type :=
  | NaN
  | Infinity (negative : bool)
  | Finite (q : Q).

(** [a < b] of JavaScript: false as soon as one side is NaN. *)
Definition num_lt (a b : number) : bool :=
  match a, b with
  | NaN, _ | _, NaN => false
  | Infinity na, Infinity nb => na && negb nb
  | Infinity na, Finite _ => na
  | Finite _, Infinity nb => negb nb
  | Finite x, Finite y => negb (Qle_bool y x)
  end.

Definition num_gt (a b : number) : bool := num_lt b a.

Definition num_of_Z (z : Z) : number := Finite (inject_Z z).
Definition num_of_nat (n : nat) : number := num_of_Z (Z.of_nat n).

Definition zero : number := num_of_Z 0.
Definition one : number := num_of_Z 1.

(** The number lies in the closed interval [0, 1]. *)
Definition in_unit_interval (n : number) : Prop :=
  match n with
  | Finite q => (0 <= q /\ q <= 1)%Q
  | _ => False
  end.

(** ** Values *)

Inductive value : Type :=
  | VUndefined
  | VNull
  | VBool (b : bool)
  | VNum (n : number)
  | VStr (s : string)
  | VDate (time : Z)
  | VArr (frozen : bool) (items : list value)
  | VObj (frozen : bool) (props : list (string * value)).

Abbreviation props := (list (string * value)) (only parsing).

(** Literals [[...]] and [{...}] build nodes that are not frozen. *)
Definition arr (items : list value) : value := VArr false items.
Definition obj (ps : props) : value := VObj false ps.

Section value_induction.
Variable P : value -> Prop.
Hypothesis Pundef : P VUndefined.
Hypothesis Pnull : P VNull.
Hypothesis Pbool : forall b, P (VBool b).
Hypothesis Pnum : forall n, P (VNum n).
Hypothesis Pstr : forall s, P (VStr s).
Hypothesis Pdate : forall t, P (VDate t).
Hypothesis Parr : forall fz items, Forall P items -> P (VArr fz items).
Hypothesis Pobj :
  forall fz ps, Forall (fun kv => P (snd kv)) ps -> P (VObj fz ps).

Fixpoint value_ind' (v : value) : P v :=
  match v with
  | VUndefined => Pundef
  | VNull => Pnull
  | VBool b => Pbool b
  | VNum n => Pnum n
  | VStr s => Pstr s
  | VDate t => Pdate t
  | VArr fz items =>
      Parr fz items
        ((fix go (l : list value) : Forall P l :=
            match l with
            | [] => List.Forall_nil P
            | x :: l' => List.Forall_cons _ x l' (value_ind' x) (go l')
            end) items)
  | VObj fz ps =>
      Pobj fz ps
        ((fix go (l : props) : Forall (fun kv => P (snd kv)) l :=
            match l with
            | [] => List.Forall_nil _
            | kv :: l' => List.Forall_cons _ kv l' (value_ind' (snd kv)) (go l')
            end) ps)
  end.
End value_induction.

(** [typeof v === 'object' && v !== null] *)
Definition is_object (v : value) : bool :=
  match v with
  | VDate _ | VArr _ _ | VObj _ _ => true
  | _ => false
  end.

(** The values the library calls scalar: everything but objects. *)
Definition is_scalar (v : value) : bool := negb (is_object v).

(** ToBoolean. *)
Definition truthy (v : value) : bool :=
  match v with
  | VUndefined | VNull => false
  | VBool b => b
  | VNum NaN => false
  | VNum (Infinity _) => true
  | VNum (Finite q) => negb (Qeq_bool q 0)
  | VStr s => negb (String.eqb s "")
  | VDate _ | VArr _ _ | VObj _ _ => true
  end.

(** [a || b] *)
Definition js_or (a b : value) : value := if truthy a then a else b.

(** ** Property keys

    Own properties are kept in the order in which JavaScript enumerates
    them: array indices first, ascending, then the other string keys in
    the order of their creation. *)

Definition nat_to_string (n : nat) : string :=
  NilZero.string_of_uint (Nat.to_uint n).

Definition Z_to_string (z : Z) : string :=
  NilZero.string_of_int (Z.to_int z).

(** The array index a key spells (canonical decimal, at most 2^32 - 2). *)
Definition key_index (k : string) : option nat :=
  match NilZero.uint_of_string k with
  | Some d =>
      let n := Nat.of_uint d in
      if String.eqb (nat_to_string n) k && (N.of_nat n <=? 4294967294)%N
      then Some n else None
  | None => None
  end.

(** [before k k']: a new key [k] is enumerated ahead of the existing
    key [k']. *)
Definition before (k k' : string) : bool :=
  match key_index k, key_index k' with
  | Some i, Some j => Nat.ltb i j
  | Some _, None => true
  | None, _ => false
  end.

(** CreateDataProperty on an ordinary object: an existing key keeps its
    place and takes the new value; a new key goes to its place in the
    enumeration order. *)
Fixpoint define (k : string) (v : value) (ps : props) : props :=
  match ps with
  | [] => [(k, v)]
  | (k', v') :: rest =>
      if String.eqb k k' then (k, v) :: rest
      else if before k k' then (k, v) :: (k', v') :: rest
      else (k', v') :: define k v rest
  end.

(** [o[k] = v] on a fresh ordinary object.  The key [__proto__] reaches
    the accessor of [Object.prototype] and creates no own property (the
    change of prototype it makes is not modelled: lookups below read own
    properties only). *)
Definition assign (k : string) (v : value) (ps : props) : props :=
  if String.eqb k "__proto__" then ps else define k v ps.

(** Own-property lookup. *)
Fixpoint lookup_prop (k : string) (ps : props) : option value :=
  match ps with
  | [] => None
  | (k', v) :: rest => if String.eqb k k' then Some v else lookup_prop k rest
  end.

Definition has_own (k : string) (ps : props) : bool :=
  match lookup_prop k ps with Some _ => true | None => false end.

(** [Object.entries(v)] for the values that have entries; [None] stands for
    the TypeError raised on [undefined] and [null]. *)
Fixpoint index_from (i : nat) (items : list value) : props :=
  match items with
  | [] => []
  | x :: rest => (nat_to_string i, x) :: index_from (S i) rest
  end.

Fixpoint chars (s : string) : list value :=
  match s with
  | EmptyString => []
  | String c rest => VStr (String c EmptyString) :: chars rest
  end.

Definition entries (v : value) : option props :=
  match v with
  | VUndefined | VNull => None
  | VObj _ ps => Some ps
  | VArr _ items => Some (index_from 0 items)
  | VStr s => Some (index_from 0 (chars s))
  | VBool _ | VNum _ | VDate _ => Some []
  end.

(** Object spread [{...dst, ...src}]: copies the own enumerable properties
    of [src]; [undefined] and [null] contribute nothing. *)
Definition spread (src : value) (dst : props) : props :=
  match entries src with
  | Some ps => fold_left (fun acc kv => define (fst kv) (snd kv) acc) ps dst
  | None => dst
  end.

(** ** [_deepClone] (core/Query.ts) *)

(** The loop [for (const key in obj) if (obj.hasOwnProperty(key))
    cloned[key] = clone(obj[key])] over the own properties [l]. *)
Definition clone_into (clone : value -> value) : props -> props -> props :=
  fix loop (l : props) (cloned : props) : props :=
    match l with
    | [] => cloned
    | (key, v) :: rest => loop rest (assign key (clone v) cloned)
    end.

Fixpoint _deepClone (o : value) : value :=
  match o with
  | VUndefined | VNull | VBool _ | VNum _ | VStr _ => o
  | VDate t => VDate t
  | VArr _ items => VArr false (map _deepClone items)
  | VObj _ ps => VObj false (clone_into _deepClone ps [])
  end.

(** [Object.freeze(v)]: marks the one node it is given. *)
Definition Object_freeze (v : value) : value :=
  match v with
  | VArr _ items => VArr true items
  | VObj _ ps => VObj true ps
  | _ => v
  end.

(** ** Errors and the world

    [Error] is the source's [throw new Error(...)]; [TypeError] is raised by
    the runtime (a property read on [undefined], a destructuring of a
    missing entry, a spread of a value that is not iterable); [Dangling]
    marks a reference that no constructor returned. *)

Inductive error : Type :=
  | Error (message : string)
  | TypeError (message : string)
  | Dangling.

Inductive outcome (A : Type) : Type :=
  | Ok (a : A)
  | Throw (e : error).

Arguments Ok {A} a.
Arguments Throw {A} e.

(** A reference to an instance: its position in the store. *)
Abbreviation ref := nat (only parsing).

(** What [_serializeArgs] leaves in an operation record: plain values
    (a query argument becomes the record [{_type, _id, _toJSON}]), or an
    array of query instances, kept as it was passed. *)
Inductive logged : Type :=
  | LValue (v : value)
  | LInstances (qs : list ref).

(** core/types.ts *)
Record Operation : Type := mkOperation {
  method : string;
  args : list logged;
  timestamp : Z;
  op_id : string
}.

Record QueryMetadata : Type := mkMetadata {
  qid : string;
  operations : list Operation;
  created : Z;
  source : option string
}.

(** [Partial<QueryMetadata>] *)
Record PartialMetadata : Type := mkPartial {
  p_id : option string;
  p_operations : option (list Operation);
  p_created : option Z;
  p_source : option string
}.

(** The concrete classes; [Anonymous j] is the class expression
    [class extends Query<any> { toJSON() { return j; } ... }] that the
    compound variants instantiate inside [clone]. *)
Inductive class : Type :=
  | BoolQuery
  | TermQuery
  | RangeQuery
  | NestedQuery
  | DisMaxQuery
  | BoostingQuery
  | Anonymous (captured : value).

Record instance : Type := mkInstance {
  cls : class;
  _body : value;
  _metadata : QueryMetadata
}.

Record world : Type := mkWorld {
  queryIdCounter : nat;          (* let queryIdCounter = 0 *)
  heap : list instance;          (* every instance constructed so far *)
  now : nat -> Z;                (* the n-th reading of Date.now() *)
  reads : nat;                   (* readings taken so far *)
  random : nat -> string;        (* the n-th Math.random().toString(36).substr(2, 9) *)
  draws : nat                    (* numbers drawn so far *)
}.

(** The state of a freshly loaded module, under a given clock and
    generator. *)
Definition initial (clock : nat -> Z) (gen : nat -> string) : world :=
  mkWorld 0 [] clock 0 gen 0.

(** ** The monad of effectful code *)

Definition M (A : Type) : Type := world -> outcome A * world.

Definition ret {A} (a : A) : M A := fun w => (Ok a, w).

Definition bind {A B} (m : M A) (k : A -> M B) : M B :=
  fun w =>
    match m w with
    | (Ok a, w') => k a w'
    | (Throw e, w') => (Throw e, w')
    end.

Definition throw {A} (e : error) : M A := fun w => (Throw e, w).

Definition lift {A} (o : outcome A) : M A := fun w => (o, w).

(** [try { m } catch (error) { handler(error) }] *)
Definition try_catch {A} (m : M A) (handler : error -> M A) : M A :=
  fun w =>
    match m w with
    | (Ok a, w') => (Ok a, w')
    | (Throw e, w') => handler e w'
    end.

Notation "'let*' x ':=' m 'in' k" := (bind m (fun x => k))
  (at level 10, x name, m at level 100, k at level 200, only parsing).
Notation "'let*' ' pat ':=' m 'in' k" :=
  (bind m (fun x => match x with pat => k end))
  (at level 10, pat pattern, m at level 100, k at level 200, only parsing).

Fixpoint mapM {A B} (f : A -> M B) (l : list A) : M (list B) :=
  match l with
  | [] => ret []
  | x :: rest => let* y := f x in let* ys := mapM f rest in ret (y :: ys)
  end.

(** The value a computation returns in a world, and the world it leaves. *)
Definition result {A} (m : M A) (w : world) : outcome A := fst (m w).
Definition after {A} (m : M A) (w : world) : world := snd (m w).

(** *** Host functions *)

Definition Date_now : M Z :=
  fun w =>
    (Ok (now w (reads w)),
     mkWorld (queryIdCounter w) (heap w) (now w) (S (reads w))
             (random w) (draws w)).

Definition Math_random_base36 : M string :=
  fun w =>
    (Ok (random w (draws w)),
     mkWorld (queryIdCounter w) (heap w) (now w) (reads w)
             (random w) (S (draws w))).

(** [++queryIdCounter] *)
Definition increment_counter : M nat :=
  fun w =>
    (Ok (S (queryIdCounter w)),
     mkWorld (S (queryIdCounter w)) (heap w) (now w) (reads w)
             (random w) (draws w)).

(** [new]: the instance enters the store; its reference is its position. *)
Definition allocate (i : instance) : M ref :=
  fun w =>
    (Ok (length (heap w)),
     mkWorld (queryIdCounter w) (heap w ++ [i]) (now w) (reads w)
             (random w) (draws w)).

Definition deref (r : ref) : M instance :=
  fun w =>
    match heap w !! r with
    | Some i => (Ok i, w)
    | None => (Throw Dangling, w)
    end.

(** [(r as any)._body = b] *)
Definition set_body (r : ref) (b : value) : M unit :=
  fun w =>
    match heap w !! r with
    | Some i =>
        (Ok tt,
         mkWorld (queryIdCounter w)
                 (<[r := mkInstance (cls i) b (_metadata i)]> (heap w))
                 (now w) (reads w) (random w) (draws w))
    | None => (Throw Dangling, w)
    end.

(** *** Property reads *)

(** [v.k] *)
Definition prop (v : value) (k : string) : outcome value :=
  match v with
  | VUndefined | VNull =>
      Throw (TypeError ("Cannot read properties of undefined (reading '" ++ k ++ "')"))
  | VObj _ ps => Ok (default VUndefined (lookup_prop k ps))
  | VArr _ items =>
      if String.eqb k "length" then Ok (VNum (num_of_nat (length items)))
      else match key_index k with
           | Some i => Ok (default VUndefined (items !! i))
           | None => Ok VUndefined
           end
  | VStr s =>
      if String.eqb k "length" then Ok (VNum (num_of_nat (String.length s)))
      else match key_index k with
           | Some i => Ok (default VUndefined (chars s !! i))
           | None => Ok VUndefined
           end
  | VBool _ | VNum _ | VDate _ => Ok VUndefined
  end.

(** [v?.k] *)
Definition prop_opt (v : value) (k : string) : value :=
  match v with
  | VUndefined | VNull => VUndefined
  | _ => match prop v k with Ok x => x | Throw _ => VUndefined end
  end.

(** [const [[field, value]] = Object.entries(v)] *)
Definition first_entry (v : value) : outcome (string * value) :=
  match entries v with
  | None => Throw (TypeError "Cannot convert undefined or null to object")
  | Some [] => Throw (TypeError "undefined is not iterable")
  | Some (kv :: _) => Ok kv
  end.

(** [Object.values(v)[0]] *)
Definition first_value (v : value) : outcome value :=
  match entries v with
  | None => Throw (TypeError "Cannot convert undefined or null to object")
  | Some [] => Ok VUndefined
  | Some (kv :: _) => Ok (snd kv)
  end.

(** [Object.keys(v)[0]] *)
Definition first_key (v : value) : outcome value :=
  match entries v with
  | None => Throw (TypeError "Cannot convert undefined or null to object")
  | Some [] => Ok VUndefined
  | Some (kv :: _) => Ok (VStr (fst kv))
  end.

(** [[...v]]: the elements an array spread takes from [v]. *)
Definition elements (v : value) : outcome (list value) :=
  match v with
  | VArr _ items => Ok items
  | VStr s => Ok (chars s)
  | _ => Throw (TypeError "value is not iterable")
  end.

(** ** The base class [Query] (core/Query.ts) *)

(** The template [`q_${n}_${t}`] *)
Definition id_string (n : nat) (t : Z) : string :=
  ("q_" ++ nat_to_string n ++ "_" ++ Z_to_string t)%string.

(** [function generateId()]: [`q_${++queryIdCounter}_${Date.now()}`] *)
Definition generateId : M string :=
  let* n := increment_counter in
  let* t := Date_now in
  ret (id_string n t).

(** [function generateOperationId()] *)
Definition generateOperationId : M string :=
  let* t := Date_now in
  let* r := Math_random_base36 in
  ret ("op_" ++ Z_to_string t ++ "_" ++ r)%string.

(** [constructor(body, metadata?)], run for an instance of class [c]. *)
Definition Query_constructor
    (c : class) (body : value) (metadata : option PartialMetadata) : M ref :=
  let stored := Object_freeze (_deepClone body) in
  let* i := match metadata ≫= p_id with
            | Some i => ret i
            | None => generateId
            end in
  let ops := default [] (metadata ≫= p_operations) in
  let* t := match metadata ≫= p_created with
            | Some t => ret t
            | None => Date_now
            end in
  let src := match metadata ≫= p_source with
             | Some s => if String.eqb s "" then None else Some s
             | None => None
             end in
  allocate (mkInstance c stored (mkMetadata i ops t src)).

(** [toJSON()]; the anonymous classes override it to hand out the value
    they captured. *)
Definition toJSON (this : ref) : M value :=
  let* inst := deref this in
  match cls inst with
  | Anonymous captured => ret captured
  | _ => ret (_deepClone (_body inst))
  end.

Definition metadata (this : ref) : M QueryMetadata :=
  let* inst := deref this in ret (_metadata inst).

(** [id()] *)
Definition Query_id (this : ref) : M string :=
  let* inst := deref this in ret (qid (_metadata inst)).

(** [when(condition, fn)] *)
Definition when (this : ref) (condition : value) (fn : ref -> M ref) : M ref :=
  if truthy condition then fn this else ret this.

(** [unless(condition, fn)] *)
Definition unless (this : ref) (condition : value) (fn : ref -> M ref) : M ref :=
  if negb (truthy condition) then fn this else ret this.

(** The arguments a mutator hands to [_recordOperation]. *)
Inductive arg : Type :=
  | AValue (v : value)
  | AQuery (q : ref)
  | AQueries (qs : list ref).

(** [_serializeArgs(args)] *)
Definition _serializeArgs (args : list arg) : M (list logged) :=
  mapM (fun a =>
          match a with
          | AQuery q =>
              let* i := Query_id q in
              let* j := toJSON q in
              ret (LValue (obj [("_type", VStr "Query"); ("_id", VStr i);
                                ("_toJSON", j)]))
          | AValue v => ret (LValue v)
          | AQueries qs => ret (LInstances qs)
          end) args.

(** [_recordOperation(method, args)] *)
Definition _recordOperation (method : string) (args : list arg) : M Operation :=
  let* sargs := _serializeArgs args in
  let* t := Date_now in
  let* i := generateOperationId in
  ret (mkOperation method sargs t i).

(** The body a [clone] starts from:
    [body ? { ...this._body, ...body } : this._body] *)
Definition merged_body (inst : instance) (body : value) : value :=
  if truthy body then obj (spread body (spread (_body inst) []))
  else _body inst.

(** ** BoolQuery (queries/BoolQuery.ts) *)

Definition BoolQuery_constructor (body : value) : M ref :=
  let defaultBody := obj [("bool", obj [])] in
  Query_constructor BoolQuery (obj (spread body (spread defaultBody []))) None.

Definition BoolQuery_clone
    (this : ref) (body : value) (_metadata : PartialMetadata) : M ref :=
  let* inst := deref this in
  let newBody := merged_body inst body in
  BoolQuery_constructor newBody.

(** ** TermQuery (queries/TermQuery.ts) *)

Definition TermQuery_constructor (field : string) (v : value) : M ref :=
  Query_constructor TermQuery (obj [("term", obj (define field v []))]) None.

(** [_getBaseValue(value)] *)
Definition _getBaseValue (v : value) : value :=
  match v with
  | VObj _ ps => if has_own "value" ps then default VUndefined (lookup_prop "value" ps) else v
  | _ => v
  end.

Definition TermQuery_clone
    (this : ref) (body : value) (_metadata : PartialMetadata) : M ref :=
  let* inst := deref this in
  let newBody := merged_body inst body in
  let* term := lift (prop newBody "term") in
  let* '(field, v) := lift (first_entry term) in
  let baseValue := _getBaseValue v in
  let* newQuery := TermQuery_constructor field baseValue in
  let* _ := set_body newQuery (Object_freeze (_deepClone newBody)) in
  ret newQuery.

(** ** RangeQuery (queries/RangeQuery.ts) *)

Definition RangeQuery_constructor (field : string) : M ref :=
  Query_constructor RangeQuery (obj [("range", obj (define field (obj []) []))]) None.

Definition RangeQuery_clone
    (this : ref) (body : value) (_metadata : PartialMetadata) : M ref :=
  let* inst := deref this in
  let newBody := merged_body inst body in
  let* range := lift (prop newBody "range") in
  let* '(field, _) := lift (first_entry range) in
  let* newQuery := RangeQuery_constructor field in
  let* _ := set_body newQuery (Object_freeze (_deepClone newBody)) in
  ret newQuery.

(** ** NestedQuery (queries/NestedQuery.ts) *)

Definition NestedQuery_constructor (path : value) (query : ref) : M ref :=
  let* j := toJSON query in
  Query_constructor NestedQuery
    (obj [("nested", obj [("path", path); ("query", j)])]) None.

Definition NestedQuery_clone
    (this : ref) (body : value) (_metadata : PartialMetadata) : M ref :=
  let* inst := deref this in
  let newBody := merged_body inst body in
  let* nested' := lift (prop newBody "nested") in
  let* nested := lift (prop (_body inst) "nested") in
  let* path :=
    if truthy (prop_opt nested' "path") then ret (prop_opt nested' "path")
    else lift (prop nested "path") in
  let* query := lift (prop nested "query") in
  let* tempQuery := Query_constructor (Anonymous query) (obj []) None in
  NestedQuery_constructor path tempQuery.

(** ** DisMaxQuery (queries/DisMaxQuery.ts) *)

Definition DisMaxQuery_constructor (queries : list ref) : M ref :=
  let* js := mapM toJSON queries in
  Query_constructor DisMaxQuery
    (obj [("dis_max", obj [("queries", arr js)])]) None.

(** [a.map(f)] on a value that has to be an array *)
Definition array_items (v : value) : outcome (list value) :=
  match v with
  | VArr _ items => Ok items
  | VUndefined | VNull =>
      Throw (TypeError "Cannot read properties of undefined (reading 'map')")
  | _ => Throw (TypeError "map is not a function")
  end.

Definition DisMaxQuery_clone
    (this : ref) (body : value) (_metadata : PartialMetadata) : M ref :=
  let* inst := deref this in
  let newBody := merged_body inst body in
  let* dis_max := lift (prop (_body inst) "dis_max") in
  let* queries := lift (prop dis_max "queries") in
  let* items := lift (array_items queries) in
  let* tempQueries :=
    mapM (fun queryJson => Query_constructor (Anonymous queryJson) (obj []) None)
         items in
  DisMaxQuery_constructor tempQueries.

(** ** BoostingQuery (queries/BoostingQuery.ts) *)

(** [constructor(positive, negative, negativeBoost = 0.2)] *)
Definition BoostingQuery_constructor
    (positive negative : ref) (negativeBoost : value) : M ref :=
  let negativeBoost :=
    match negativeBoost with
    | VUndefined => VNum (Finite (1 # 5))
    | _ => negativeBoost
    end in
  let* p := toJSON positive in
  let* n := toJSON negative in
  Query_constructor BoostingQuery
    (obj [("boosting", obj [("positive", p); ("negative", n);
                            ("negative_boost", negativeBoost)])]) None.

Definition BoostingQuery_clone
    (this : ref) (body : value) (_metadata : PartialMetadata) : M ref :=
  let* inst := deref this in
  let newBody := merged_body inst body in
  let* boosting := lift (prop (_body inst) "boosting") in
  let* positive := lift (prop boosting "positive") in
  let* negative := lift (prop boosting "negative") in
  let* boosting' := lift (prop newBody "boosting") in
  let* negativeBoost :=
    if truthy (prop_opt boosting' "negative_boost")
    then ret (prop_opt boosting' "negative_boost")
    else lift (prop boosting "negative_boost") in
  let* tempPositive := Query_constructor (Anonymous positive) (obj []) None in
  let* tempNegative := Query_constructor (Anonymous negative) (obj []) None in
  BoostingQuery_constructor tempPositive tempNegative negativeBoost.

(** ** [clone] and [_createNew] *)

(** [this.clone(body, metadata)], dispatched on the class of [this]. *)
Definition clone (this : ref) (body : value) (md : PartialMetadata) : M ref :=
  let* inst := deref this in
  match cls inst with
  | BoolQuery => BoolQuery_clone this body md
  | TermQuery => TermQuery_clone this body md
  | RangeQuery => RangeQuery_clone this body md
  | NestedQuery => NestedQuery_clone this body md
  | DisMaxQuery => DisMaxQuery_clone this body md
  | BoostingQuery => BoostingQuery_clone this body md
  | Anonymous _ => ret this
  end.

(** [_createNew(newBody, operation?)] *)
Definition _createNew
    (this : ref) (newBody : value) (operation : option Operation) : M ref :=
  let* inst := deref this in
  let newOperations :=
    match operation with
    | Some op => operations (_metadata inst) ++ [op]
    | None => operations (_metadata inst)
    end in
  clone this newBody (mkPartial None (Some newOperations) None None).

(** ** Mutators *)

(** [this._body] *)
Definition this_body (this : ref) : M value :=
  let* inst := deref this in ret (_body inst).

(** [Query | Query[]] *)
Inductive one_or_many : Type :=
  | One (q : ref)
  | Many (qs : list ref).

(** [Array.isArray(query) ? query : [query]] *)
Definition as_array (query : one_or_many) : list ref :=
  match query with
  | One q => [q]
  | Many qs => qs
  end.

(** The four clause mutators of BoolQuery differ in the method name and
    in the slot they extend. *)
Definition BoolQuery_add_clause
    (name slot : string) (this : ref) (query : one_or_many) : M ref :=
  let queries := as_array query in
  let* body := this_body this in
  let* bool := lift (prop body "bool") in
  let* present := lift (prop bool slot) in
  let current := js_or present (arr []) in
  let* old := lift (elements current) in
  let* js := mapM toJSON queries in
  let newClauses := arr (old ++ js) in
  let* operation := _recordOperation name (map AQuery queries) in
  _createNew this
    (obj [("bool", obj (define slot newClauses (spread bool [])))])
    (Some operation).

Definition BoolQuery_must := BoolQuery_add_clause "must" "must".
Definition BoolQuery_should := BoolQuery_add_clause "should" "should".
Definition BoolQuery_filter := BoolQuery_add_clause "filter" "filter".
Definition BoolQuery_mustNot := BoolQuery_add_clause "mustNot" "must_not".

(** A mutator that sets one key of the nested value under [kind]:
    [this._createNew({ kind: { ...this._body[kind], key: v } }, operation)] *)
Definition set_option
    (kind name key : string) (this : ref) (v : value) : M ref :=
  let* operation := _recordOperation name [AValue v] in
  let* body := this_body this in
  let* nested := lift (prop body kind) in
  _createNew this
    (obj [(kind, obj (define key v (spread nested [])))])
    (Some operation).

Definition BoolQuery_minimumShouldMatch (this : ref) (v : value) : M ref :=
  set_option "bool" "minimumShouldMatch" "minimum_should_match" this v.

Definition BoolQuery_boost (this : ref) (v : number) : M ref :=
  set_option "bool" "boost" "boost" this (VNum v).

(** [isEmpty()] *)
Definition BoolQuery_isEmpty (this : ref) : M bool :=
  let* body := this_body this in
  let* bool := lift (prop body "bool") in
  let* must := lift (prop bool "must") in
  let* should := lift (prop bool "should") in
  let* filter := lift (prop bool "filter") in
  let* must_not := lift (prop bool "must_not") in
  ret (negb (truthy (prop_opt must "length")) &&
       negb (truthy (prop_opt should "length")) &&
       negb (truthy (prop_opt filter "length")) &&
       negb (truthy (prop_opt must_not "length"))).

(** TermQuery: a mutator that sets one option of the field's value,
    promoting the shorthand to the object form. *)
Definition TermQuery_set_option
    (name key : string) (this : ref) (v : value) : M ref :=
  let* operation := _recordOperation name [AValue v] in
  let* body := this_body this in
  let* term := lift (prop body "term") in
  let* '(field, currentValue) := lift (first_entry term) in
  let newValue :=
    if is_object currentValue
    then obj (define key v (spread currentValue []))
    else obj [("value", currentValue); (key, v)] in
  _createNew this
    (obj [("term", obj (define field newValue []))])
    (Some operation).

Definition TermQuery_boost (this : ref) (v : number) : M ref :=
  TermQuery_set_option "boost" "boost" this (VNum v).

(** [caseInsensitive(value = true)] *)
Definition TermQuery_caseInsensitive (this : ref) (v : option bool) : M ref :=
  TermQuery_set_option "caseInsensitive" "case_insensitive" this
    (VBool (default true v)).

(** RangeQuery: a mutator that sets one key of the field's range. *)
Definition RangeQuery_set
    (name key : string) (this : ref) (v : value) : M ref :=
  let* operation := _recordOperation name [AValue v] in
  let* body := this_body this in
  let* range := lift (prop body "range") in
  let* '(field, currentRange) := lift (first_entry range) in
  _createNew this
    (obj [("range", obj (define field
                           (obj (define key v (spread currentRange []))) []))])
    (Some operation).

Definition RangeQuery_gte := RangeQuery_set "gte" "gte".
Definition RangeQuery_gt := RangeQuery_set "gt" "gt".
Definition RangeQuery_lte := RangeQuery_set "lte" "lte".
Definition RangeQuery_lt := RangeQuery_set "lt" "lt".
Definition RangeQuery_boost (this : ref) (v : number) : M ref :=
  RangeQuery_set "boost" "boost" this (VNum v).
Definition RangeQuery_format (this : ref) (v : string) : M ref :=
  RangeQuery_set "format" "format" this (VStr v).
Definition RangeQuery_timeZone (this : ref) (v : string) : M ref :=
  RangeQuery_set "timeZone" "time_zone" this (VStr v).

Inductive Relation : Type := INTERSECTS | CONTAINS | WITHIN.

Definition Relation_name (r : Relation) : string :=
  match r with
  | INTERSECTS => "INTERSECTS"
  | CONTAINS => "CONTAINS"
  | WITHIN => "WITHIN"
  end.

Definition RangeQuery_relation (this : ref) (v : Relation) : M ref :=
  RangeQuery_set "relation" "relation" this (VStr (Relation_name v)).

(** [between(min, max, inclusive = true)] *)
Definition RangeQuery_between
    (this : ref) (min max : value) (inclusive : option bool) : M ref :=
  let inclusive := default true inclusive in
  let* operation :=
    _recordOperation "between" [AValue min; AValue max; AValue (VBool inclusive)] in
  let* body := this_body this in
  let* range := lift (prop body "range") in
  let* '(field, currentRange) := lift (first_entry range) in
  let newRange := spread currentRange [] in
  let newRange :=
    if inclusive then assign "lte" max (assign "gte" min newRange)
    else assign "lt" max (assign "gt" min newRange) in
  _createNew this
    (obj [("range", obj (define field (obj newRange) []))])
    (Some operation).

(** [getBounds()] *)
Record Bounds : Type := mkBounds {
  bound_gte : value;
  bound_gt : value;
  bound_lte : value;
  bound_lt : value
}.

Definition RangeQuery_getBounds (this : ref) : M Bounds :=
  let* body := this_body this in
  let* outer := lift (prop body "range") in
  let* range := lift (first_value outer) in
  let* gte := lift (prop range "gte") in
  let* gt := lift (prop range "gt") in
  let* lte := lift (prop range "lte") in
  let* lt := lift (prop range "lt") in
  ret (mkBounds gte gt lte lt).

(** [v !== undefined] *)
Definition defined (v : value) : bool :=
  match v with VUndefined => false | _ => true end.

(** [hasBounds()] *)
Definition RangeQuery_hasBounds (this : ref) : M bool :=
  let* bounds := RangeQuery_getBounds this in
  ret (defined (bound_gte bounds) || defined (bound_gt bounds) ||
       defined (bound_lte bounds) || defined (bound_lt bounds)).

(** NestedQuery *)

Definition NestedQuery_path (this : ref) (path : string) : M ref :=
  set_option "nested" "path" "path" this (VStr path).

Definition NestedQuery_query (this : ref) (query : ref) : M ref :=
  let* operation := _recordOperation "query" [AQuery query] in
  let* body := this_body this in
  let* nested := lift (prop body "nested") in
  let* j := toJSON query in
  _createNew this
    (obj [("nested", obj (define "query" j (spread nested [])))])
    (Some operation).

Inductive ScoreMode : Type :=
  | ModeAvg | ModeSum | ModeMin | ModeMax | ModeNone.

Definition ScoreMode_name (m : ScoreMode) : string :=
  match m with
  | ModeAvg => "avg"
  | ModeSum => "sum"
  | ModeMin => "min"
  | ModeMax => "max"
  | ModeNone => "none"
  end.

Definition NestedQuery_scoreMode (this : ref) (mode : ScoreMode) : M ref :=
  set_option "nested" "scoreMode" "score_mode" this (VStr (ScoreMode_name mode)).

Definition NestedQuery_boost (this : ref) (v : number) : M ref :=
  set_option "nested" "boost" "boost" this (VNum v).

(** [ignoreUnmapped(ignore = true)] *)
Definition NestedQuery_ignoreUnmapped (this : ref) (ignore : option bool) : M ref :=
  set_option "nested" "ignoreUnmapped" "ignore_unmapped" this
    (VBool (default true ignore)).

Definition NestedQuery_innerHits (this : ref) (config : value) : M ref :=
  set_option "nested" "innerHits" "inner_hits" this config.

(** DisMaxQuery *)

Definition DisMaxQuery_queries (this : ref) (queries : list ref) : M ref :=
  let* operation := _recordOperation "queries" [AQueries queries] in
  let* body := this_body this in
  let* dis_max := lift (prop body "dis_max") in
  let* js := mapM toJSON queries in
  _createNew this
    (obj [("dis_max", obj (define "queries" (arr js) (spread dis_max [])))])
    (Some operation).

Definition DisMaxQuery_query (this : ref) (query : ref) : M ref :=
  let* operation := _recordOperation "query" [AQuery query] in
  let* body := this_body this in
  let* dis_max := lift (prop body "dis_max") in
  let* currentQueries := lift (prop dis_max "queries") in
  let* old := lift (elements currentQueries) in
  let* j := toJSON query in
  _createNew this
    (obj [("dis_max", obj (define "queries" (arr (old ++ [j])) (spread dis_max [])))])
    (Some operation).

Definition DisMaxQuery_addQueries (this : ref) (queries : list ref) : M ref :=
  let* operation := _recordOperation "addQueries" (map AQuery queries) in
  let* body := this_body this in
  let* dis_max := lift (prop body "dis_max") in
  let* currentQueries := lift (prop dis_max "queries") in
  let* old := lift (elements currentQueries) in
  let* js := mapM toJSON queries in
  _createNew this
    (obj [("dis_max", obj (define "queries" (arr (old ++ js)) (spread dis_max [])))])
    (Some operation).

(** [value < 0 || value > 1] *)
Definition out_of_range (v : number) : bool :=
  num_lt v zero || num_gt v one.

Definition DisMaxQuery_tieBreaker (this : ref) (v : number) : M ref :=
  if out_of_range v
  then throw (Error "Tie breaker must be between 0 and 1")
  else set_option "dis_max" "tieBreaker" "tie_breaker" this (VNum v).

Definition DisMaxQuery_boost (this : ref) (v : number) : M ref :=
  set_option "dis_max" "boost" "boost" this (VNum v).

(** BoostingQuery *)

Definition BoostingQuery_set_query
    (name : string) (this : ref) (query : ref) : M ref :=
  let* operation := _recordOperation name [AQuery query] in
  let* body := this_body this in
  let* boosting := lift (prop body "boosting") in
  let* j := toJSON query in
  _createNew this
    (obj [("boosting", obj (define name j (spread boosting [])))])
    (Some operation).

Definition BoostingQuery_positive := BoostingQuery_set_query "positive".
Definition BoostingQuery_negative := BoostingQuery_set_query "negative".

Definition BoostingQuery_negativeBoost (this : ref) (v : number) : M ref :=
  if out_of_range v
  then throw (Error "Negative boost must be between 0 and 1")
  else set_option "boosting" "negativeBoost" "negative_boost" this (VNum v).

(** ** [JSON.stringify] and [equals]

    The text that [JSON.stringify] prints is kept as the sequence of its
    lexemes.  Two texts are the same string exactly when their lexeme
    sequences agree; numbers are compared by value.  A [Date] prints as
    the string that [toISOString] gives for its time. *)

Inductive lexeme : Type :=
  | LexNull
  | LexTrue
  | LexFalse
  | LexNum (q : Q)
  | LexStr (s : string)
  | LexBeginArray
  | LexEndArray
  | LexBeginObject
  | LexEndObject
  | LexComma
  | LexColon.

Definition lexeme_eqb (a b : lexeme) : bool :=
  match a, b with
  | LexNull, LexNull | LexTrue, LexTrue | LexFalse, LexFalse => true
  | LexNum p, LexNum q => Z.eqb (Qnum p) (Qnum q) && Pos.eqb (Qden p) (Qden q)
  | LexStr s, LexStr t => String.eqb s t
  | LexBeginArray, LexBeginArray | LexEndArray, LexEndArray => true
  | LexBeginObject, LexBeginObject | LexEndObject, LexEndObject => true
  | LexComma, LexComma | LexColon, LexColon => true
  | _, _ => false
  end.

Fixpoint text_eqb (a b : list lexeme) : bool :=
  match a, b with
  | [], [] => true
  | x :: a', y :: b' => lexeme_eqb x y && text_eqb a' b'
  | _, _ => false
  end.

(** [s === t] on the results of [JSON.stringify], which are strings or
    [undefined]. *)
Definition same_text (a b : option (list lexeme)) : bool :=
  match a, b with
  | Some x, Some y => text_eqb x y
  | None, None => true
  | _, _ => false
  end.

(** The elements of an array: an element with nothing to print
    ([undefined]) prints as [null]. *)
Definition print_elements (print : value -> option (list lexeme))
  : list value -> bool -> list lexeme :=
  fix elems (l : list value) (first : bool) : list lexeme :=
    match l with
    | [] => [LexEndArray]
    | x :: rest =>
        (if first then [] else [LexComma]) ++
        default [LexNull] (print x) ++ elems rest false
    end.

(** The members of an object: a member with nothing to print is left
    out. *)
Definition print_members (print : value -> option (list lexeme))
  : props -> bool -> list lexeme :=
  fix members (l : props) (first : bool) : list lexeme :=
    match l with
    | [] => [LexEndObject]
    | (k, x) :: rest =>
        match print x with
        | Some text =>
            (if first then [] else [LexComma]) ++
            LexStr k :: LexColon :: text ++ members rest false
        | None => members rest first
        end
    end.

Section stringify.
Variable toISOString : Z -> string.

(** The lexemes of a value in an array or at the top level; [None] is
    the [undefined] that [JSON.stringify] returns when there is nothing
    to print. *)
Fixpoint stringify (v : value) : option (list lexeme) :=
  match v with
  | VUndefined => None
  | VNull => Some [LexNull]
  | VBool true => Some [LexTrue]
  | VBool false => Some [LexFalse]
  | VNum (Finite q) => Some [LexNum (Qred q)]
  | VNum _ => Some [LexNull]
  | VStr s => Some [LexStr s]
  | VDate t => Some [LexStr (toISOString t)]
  | VArr _ items => Some (LexBeginArray :: print_elements stringify items true)
  | VObj _ ps => Some (LexBeginObject :: print_members stringify ps true)
  end.

(** [equals(other)] *)
Definition equals (this other : ref) : M bool :=
  let* a := toJSON this in
  let* b := toJSON other in
  ret (same_text (stringify a) (stringify b)).
End stringify.

(** ** The factory [Q] (Q.ts) *)

(** [query instanceof C] *)
Definition instanceof (query : ref) (c : class) : M bool :=
  let* inst := deref query in
  ret (match cls inst, c with
       | BoolQuery, BoolQuery | TermQuery, TermQuery
       | RangeQuery, RangeQuery | NestedQuery, NestedQuery
       | DisMaxQuery, DisMaxQuery | BoostingQuery, BoostingQuery => true
       | _, _ => false
       end).

Definition Q_bool : M ref := BoolQuery_constructor VUndefined.
Definition Q_term (field : string) (v : value) : M ref := TermQuery_constructor field v.

Definition Q_and (queries : list ref) : M ref :=
  let* b := BoolQuery_constructor VUndefined in BoolQuery_must b (Many queries).

Definition Q_or (queries : list ref) : M ref :=
  let* b := BoolQuery_constructor VUndefined in BoolQuery_should b (Many queries).

Definition Q_not (query : ref) : M ref :=
  let* b := BoolQuery_constructor VUndefined in BoolQuery_mustNot b (One query).

(** [exists: (field) => new RangeQuery(field).gte(null)] *)
Definition Q_exists (field : string) : M ref :=
  let* r := RangeQuery_constructor field in RangeQuery_gte r VNull.

Definition Q_filter (queries : list ref) : M ref :=
  let* b := BoolQuery_constructor VUndefined in BoolQuery_filter b (Many queries).

Definition Q_must (queries : list ref) : M ref :=
  let* b := BoolQuery_constructor VUndefined in BoolQuery_must b (Many queries).

Definition Q_should (queries : list ref) : M ref :=
  let* b := BoolQuery_constructor VUndefined in BoolQuery_should b (Many queries).

Definition Q_isEmpty (query : ref) : M bool :=
  let* is_bool := instanceof query BoolQuery in
  if is_bool then BoolQuery_isEmpty query else ret false.

(** [typeof v !== 'object'] *)
Definition typeof_not_object (v : value) : bool :=
  match v with
  | VNull | VDate _ | VArr _ _ | VObj _ _ => false
  | _ => true
  end.

(** [error instanceof Error ? error.message : 'Unknown error'] *)
Definition error_message (e : error) : string :=
  match e with
  | Error m | TypeError m => m
  | Dangling => "Unknown error"
  end.

Record Validation : Type := mkValidation {
  valid : bool;
  errors : list string
}.

(** [validate(query)].  The array [errors] lives outside the [try] block:
    what was pushed before an exception stays in it. *)
Definition Q_validate (query : ref) : M Validation :=
  let failed (errors : list string) (e : error) : M (list string) :=
    ret (errors ++ [("Query serialization failed: " ++ error_message e)%string]) in
  let* errors :=
    try_catch
      (let* json := toJSON query in
       let errors :=
         if negb (truthy json) || typeof_not_object json
         then ["Query does not produce valid JSON object"] else [] in
       try_catch
         (let* is_bool := instanceof query BoolQuery in
          let* errors :=
            if is_bool then
              let* empty := BoolQuery_isEmpty query in
              ret (if empty then errors ++ ["Bool query has no clauses"] else errors)
            else ret errors in
          try_catch
            (let* is_range := instanceof query RangeQuery in
             if is_range then
               let* bounded := RangeQuery_hasBounds query in
               ret (if negb bounded
                    then errors ++ ["Range query has no bounds set"] else errors)
             else ret errors)
            (failed errors))
         (failed errors))
      (failed []) in
  ret (mkValidation (match errors with [] => true | _ => false end) errors).

(** ** Accessors

    The read-only methods of the variants.  They return the live values
    of the stored body. *)

(** [Q.equals(query1, query2)] *)
Definition Q_equals (toISOString : Z -> string) (query1 query2 : ref) : M bool :=
  equals toISOString query1 query2.

(** TermQuery: [getField()] is [Object.keys(this._body.term)[0]]. *)
Definition TermQuery_getField (this : ref) : M value :=
  let* body := this_body this in
  let* term := lift (prop body "term") in
  lift (first_key term).

(** [getValue()] *)
Definition TermQuery_getValue (this : ref) : M value :=
  let* body := this_body this in
  let* term := lift (prop body "term") in
  let* v := lift (first_value term) in
  ret (_getBaseValue v).

(** [getBoost()]:
    [typeof value === 'object' && value !== null && 'boost' in value
       ? value.boost : undefined] *)
Definition TermQuery_getBoost (this : ref) : M value :=
  let* body := this_body this in
  let* term := lift (prop body "term") in
  let* v := lift (first_value term) in
  ret (match v with
       | VObj _ ps =>
           if has_own "boost" ps then default VUndefined (lookup_prop "boost" ps)
           else VUndefined
       | _ => VUndefined
       end).

(** [isCaseInsensitive()] *)
Definition TermQuery_isCaseInsensitive (this : ref) : M value :=
  let* body := this_body this in
  let* term := lift (prop body "term") in
  let* v := lift (first_value term) in
  ret (match v with
       | VObj _ ps =>
           if has_own "case_insensitive" ps
           then default VUndefined (lookup_prop "case_insensitive" ps)
           else VBool false
       | _ => VBool false
       end).

(** RangeQuery: [getField()] is [Object.keys(this._body.range)[0]]. *)
Definition RangeQuery_getField (this : ref) : M value :=
  let* body := this_body this in
  let* range := lift (prop body "range") in
  lift (first_key range).

(** BoolQuery: [getClauseCounts()], each count being
    [bool.slot?.length || 0]. *)
Record ClauseCounts : Type := mkClauseCounts {
  count_must : value;
  count_should : value;
  count_filter : value;
  count_mustNot : value
}.

Definition BoolQuery_getClauseCounts (this : ref) : M ClauseCounts :=
  let* body := this_body this in
  let* bool := lift (prop body "bool") in
  let* must := lift (prop bool "must") in
  let* should := lift (prop bool "should") in
  let* filter := lift (prop bool "filter") in
  let* must_not := lift (prop bool "must_not") in
  ret (mkClauseCounts (js_or (prop_opt must "length") (VNum zero))
                      (js_or (prop_opt should "length") (VNum zero))
                      (js_or (prop_opt filter "length") (VNum zero))
                      (js_or (prop_opt must_not "length") (VNum zero))).

(** [this._body[kind][key]], the shape of the getters of the compound
    variants. *)
Definition get_option (kind key : string) (this : ref) : M value :=
  let* body := this_body this in
  let* nested := lift (prop body kind) in
  lift (prop nested key).

Definition NestedQuery_getPath := get_option "nested" "path".
Definition NestedQuery_getQuery := get_option "nested" "query".
Definition NestedQuery_getScoreMode := get_option "nested" "score_mode".
Definition NestedQuery_getBoost := get_option "nested" "boost".
Definition NestedQuery_getIgnoreUnmapped := get_option "nested" "ignore_unmapped".
Definition NestedQuery_getInnerHits := get_option "nested" "inner_hits".

Definition DisMaxQuery_getQueries := get_option "dis_max" "queries".
Definition DisMaxQuery_getTieBreaker := get_option "dis_max" "tie_breaker".
Definition DisMaxQuery_getBoost := get_option "dis_max" "boost".

(** [getQueryCount()] is [this._body.dis_max.queries.length]. *)
Definition DisMaxQuery_getQueryCount (this : ref) : M value :=
  let* queries := DisMaxQuery_getQueries this in
  lift (prop queries "length").

Definition BoostingQuery_getPositive := get_option "boosting" "positive".
Definition BoostingQuery_getNegative := get_option "boosting" "negative".
Definition BoostingQuery_getNegativeBoost := get_option "boosting" "negative_boost".

(** ** Method calls

    One constructor per mutator of the six variants; [receiver] is the
    class that declares the method, [invoke] the call [this.m(...)]. *)

Inductive call : Type :=
  | Bool_must (query : one_or_many)
  | Bool_should (query : one_or_many)
  | Bool_filter (query : one_or_many)
  | Bool_mustNot (query : one_or_many)
  | Bool_minimumShouldMatch (v : value)
  | Bool_boost (v : number)
  | Term_boost (v : number)
  | Term_caseInsensitive (v : option bool)
  | Range_gte (v : value)
  | Range_gt (v : value)
  | Range_lte (v : value)
  | Range_lt (v : value)
  | Range_boost (v : number)
  | Range_format (v : string)
  | Range_timeZone (v : string)
  | Range_relation (v : Relation)
  | Range_between (min max : value) (inclusive : option bool)
  | Nested_path (path : string)
  | Nested_query (query : ref)
  | Nested_scoreMode (mode : ScoreMode)
  | Nested_boost (v : number)
  | Nested_ignoreUnmapped (ignore : option bool)
  | Nested_innerHits (config : value)
  | DisMax_queries (queries : list ref)
  | DisMax_query (query : ref)
  | DisMax_addQueries (queries : list ref)
  | DisMax_tieBreaker (v : number)
  | DisMax_boost (v : number)
  | Boosting_positive (query : ref)
  | Boosting_negative (query : ref)
  | Boosting_negativeBoost (v : number).

Definition receiver (c : call) : class :=
  match c with
  | Bool_must _ | Bool_should _ | Bool_filter _ | Bool_mustNot _
  | Bool_minimumShouldMatch _ | Bool_boost _ => BoolQuery
  | Term_boost _ | Term_caseInsensitive _ => TermQuery
  | Range_gte _ | Range_gt _ | Range_lte _ | Range_lt _ | Range_boost _
  | Range_format _ | Range_timeZone _ | Range_relation _
  | Range_between _ _ _ => RangeQuery
  | Nested_path _ | Nested_query _ | Nested_scoreMode _ | Nested_boost _
  | Nested_ignoreUnmapped _ | Nested_innerHits _ => NestedQuery
  | DisMax_queries _ | DisMax_query _ | DisMax_addQueries _
  | DisMax_tieBreaker _ | DisMax_boost _ => DisMaxQuery
  | Boosting_positive _ | Boosting_negative _
  | Boosting_negativeBoost _ => BoostingQuery
  end.

Definition invoke (this : ref) (c : call) : M ref :=
  match c with
  | Bool_must q => BoolQuery_must this q
  | Bool_should q => BoolQuery_should this q
  | Bool_filter q => BoolQuery_filter this q
  | Bool_mustNot q => BoolQuery_mustNot this q
  | Bool_minimumShouldMatch v => BoolQuery_minimumShouldMatch this v
  | Bool_boost v => BoolQuery_boost this v
  | Term_boost v => TermQuery_boost this v
  | Term_caseInsensitive v => TermQuery_caseInsensitive this v
  | Range_gte v => RangeQuery_gte this v
  | Range_gt v => RangeQuery_gt this v
  | Range_lte v => RangeQuery_lte this v
  | Range_lt v => RangeQuery_lt this v
  | Range_boost v => RangeQuery_boost this v
  | Range_format v => RangeQuery_format this v
  | Range_timeZone v => RangeQuery_timeZone this v
  | Range_relation v => RangeQuery_relation this v
  | Range_between min max inclusive => RangeQuery_between this min max inclusive
  | Nested_path p => NestedQuery_path this p
  | Nested_query q => NestedQuery_query this q
  | Nested_scoreMode m => NestedQuery_scoreMode this m
  | Nested_boost v => NestedQuery_boost this v
  | Nested_ignoreUnmapped i => NestedQuery_ignoreUnmapped this i
  | Nested_innerHits c => NestedQuery_innerHits this c
  | DisMax_queries qs => DisMaxQuery_queries this qs
  | DisMax_query q => DisMaxQuery_query this q
  | DisMax_addQueries qs => DisMaxQuery_addQueries this qs
  | DisMax_tieBreaker v => DisMaxQuery_tieBreaker this v
  | DisMax_boost v => DisMaxQuery_boost this v
  | Boosting_positive q => BoostingQuery_positive this q
  | Boosting_negative q => BoostingQuery_negative this q
  | Boosting_negativeBoost v => BoostingQuery_negativeBoost this v
  end.

(** [this] is an instance of the class that declares the method. *)
Definition well_typed (w : world) (this : ref) (c : call) : Prop :=
  exists inst, heap w !! this = Some inst /\ cls inst = receiver c.

(** The calls of NestedQuery that set an option besides [path] and
    [query]. *)
Definition nested_options (b : number) (mode : ScoreMode) (ignore : option bool)
    (config : value) : list call :=
  [Nested_scoreMode mode; Nested_boost b; Nested_ignoreUnmapped ignore;
   Nested_innerHits config].

(** ** How a world evolves

    [ids_bounded]: every instance carries a generated id whose sequence
    number the counter has passed.  [evolves w w']: the instances of [w]
    are still there, untouched, and every instance added since has a
    newer generated id, an empty operation list, a creation time read
    from the clock in between and a frozen deep clone for a body. *)

Definition ids_bounded (w : world) : Prop :=
  forall r inst, heap w !! r = Some inst ->
    exists n t, qid (_metadata inst) = id_string n t /\ n <= queryIdCounter w.

Record evolves (w w' : world) : Prop := mkEvolves {
  ev_heap : exists added, heap w' = heap w ++ added;
  ev_counter : queryIdCounter w <= queryIdCounter w';
  ev_reads : reads w <= reads w';
  ev_draws : draws w <= draws w';
  ev_now : now w' = now w;
  ev_random : random w' = random w;
  ev_added : forall r inst,
      length (heap w) <= r -> heap w' !! r = Some inst ->
      (exists n t, qid (_metadata inst) = id_string n t /\
                   queryIdCounter w < n <= queryIdCounter w') /\
      operations (_metadata inst) = [] /\
      (exists k, reads w <= k < reads w' /\ created (_metadata inst) = now w k) /\
      (exists x, _body inst = Object_freeze (_deepClone x))
}.

(** A computation that only lets the world evolve, whatever it returns. *)
Definition safe {A} (m : M A) : Prop := forall w, evolves w (after m w).

(** A computation whose result, when it returns one, is an instance
    constructed during its run. *)
Definition fresh (P : world -> Prop) (m : M ref) : Prop :=
  forall w r w', P w -> m w = (Ok r, w') ->
    length (heap w) <= r < length (heap w').

(** [this] refers to an instance of one of the six variants. *)
Definition is_variant (this : ref) (w : world) : Prop :=
  exists inst, heap w !! this = Some inst /\
               forall j, cls inst <> Anonymous j.

(** ** Well-formed values

    [ordered ps]: the properties are listed as JavaScript enumerates them
    (no key twice, no later key that belongs ahead of an earlier one) and
    none is an own [__proto__].  A value is [well_formed] when all its
    objects are.  [thaw] is the same tree with no node frozen. *)

Fixpoint ordered (ps : props) : Prop :=
  match ps with
  | [] => True
  | (k, _) :: rest =>
      k <> "__proto__" /\
      Forall (fun kv => fst kv <> k /\ before (fst kv) k = false) rest /\
      ordered rest
  end.

Definition All {A} (P : A -> Prop) : list A -> Prop :=
  fix all (l : list A) : Prop :=
    match l with
    | [] => True
    | x :: rest => P x /\ all rest
    end.

Fixpoint well_formed (v : value) : Prop :=
  match v with
  | VArr _ items => All well_formed items
  | VObj _ ps => ordered ps /\ All (fun kv => well_formed (snd kv)) ps
  | _ => True
  end.

Fixpoint thaw (v : value) : value :=
  match v with
  | VArr _ items => VArr false (map thaw items)
  | VObj _ ps => VObj false (map (fun kv => (fst kv, thaw (snd kv))) ps)
  | _ => v
  end.

(** Every stored body is a frozen deep clone. *)
Definition bodies_cloned (w : world) : Prop :=
  forall r inst, heap w !! r = Some inst ->
    exists x, _body inst = Object_freeze (_deepClone x).

(** ** Writes from outside

    Code that holds a reference into a stored body (through a cast, or
    through an accessor such as [getQuery()] that returns the live value)
    may assign to it.  [write_prop] is the assignment [target[k] = v] of a
    strict-mode module: [None] is the TypeError raised on a frozen node or
    on a value that takes no property (a [Date] counts as one: the
    properties that could be added to it are outside the model).
    [write_at] walks down the own properties named by [path] first; [poke]
    performs the write inside the body of the instance [r]. *)

Definition write_prop (k : string) (v : value) (target : value) : option value :=
  match target with
  | VObj false ps => Some (VObj false (assign k v ps))
  | VArr false items =>
      match key_index k with
      | Some i =>
          if Nat.ltb i (length items) then Some (VArr false (<[i := v]> items))
          else Some (VArr false
                       (items ++ replicate (i - length items) VUndefined ++ [v]))
      | None => Some target
      end
  | _ => None
  end.

Fixpoint replace_prop (k : string) (v : value) (ps : props) : props :=
  match ps with
  | [] => []
  | (k', v') :: rest =>
      if String.eqb k k' then (k, v) :: rest
      else (k', v') :: replace_prop k v rest
  end.

Fixpoint write_at (path : list string) (k : string) (v : value) (root : value)
  : option value :=
  match path with
  | [] => write_prop k v root
  | p :: rest =>
      match root with
      | VObj fz ps =>
          match lookup_prop p ps with
          | Some child =>
              match write_at rest k v child with
              | Some child' => Some (VObj fz (replace_prop p child' ps))
              | None => None
              end
          | None => None
          end
      | VArr fz items =>
          match key_index p with
          | Some i =>
              match items !! i with
              | Some child =>
                  match write_at rest k v child with
                  | Some child' => Some (VArr fz (<[i := child']> items))
                  | None => None
                  end
              | None => None
              end
          | None => None
          end
      | _ => None
      end
  end.

Definition poke (r : ref) (path : list string) (k : string) (v : value) : M unit :=
  let* inst := deref r in
  match write_at path k v (_body inst) with
  | Some b => set_body r b
  | None => throw (TypeError "Cannot assign to read only property")
  end.

(** [every node of the value is frozen]: what a deep freeze would
    establish. *)
Fixpoint deeply_frozen (v : value) : bool :=
  match v with
  | VArr fz items => fz && forallb deeply_frozen items
  | VObj fz ps => fz && forallb (fun kv => deeply_frozen (snd kv)) ps
  | _ => true
  end.

(** ** Transmittable values

    What a body is once it has been sent as JSON: no [undefined], no
    NaN or infinity, no [Date], no frozen flag.  [transmit] is the value
    that [JSON.parse(JSON.stringify(v))] reads back; the members of an
    object stay in the order in which they were printed. *)

Inductive json : Type :=
  | JNull
  | JBool (b : bool)
  | JNum (q : Q)
  | JStr (s : string)
  | JArr (items : list json)
  | JObj (members : list (string * json)).

Section json_induction.
Variable P : json -> Prop.
Hypothesis Pnull : P JNull.
Hypothesis Pbool : forall b, P (JBool b).
Hypothesis Pnum : forall q, P (JNum q).
Hypothesis Pstr : forall s, P (JStr s).
Hypothesis Parr : forall items, Forall P items -> P (JArr items).
Hypothesis Pobj : forall ms, Forall (fun kj => P (snd kj)) ms -> P (JObj ms).

Fixpoint json_ind' (j : json) : P j :=
  match j with
  | JNull => Pnull
  | JBool b => Pbool b
  | JNum q => Pnum q
  | JStr s => Pstr s
  | JArr items =>
      Parr items
        ((fix go (l : list json) : Forall P l :=
            match l with
            | [] => List.Forall_nil P
            | x :: l' => List.Forall_cons _ x l' (json_ind' x) (go l')
            end) items)
  | JObj ms =>
      Pobj ms
        ((fix go (l : list (string * json)) : Forall (fun kj => P (snd kj)) l :=
            match l with
            | [] => List.Forall_nil _
            | kj :: l' => List.Forall_cons _ kj l' (json_ind' (snd kj)) (go l')
            end) ms)
  end.
End json_induction.

Definition transmit_members (transmit : value -> option json)
  : props -> list (string * json) :=
  fix members (l : props) : list (string * json) :=
    match l with
    | [] => []
    | (k, x) :: rest =>
        match transmit x with
        | Some j => (k, j) :: members rest
        | None => members rest
        end
    end.

Section transmit.
Variable toISOString : Z -> string.

Fixpoint transmit (v : value) : option json :=
  match v with
  | VUndefined => None
  | VNull => Some JNull
  | VBool b => Some (JBool b)
  | VNum (Finite q) => Some (JNum (Qred q))
  | VNum _ => Some JNull
  | VStr s => Some (JStr s)
  | VDate t => Some (JStr (toISOString t))
  | VArr _ items =>
      Some (JArr (map (fun x => default JNull (transmit x)) items))
  | VObj _ ps => Some (JObj (transmit_members transmit ps))
  end.
End transmit.

(** The JSON text of a transmittable value. *)
Definition print_json_elements (print : json -> list lexeme)
  : list json -> bool -> list lexeme :=
  fix elems (l : list json) (first : bool) : list lexeme :=
    match l with
    | [] => [LexEndArray]
    | x :: rest =>
        (if first then [] else [LexComma]) ++ print x ++ elems rest false
    end.

Definition print_json_members (print : json -> list lexeme)
  : list (string * json) -> bool -> list lexeme :=
  fix members (l : list (string * json)) (first : bool) : list lexeme :=
    match l with
    | [] => [LexEndObject]
    | (k, x) :: rest =>
        (if first then [] else [LexComma]) ++
        LexStr k :: LexColon :: print x ++ members rest false
    end.

Fixpoint print_json (j : json) : list lexeme :=
  match j with
  | JNull => [LexNull]
  | JBool true => [LexTrue]
  | JBool false => [LexFalse]
  | JNum q => [LexNum q]
  | JStr s => [LexStr s]
  | JArr items => LexBeginArray :: print_json_elements print_json items true
  | JObj ms => LexBeginObject :: print_json_members print_json ms true
  end.

(** The lexemes a JSON value can start with. *)
Definition opens_value (l : lexeme) : Prop :=
  match l with
  | LexEndArray | LexEndObject | LexComma | LexColon => False
  | _ => True
  end.

(** Deep identity of transmittable values as the specification words it:
    arrays element by element in order, mappings by key set and values
    (the order of the members plays no role). *)
Fixpoint lookup_member (k : string) (ms : list (string * json)) : option json :=
  match ms with
  | [] => None
  | (k', j) :: rest => if String.eqb k k' then Some j else lookup_member k rest
  end.

Definition same_members (same : json -> json -> bool)
    (ms ns : list (string * json)) : bool :=
  Nat.eqb (length ms) (length ns) &&
  (fix all (l : list (string * json)) : bool :=
     match l with
     | [] => true
     | (k, j) :: rest =>
         match lookup_member k ns with
         | Some j' => same j j'
         | None => false
         end && all rest
     end) ms.

Definition same_elements (same : json -> json -> bool)
  : list json -> list json -> bool :=
  fix all (l l' : list json) : bool :=
    match l, l' with
    | [], [] => true
    | x :: rest, y :: rest' => same x y && all rest rest'
    | _, _ => false
    end.

Fixpoint deeply_identical (a b : json) : bool :=
  match a, b with
  | JNull, JNull => true
  | JBool x, JBool y => Bool.eqb x y
  | JNum p, JNum q => Qeq_bool p q
  | JStr s, JStr t => String.eqb s t
  | JArr xs, JArr ys => same_elements deeply_identical xs ys
  | JObj ms, JObj ns => same_members deeply_identical ms ns
  | _, _ => false
  end.

(** ** Constructor calls *)

Inductive construction : Type :=
  | NewBoolQuery (body : value)
  | NewTermQuery (field : string) (v : value)
  | NewRangeQuery (field : string)
  | NewNestedQuery (path : string) (query : ref)
  | NewDisMaxQuery (queries : list ref)
  | NewBoostingQuery (positive negative : ref) (negativeBoost : option number).

Definition construct (k : construction) : M ref :=
  match k with
  | NewBoolQuery body => BoolQuery_constructor body
  | NewTermQuery field v => TermQuery_constructor field v
  | NewRangeQuery field => RangeQuery_constructor field
  | NewNestedQuery path query => NestedQuery_constructor (VStr path) query
  | NewDisMaxQuery queries => DisMaxQuery_constructor queries
  | NewBoostingQuery positive negative negativeBoost =>
      BoostingQuery_constructor positive negative
        (match negativeBoost with Some n => VNum n | None => VUndefined end)
  end.

(** The query instances a constructor call is given. *)
Definition arguments (k : construction) : list ref :=
  match k with
  | NewNestedQuery _ query => [query]
  | NewDisMaxQuery queries => queries
  | NewBoostingQuery positive negative _ => [positive; negative]
  | _ => []
  end.

(** ** Clauses of a boolean compound *)

Inductive clause : Type := Must | Should | Filter | MustNot.

(** The key of the slot in the body. *)
Definition slot_key (k : clause) : string :=
  match k with
  | Must => "must"
  | Should => "should"
  | Filter => "filter"
  | MustNot => "must_not"
  end.

(** The call that adds [query] to the slot. *)
Definition add_clause (k : clause) (query : one_or_many) : call :=
  match k with
  | Must => Bool_must query
  | Should => Bool_should query
  | Filter => Bool_filter query
  | MustNot => Bool_mustNot query
  end.

(** [c.toJSON().bool[slot]] *)
Definition clauses (c : ref) (k : clause) : M value :=
  let* j := toJSON c in
  let* bool := lift (prop j "bool") in
  lift (prop bool (slot_key k)).

(** [b] is a boolean compound whose [bool] is an object, as the type
    [BoolQueryBody] has it. *)
Definition bool_compound (w : world) (b : ref) : Prop :=
  exists inst fz bps,
    heap w !! b = Some inst /\ cls inst = BoolQuery /\
    prop (_body inst) "bool" = Ok (VObj fz bps).

(** What [toJSON()] returns for an instance. *)
Definition serialized (inst : instance) : value :=
  match cls inst with
  | Anonymous captured => captured
  | _ => _deepClone (_body inst)
  end.

(** ** Scenarios

    Programs over the library, run below in the world of a module just
    loaded. *)

(** [new NestedQuery('user', Q.term('name', 'kim')).boost(2)]: the
    instance returned serializes without the boost. *)
Definition nested_boost_scenario : M (value * value) :=
  let* inner := Q_term "name" (VStr "kim") in
  let* q := NestedQuery_constructor (VStr "user") inner in
  let* q' := NestedQuery_boost q (num_of_Z 2) in
  let* j := toJSON q' in
  ret (j, prop_opt (prop_opt j "nested") "boost").

(** [new DisMaxQuery([]).query(Q.term('name', 'kim'))] *)
Definition dis_max_query_scenario : M value :=
  let* r := Q_term "name" (VStr "kim") in
  let* q := DisMaxQuery_constructor [] in
  let* q' := DisMaxQuery_query q r in
  let* j := toJSON q' in
  ret (prop_opt (prop_opt j "dis_max") "queries").

(** [Q.bool().boost(2)]: the operation lists of the receiver and of the
    instance returned. *)
Definition bool_boost_scenario : M (list Operation * list Operation) :=
  let* q := Q_bool in
  let* q' := BoolQuery_boost q (num_of_Z 2) in
  let* m := metadata q in
  let* m' := metadata q' in
  ret (operations m, operations m').

(** [new BoostingQuery(Q.term('a', 1), Q.term('b', 2), 1.5).toJSON()] *)
Definition boosting_scenario : M value :=
  let* positive := Q_term "a" (VNum (num_of_Z 1)) in
  let* negative := Q_term "b" (VNum (num_of_Z 2)) in
  let* q := BoostingQuery_constructor positive negative (VNum (Finite (3 # 2))) in
  toJSON q.

(** [Q.term('status', 'active')], then the assignment
    [body.term.status = 'deleted'] on its stored body: the serialization
    before and after. *)
Definition nested_write_scenario : M (value * value) :=
  let* q := Q_term "status" (VStr "active") in
  let* before := toJSON q in
  let* _ := poke q ["term"] "status" (VStr "deleted") in
  let* after := toJSON q in
  ret (before, after).

(** [Q.term('f', 'x').boost(2).caseInsensitive(true)] against
    [Q.term('f', 'x').caseInsensitive(true).boost(2)]: the answer of
    [equals] and what the two bodies transmit. *)
Definition key_order_scenario : M (bool * option json * option json) :=
  let* a := Q_term "f" (VStr "x") in
  let* a := TermQuery_boost a (num_of_Z 2) in
  let* a := TermQuery_caseInsensitive a (Some true) in
  let* b := Q_term "f" (VStr "x") in
  let* b := TermQuery_caseInsensitive b (Some true) in
  let* b := TermQuery_boost b (num_of_Z 2) in
  let* same := equals (fun _ => "") a b in
  let* ja := toJSON a in
  let* jb := toJSON b in
  ret (same, transmit (fun _ => "") ja, transmit (fun _ => "") jb).

(** ** A sample run

    A clock read within one millisecond, a generator that always draws
    the same suffix, and the world of a module just loaded under them. *)

Definition sample_clock (n : nat) : Z := 1700000000000.
Definition sample_random (n : nat) : string := "k3x9q2m1z".
Definition sample_world : world := initial sample_clock sample_random.

(** The world after [Q.term('price', 100)]: the query is instance 0. *)
Definition sample_term_world : world :=
  after (Q_term "price" (VNum (num_of_Z 100))) sample_world.

(** The world after [s = Q.term('active', true)] (instance 0) and two
    [Q.bool()] (instances 1 and 2). *)
Definition sample_shared_world : world :=
  after (let* s := Q_term "active" (VBool true) in
         let* b1 := Q_bool in
         let* b2 := Q_bool in
         ret (s, b1, b2)) sample_world.

(** Then [c1 = b1.filter(s)] (instance 3), [c2 = b2.must(s)] (instance 4)
    and [s.boost(2)]. *)
Definition sample_filter_world : world :=
  after (invoke 1 (add_clause Filter (One 0))) sample_shared_world.
Definition sample_must_world : world :=
  after (invoke 2 (add_clause Must (One 0))) sample_filter_world.
Definition sample_boosted_world : world :=
  after (invoke 0 (Term_boost (num_of_Z 2))) sample_must_world.

(** The world after [Q.nested('user', t)], [Q.disMax([t])] and
    [Q.boosting(t, t)], [t] being the term query of [sample_term_world]
    (the compound is instance 1), and after [Q.range('price')]
    (instance 0). *)
Definition sample_nested_world : world :=
  after (NestedQuery_constructor (VStr "user") 0) sample_term_world.
Definition sample_dis_max_world : world :=
  after (DisMaxQuery_constructor [0]) sample_term_world.
Definition sample_boosting_world : world :=
  after (BoostingQuery_constructor 0 0 VUndefined) sample_term_world.

(** ** Families of calls

    The factory's combinators, which differ by the slot they fill, and
    the mutators of a variant that the properties treat alike. *)

Inductive combinator : Type := And | Or | FilterAll | MustAll | ShouldAll.

Definition combine (k : combinator) (queries : list ref) : M ref :=
  match k with
  | And => Q_and queries
  | Or => Q_or queries
  | FilterAll => Q_filter queries
  | MustAll => Q_must queries
  | ShouldAll => Q_should queries
  end.

Definition combinator_slot (k : combinator) : clause :=
  match k with
  | And | MustAll => Must
  | Or | ShouldAll => Should
  | FilterAll => Filter
  end.



(** The mutators of a disjunction other than [query]. *)
Definition dis_max_calls (queries more : list ref) (tie : number) (b : number)
  : list call :=
  [DisMax_queries queries; DisMax_addQueries more; DisMax_tieBreaker tie;
   DisMax_boost b].

(** ** Shapes of worlds and bodies *)

(** The world after an operation was recorded: two readings of the clock
    and one draw later. *)
Definition recorded (w : world) : world :=
  mkWorld (queryIdCounter w) (heap w) (now w) (S (S (reads w)))
          (random w) (S (draws w)).

(** A computation that leaves the world as it found it, whatever it
    returns. *)
Definition quiet {A} (m : M A) : Prop := forall w, after m w = w.

(** A value that [_deepClone] returns unchanged. *)
Definition clean (v : value) : Prop := well_formed v /\ thaw v = v.

(** [b] is a boolean compound whose body is [{bool: B}], [B] being an
    object that is its own deep clone: what the constructor and the
    mutators store. *)
Definition plain_bool (w : world) (b : ref) (bps : props) : Prop :=
  exists fz md,
    heap w !! b =
      Some (mkInstance BoolQuery (VObj fz [("bool", VObj false bps)]) md) /\
    _deepClone (obj bps) = obj bps.

(** The length of an array as [getClauseCounts] reports it. *)
Definition count_of (n : nat) : value := VNum (num_of_nat n).

(** * Properties *)

(** ** The monad *)

Lemma bind_run {A B} (m : M A) (k : A -> M B) w a w1 :
  m w = (Ok a, w1) -> bind m k w = k a w1.
Proof. intros H. unfold bind. now rewrite H. Qed.

Lemma bind_throw {A B} (m : M A) (k : A -> M B) w e w1 :
  m w = (Throw e, w1) -> bind m k w = (Throw e, w1).
Proof. intros H. unfold bind. now rewrite H. Qed.

Lemma bind_ok_inv {A B} (m : M A) (k : A -> M B) w b w2 :
  bind m k w = (Ok b, w2) ->
  exists a w1, m w = (Ok a, w1) /\ k a w1 = (Ok b, w2).
Proof.
  unfold bind. destruct (m w) as [[a|e] w1]; [eauto | discriminate].
Qed.

(** ** Evolution of the world *)

Lemma evolves_refl w : evolves w w.
Proof.
  split; try lia; try reflexivity.
  - exists []. now rewrite app_nil_r.
  - intros r inst Hr Hl. apply lookup_lt_Some in Hl. lia.
Qed.

Lemma evolves_trans w1 w2 w3 : evolves w1 w2 -> evolves w2 w3 -> evolves w1 w3.
Proof.
  intros [[a1 H1] C1 R1 D1 N1 G1 A1] [[a2 H2] C2 R2 D2 N2 G2 A2].
  split; try lia; try congruence.
  - exists (a1 ++ a2). rewrite H2, H1. now rewrite app_assoc.
  - intros r inst Hr Hl.
    destruct (decide (r < length (heap w2))) as [Hlt | Hge].
    + assert (heap w2 !! r = Some inst) as Hl2.
      { rewrite H2 in Hl. now rewrite lookup_app_l in Hl. }
      destruct (A1 r inst Hr Hl2)
        as [(n & t & Hid & Hn) [Hops [(k & Hk & Hc) Hb]]].
      repeat split.
      * exists n, t. split; [assumption | lia].
      * assumption.
      * exists k. split; [lia | assumption].
      * assumption.
    + destruct (A2 r inst ltac:(lia) Hl)
        as [(n & t & Hid & Hn) [Hops [(k & Hk & Hc) Hb]]].
      repeat split.
      * exists n, t. split; [assumption | lia].
      * assumption.
      * exists k. split; [lia | congruence].
      * assumption.
Qed.

Lemma evolves_lookup w w' r inst :
  evolves w w' -> heap w !! r = Some inst -> heap w' !! r = Some inst.
Proof.
  intros [[a H] _ _ _ _ _ _] Hl. rewrite H. now apply lookup_app_l_Some.
Qed.

Lemma evolves_length w w' : evolves w w' -> length (heap w) <= length (heap w').
Proof. intros [[a H] _ _ _ _ _ _]. rewrite H, length_app. lia. Qed.

Lemma evolves_ids_bounded w w' : evolves w w' -> ids_bounded w -> ids_bounded w'.
Proof.
  intros Hev Hb r inst Hl.
  destruct (decide (r < length (heap w))) as [Hlt | Hge].
  - destruct Hev as [[a H] C _ _ _ _ _].
    rewrite H, lookup_app_l in Hl by assumption.
    destruct (Hb r inst Hl) as (n & t & Hid & Hn).
    exists n, t. split; [assumption | lia].
  - destruct (ev_added _ _ Hev r inst ltac:(lia) Hl) as [(n & t & Hid & Hn) _].
    exists n, t. split; [assumption | lia].
Qed.

Lemma ids_bounded_initial clock gen : ids_bounded (initial clock gen).
Proof. intros r inst Hl. discriminate. Qed.

Lemma is_variant_evolves this w w' :
  evolves w w' -> is_variant this w -> is_variant this w'.
Proof.
  intros Hev (inst & Hl & Hc). exists inst. split; [|assumption].
  eapply evolves_lookup; eassumption.
Qed.

(** *** Safe computations *)

Lemma safe_ret {A} (a : A) : safe (ret a).
Proof. intros w. apply evolves_refl. Qed.

Lemma safe_throw {A} e : safe (@throw A e).
Proof. intros w. apply evolves_refl. Qed.

Lemma safe_lift {A} (o : outcome A) : safe (lift o).
Proof. intros w. apply evolves_refl. Qed.

Lemma safe_bind {A B} (m : M A) (k : A -> M B) :
  safe m -> (forall a, safe (k a)) -> safe (bind m k).
Proof.
  intros Hm Hk w. unfold after, bind. specialize (Hm w). unfold after in Hm.
  destruct (m w) as [[a|e] w1]; simpl in *; [|assumption].
  eapply evolves_trans; [eassumption|]. apply Hk.
Qed.

Lemma safe_try_catch {A} (m : M A) (h : error -> M A) :
  safe m -> (forall e, safe (h e)) -> safe (try_catch m h).
Proof.
  intros Hm Hh w. unfold after, try_catch. specialize (Hm w). unfold after in Hm.
  destruct (m w) as [[a|e] w1]; simpl in *; [assumption|].
  eapply evolves_trans; [eassumption|]. apply Hh.
Qed.

Lemma safe_deref r : safe (deref r).
Proof.
  intros w. unfold after, deref. destruct (heap w !! r); apply evolves_refl.
Qed.

Lemma safe_Date_now : safe Date_now.
Proof.
  intros w. unfold after, Date_now. simpl.
  split; simpl; try lia; try reflexivity.
  - exists []. now rewrite app_nil_r.
  - intros r inst Hr Hl. apply lookup_lt_Some in Hl. lia.
Qed.

Lemma safe_Math_random_base36 : safe Math_random_base36.
Proof.
  intros w. unfold after, Math_random_base36. simpl.
  split; simpl; try lia; try reflexivity.
  - exists []. now rewrite app_nil_r.
  - intros r inst Hr Hl. apply lookup_lt_Some in Hl. lia.
Qed.

Lemma safe_mapM {A B} (f : A -> M B) l :
  (forall a, safe (f a)) -> safe (mapM f l).
Proof.
  intros Hf. induction l as [|x l IH]; simpl.
  - apply safe_ret.
  - apply safe_bind; [apply Hf|]. intros y.
    apply safe_bind; [apply IH|]. intros ys. apply safe_ret.
Qed.

(** The base constructor, called as every class of the library calls it
    (no metadata), adds one instance with a new id. *)
Lemma Query_constructor_run c body w :
  Query_constructor c body None w =
    (Ok (length (heap w)),
     mkWorld (S (queryIdCounter w))
       (heap w ++
        [mkInstance c (Object_freeze (_deepClone body))
           (mkMetadata (id_string (S (queryIdCounter w)) (now w (reads w)))
                       [] (now w (S (reads w))) None)])
       (now w) (S (S (reads w))) (random w) (draws w)).
Proof. reflexivity. Qed.

Lemma safe_Query_constructor c body : safe (Query_constructor c body None).
Proof.
  intros w. unfold after. rewrite Query_constructor_run. simpl.
  split; simpl; try lia; try reflexivity.
  - eauto.
  - intros r inst Hr Hl.
    assert (r = length (heap w)) as ->.
    { apply lookup_lt_Some in Hl. rewrite length_app in Hl. simpl in Hl. lia. }
    rewrite list_lookup_middle in Hl by reflexivity.
    injection Hl as <-. simpl. repeat split.
    + exists (S (queryIdCounter w)), (now w (reads w)). split; [reflexivity | lia].
    + exists (S (reads w)). split; [lia | reflexivity].
    + eauto.
Qed.

(** A constructor followed by the overwrite of the new instance's body,
    as the clones of the single-field variants do. *)
Lemma overwrite_run c body b' w :
  (let* r := Query_constructor c body None in
   let* _ := set_body r b' in
   ret r) w =
    (Ok (length (heap w)),
     mkWorld (S (queryIdCounter w))
       (heap w ++
        [mkInstance c b'
           (mkMetadata (id_string (S (queryIdCounter w)) (now w (reads w)))
                       [] (now w (S (reads w))) None)])
       (now w) (S (S (reads w))) (random w) (draws w)).
Proof.
  unfold bind. rewrite Query_constructor_run. unfold set_body. simpl.
  rewrite list_lookup_middle by reflexivity. simpl.
  rewrite insert_app_r_alt by lia. rewrite Nat.sub_diag. reflexivity.
Qed.

Lemma safe_overwrite c body b' :
  safe (let* r := Query_constructor c body None in
        let* _ := set_body r (Object_freeze (_deepClone b')) in
        ret r).
Proof.
  intros w. unfold after. rewrite overwrite_run. simpl.
  split; simpl; try lia; try reflexivity.
  - eauto.
  - intros r inst Hr Hl.
    assert (r = length (heap w)) as ->.
    { apply lookup_lt_Some in Hl. rewrite length_app in Hl. simpl in Hl. lia. }
    rewrite list_lookup_middle in Hl by reflexivity.
    injection Hl as <-. simpl. repeat split.
    + exists (S (queryIdCounter w)), (now w (reads w)). split; [reflexivity | lia].
    + exists (S (reads w)). split; [lia | reflexivity].
    + eauto.
Qed.

Create HintDb safe.

#[local] Hint Resolve safe_ret safe_throw safe_lift safe_deref safe_Date_now
  safe_Math_random_base36 safe_Query_constructor : safe.

Ltac safe_step :=
  cbv beta zeta;
  match goal with
  | |- safe (bind (Query_constructor _ _ None)
                   (fun r => bind (set_body r (Object_freeze (_deepClone _))) _)) =>
      apply safe_overwrite
  | |- safe (bind _ _) => apply safe_bind; [| intros ?]
  | |- safe (try_catch _ _) => apply safe_try_catch; [| intros ?]
  | |- safe (mapM _ _) => apply safe_mapM; intros ?
  | |- safe (match ?x with _ => _ end) => destruct x
  | |- safe _ => solve [eauto with safe]
  end.

Ltac safe_auto := repeat safe_step.

Lemma safe_toJSON this : safe (toJSON this).
Proof. unfold toJSON. safe_auto. Qed.

Lemma safe_Query_id this : safe (Query_id this).
Proof. unfold Query_id. safe_auto. Qed.

Lemma safe_this_body this : safe (this_body this).
Proof. unfold this_body. safe_auto. Qed.

Lemma safe_instanceof this c : safe (instanceof this c).
Proof. unfold instanceof. safe_auto. Qed.

#[local] Hint Resolve safe_toJSON safe_Query_id safe_this_body safe_instanceof : safe.

Lemma safe_generateOperationId : safe generateOperationId.
Proof. unfold generateOperationId. safe_auto. Qed.

#[local] Hint Resolve safe_generateOperationId : safe.

Lemma safe__serializeArgs args : safe (_serializeArgs args).
Proof. unfold _serializeArgs. safe_auto. Qed.

#[local] Hint Resolve safe__serializeArgs : safe.

Lemma safe__recordOperation name args : safe (_recordOperation name args).
Proof. unfold _recordOperation. safe_auto. Qed.

#[local] Hint Resolve safe__recordOperation : safe.

#[local] Hint Resolve safe_overwrite : safe.

Lemma safe_BoolQuery_constructor body : safe (BoolQuery_constructor body).
Proof. unfold BoolQuery_constructor. safe_auto. Qed.

Lemma safe_TermQuery_constructor field v : safe (TermQuery_constructor field v).
Proof. unfold TermQuery_constructor. safe_auto. Qed.

Lemma safe_RangeQuery_constructor field : safe (RangeQuery_constructor field).
Proof. unfold RangeQuery_constructor. safe_auto. Qed.

Lemma safe_NestedQuery_constructor path query :
  safe (NestedQuery_constructor path query).
Proof. unfold NestedQuery_constructor. safe_auto. Qed.

Lemma safe_DisMaxQuery_constructor queries :
  safe (DisMaxQuery_constructor queries).
Proof. unfold DisMaxQuery_constructor. safe_auto. Qed.

Lemma safe_BoostingQuery_constructor p n b :
  safe (BoostingQuery_constructor p n b).
Proof. unfold BoostingQuery_constructor. safe_auto. Qed.

#[local] Hint Resolve safe_BoolQuery_constructor safe_TermQuery_constructor
  safe_RangeQuery_constructor safe_NestedQuery_constructor
  safe_DisMaxQuery_constructor safe_BoostingQuery_constructor : safe.

Lemma safe_BoolQuery_clone this body md : safe (BoolQuery_clone this body md).
Proof. unfold BoolQuery_clone. safe_auto. Qed.

Lemma safe_TermQuery_clone this body md : safe (TermQuery_clone this body md).
Proof. unfold TermQuery_clone, TermQuery_constructor. safe_auto. Qed.

Lemma safe_RangeQuery_clone this body md : safe (RangeQuery_clone this body md).
Proof. unfold RangeQuery_clone, RangeQuery_constructor. safe_auto. Qed.

Lemma safe_NestedQuery_clone this body md : safe (NestedQuery_clone this body md).
Proof. unfold NestedQuery_clone. safe_auto. Qed.

Lemma safe_DisMaxQuery_clone this body md : safe (DisMaxQuery_clone this body md).
Proof. unfold DisMaxQuery_clone. safe_auto. Qed.

Lemma safe_BoostingQuery_clone this body md :
  safe (BoostingQuery_clone this body md).
Proof. unfold BoostingQuery_clone. safe_auto. Qed.

#[local] Hint Resolve safe_BoolQuery_clone safe_TermQuery_clone
  safe_RangeQuery_clone safe_NestedQuery_clone safe_DisMaxQuery_clone
  safe_BoostingQuery_clone : safe.

Lemma safe_clone this body md : safe (clone this body md).
Proof. unfold clone. safe_auto. Qed.

#[local] Hint Resolve safe_clone : safe.

Lemma safe__createNew this body op : safe (_createNew this body op).
Proof. unfold _createNew. safe_auto. Qed.

#[local] Hint Resolve safe__createNew : safe.

(** Every mutator lets the world evolve: it constructs instances and
    touches none that was there, whether it returns or throws. *)
Lemma safe_invoke this c : safe (invoke this c).
Proof.
  destruct c; simpl;
    unfold BoolQuery_must, BoolQuery_should, BoolQuery_filter, BoolQuery_mustNot,
      BoolQuery_add_clause, BoolQuery_minimumShouldMatch, BoolQuery_boost,
      TermQuery_boost, TermQuery_caseInsensitive, TermQuery_set_option,
      RangeQuery_gte, RangeQuery_gt, RangeQuery_lte, RangeQuery_lt,
      RangeQuery_boost, RangeQuery_format, RangeQuery_timeZone,
      RangeQuery_relation, RangeQuery_set, RangeQuery_between,
      NestedQuery_path, NestedQuery_query, NestedQuery_scoreMode,
      NestedQuery_boost, NestedQuery_ignoreUnmapped, NestedQuery_innerHits,
      DisMaxQuery_queries, DisMaxQuery_query, DisMaxQuery_addQueries,
      DisMaxQuery_tieBreaker, DisMaxQuery_boost, BoostingQuery_positive,
      BoostingQuery_negative, BoostingQuery_set_query,
      BoostingQuery_negativeBoost, set_option;
    safe_auto.
Qed.

(** *** Fresh results *)

Lemma fresh_bind {A} (P : world -> Prop) (m : M A) (k : A -> M ref) :
  (forall w w', evolves w w' -> P w -> P w') ->
  safe m -> (forall a, fresh P (k a)) -> fresh P (bind m k).
Proof.
  intros HP Hm Hk w r w' Hw Hrun.
  apply bind_ok_inv in Hrun as (a & w1 & H1 & H2).
  pose proof (Hm w) as Hev. unfold after in Hev. rewrite H1 in Hev. simpl in Hev.
  pose proof (Hk a w1 r w' (HP _ _ Hev Hw) H2).
  apply evolves_length in Hev. lia.
Qed.

Lemma fresh_throw P e : fresh P (throw e).
Proof. intros w r w' _ H. discriminate. Qed.

Lemma fresh_weaken (P : world -> Prop) m : fresh (fun _ => True) m -> fresh P m.
Proof. intros H w r w' _ Hrun. now apply (H w r w'). Qed.

Lemma fresh_Query_constructor P c body : fresh P (Query_constructor c body None).
Proof.
  intros w r w' _. rewrite Query_constructor_run. intros [= <- <-]. simpl.
  rewrite length_app. simpl. lia.
Qed.

Lemma fresh_overwrite P c body b' :
  fresh P (let* r := Query_constructor c body None in
           let* _ := set_body r b' in
           ret r).
Proof.
  intros w r w' _. rewrite overwrite_run. intros [= <- <-]. simpl.
  rewrite length_app. simpl. lia.
Qed.

Ltac fresh_step :=
  cbv beta zeta;
  match goal with
  | |- fresh _ (bind (Query_constructor _ _ None) (fun r => bind (set_body r _) _)) =>
      apply fresh_overwrite
  | |- fresh _ (Query_constructor _ _ None) => apply fresh_Query_constructor
  | |- fresh _ (throw _) => apply fresh_throw
  | |- fresh _ (bind _ _) =>
      apply fresh_bind;
      [ first [ now intros ? ? ? ? | intros ? ? ? ?; eapply is_variant_evolves; eassumption ]
      | solve [safe_auto]
      | intros ? ]
  | |- fresh _ (match ?x with _ => _ end) => destruct x
  | |- fresh ?P ?m => solve [eauto | apply fresh_weaken; eauto]
  end.

Ltac fresh_auto := repeat fresh_step.

Lemma fresh_BoolQuery_clone this body md :
  fresh (fun _ => True) (BoolQuery_clone this body md).
Proof. unfold BoolQuery_clone, BoolQuery_constructor. fresh_auto. Qed.

Lemma fresh_TermQuery_clone this body md :
  fresh (fun _ => True) (TermQuery_clone this body md).
Proof. unfold TermQuery_clone, TermQuery_constructor. fresh_auto. Qed.

Lemma fresh_RangeQuery_clone this body md :
  fresh (fun _ => True) (RangeQuery_clone this body md).
Proof. unfold RangeQuery_clone, RangeQuery_constructor. fresh_auto. Qed.

Lemma fresh_NestedQuery_clone this body md :
  fresh (fun _ => True) (NestedQuery_clone this body md).
Proof. unfold NestedQuery_clone, NestedQuery_constructor. fresh_auto. Qed.

Lemma fresh_DisMaxQuery_clone this body md :
  fresh (fun _ => True) (DisMaxQuery_clone this body md).
Proof. unfold DisMaxQuery_clone, DisMaxQuery_constructor. fresh_auto. Qed.

Lemma fresh_BoostingQuery_clone this body md :
  fresh (fun _ => True) (BoostingQuery_clone this body md).
Proof. unfold BoostingQuery_clone, BoostingQuery_constructor. fresh_auto. Qed.

Lemma fresh_clone this body md : fresh (is_variant this) (clone this body md).
Proof.
  intros w r w' (inst & Hl & Hc) Hrun.
  unfold clone in Hrun. unfold bind at 1, deref in Hrun. rewrite Hl in Hrun.
  destruct (cls inst) eqn:E.
  - now apply (fresh_BoolQuery_clone this body md w r w').
  - now apply (fresh_TermQuery_clone this body md w r w').
  - now apply (fresh_RangeQuery_clone this body md w r w').
  - now apply (fresh_NestedQuery_clone this body md w r w').
  - now apply (fresh_DisMaxQuery_clone this body md w r w').
  - now apply (fresh_BoostingQuery_clone this body md w r w').
  - now destruct (Hc captured).
Qed.

Lemma fresh__createNew this body op :
  fresh (is_variant this) (_createNew this body op).
Proof.
  intros w r w' Hv Hrun. unfold _createNew in Hrun.
  destruct Hv as (inst & Hl & Hc).
  unfold bind at 1, deref in Hrun. rewrite Hl in Hrun.
  eapply fresh_clone; [|eassumption].
  exists inst. auto.
Qed.

(** The instance a mutator returns was constructed during the call. *)
Lemma fresh_invoke this c : fresh (is_variant this) (invoke this c).
Proof.
  pose proof (fresh__createNew this) as Hnew.
  destruct c; simpl;
    unfold BoolQuery_must, BoolQuery_should, BoolQuery_filter, BoolQuery_mustNot,
      BoolQuery_add_clause, BoolQuery_minimumShouldMatch, BoolQuery_boost,
      TermQuery_boost, TermQuery_caseInsensitive, TermQuery_set_option,
      RangeQuery_gte, RangeQuery_gt, RangeQuery_lte, RangeQuery_lt,
      RangeQuery_boost, RangeQuery_format, RangeQuery_timeZone,
      RangeQuery_relation, RangeQuery_set, RangeQuery_between,
      NestedQuery_path, NestedQuery_query, NestedQuery_scoreMode,
      NestedQuery_boost, NestedQuery_ignoreUnmapped, NestedQuery_innerHits,
      DisMaxQuery_queries, DisMaxQuery_query, DisMaxQuery_addQueries,
      DisMaxQuery_tieBreaker, DisMaxQuery_boost, BoostingQuery_positive,
      BoostingQuery_negative, BoostingQuery_set_query,
      BoostingQuery_negativeBoost, set_option;
    fresh_auto.
Qed.

(** ** Identifiers *)

Lemma to_uint_nonnil n : Nat.to_uint n <> Decimal.Nil.
Proof.
  rewrite <- (DecimalNat.Unsigned.of_to n) at 1.
  rewrite DecimalNat.Unsigned.to_of. apply DecimalFacts.unorm_nonnil.
Qed.

Lemma nat_to_string_digits n :
  nat_to_string n = NilEmpty.string_of_uint (Nat.to_uint n).
Proof.
  unfold nat_to_string, NilZero.string_of_uint.
  pose proof (to_uint_nonnil n). now destruct (Nat.to_uint n).
Qed.

(** A run of digits ends at the first underscore. *)
Lemma digits_until_underscore d d' r r' :
  (NilEmpty.string_of_uint d ++ String "_" r =
   NilEmpty.string_of_uint d' ++ String "_" r')%string ->
  d = d'.
Proof.
  revert d'. induction d; destruct d'; simpl; intros H;
    try discriminate; try reflexivity;
    injection H as H; f_equal; now apply IHd.
Qed.

Lemma id_string_inj n t n' t' : id_string n t = id_string n' t' -> n = n'.
Proof.
  unfold id_string. rewrite !nat_to_string_digits. simpl.
  intros H. injection H as H.
  apply digits_until_underscore in H.
  now apply DecimalNat.Unsigned.to_uint_inj.
Qed.

(** ** Keys and objects *)

Lemma eqb_proto k : k <> "__proto__" -> String.eqb k "__proto__" = false.
Proof. intros H. now apply String.eqb_neq. Qed.

Lemma assign_define k v ps : k <> "__proto__" -> assign k v ps = define k v ps.
Proof. intros H. unfold assign. now rewrite eqb_proto. Qed.

Lemma before_irrefl k : before k k = false.
Proof.
  unfold before. destruct (key_index k); [|reflexivity]. apply Nat.ltb_irrefl.
Qed.

(** A new key that belongs after every key of [ps] goes to the end. *)
Lemma define_last k v ps :
  lookup_prop k ps = None ->
  Forall (fun kv => before k (fst kv) = false) ps ->
  define k v ps = ps ++ [(k, v)].
Proof.
  induction ps as [|[k' v'] ps IH]; simpl; intros Hl Hb; [reflexivity|].
  destruct (String.eqb k k'); [discriminate|].
  apply Forall_cons_1 in Hb as [Hb1 Hb2]. simpl in Hb1. rewrite Hb1.
  f_equal. now apply IH.
Qed.

Lemma ordered_app_inv acc k v rest :
  ordered (acc ++ (k, v) :: rest) ->
  k <> "__proto__" /\ lookup_prop k acc = None /\
  Forall (fun kv => before k (fst kv) = false) acc /\
  ordered (acc ++ [(k, v)]).
Proof.
  induction acc as [|[k0 v0] acc IH]; simpl.
  - intros (Hp & _ & _). repeat split; auto.
  - intros (Hp0 & Hall & Hord).
    destruct (IH Hord) as (Hp & Hl & Hb & Ho).
    apply Forall_app in Hall as [Hacc Hkr].
    apply Forall_cons_1 in Hkr as [[Hne Hbk] _]. simpl in Hne, Hbk.
    repeat split; auto.
    + apply String.eqb_neq in Hne. now rewrite Hne.
    + apply Forall_app. split; [assumption|]. repeat constructor; assumption.
Qed.

Lemma ordered_app_l acc rest : ordered (acc ++ rest) -> ordered acc.
Proof.
  induction acc as [|[k0 v0] acc IH]; simpl; [easy|].
  intros (Hp0 & Hall & Hord). apply Forall_app in Hall as [Hacc _].
  auto.
Qed.

(** The order [before] on three keys: what is ahead of a key is ahead of
    whatever may follow that key. *)
Lemma before_false_trans k k' y :
  before k k' = true -> before y k' = false -> y <> k -> before y k = false.
Proof.
  unfold before.
  destruct (key_index k) as [i|] eqn:Ek; [|discriminate].
  destruct (key_index y) as [j|] eqn:Ey; [|reflexivity].
  destruct (key_index k') as [i'|] eqn:Ek'; [|discriminate].
  intros H1 H2 _. apply Nat.ltb_lt in H1. apply Nat.ltb_ge in H2.
  apply Nat.ltb_ge. lia.
Qed.

Lemma before_asym k k' : before k k' = true -> before k' k = false.
Proof.
  unfold before.
  destruct (key_index k) as [i|]; [|discriminate].
  destruct (key_index k') as [i'|]; [|reflexivity].
  intros H. apply Nat.ltb_lt in H. apply Nat.ltb_ge. lia.
Qed.

Lemma define_In k v ps kv :
  In kv (define k v ps) -> kv = (k, v) \/ In kv ps.
Proof.
  induction ps as [|[k' v'] ps IH]; simpl.
  - intros [<-|[]]. now left.
  - destruct (String.eqb k k'); [|destruct (before k k')]; simpl.
    + intros [<-|H]; auto.
    + intros [<-|[<-|H]]; auto.
    + intros [<-|H]; auto. destruct (IH H); auto.
Qed.

(** [define] keeps an object ordered. *)
Lemma define_ordered k v ps :
  k <> "__proto__" -> ordered ps -> ordered (define k v ps).
Proof.
  intros Hk. induction ps as [|[k' v'] ps IH]; simpl.
  - intros _. repeat split; auto.
  - intros (Hp & Hall & Hord).
    destruct (String.eqb k k') eqn:E.
    + apply String.eqb_eq in E as ->. simpl. auto.
    + apply String.eqb_neq in E.
      destruct (before k k') eqn:B; simpl.
      * repeat split; auto.
        constructor.
        -- simpl. split; [congruence|]. now apply before_asym.
        -- eapply Forall_impl; [eassumption|]. intros [y vy] [Hy1 Hy2]. simpl in *.
           split.
           ++ intros ->. rewrite B in Hy2. discriminate.
           ++ apply (before_false_trans k k' y); auto.
              intros ->. rewrite B in Hy2. discriminate.
      * repeat split; auto.
        apply Forall_forall. intros kv Hin. apply list_elem_of_In in Hin.
        apply define_In in Hin as [->|Hin].
        -- simpl. auto.
        -- rewrite Forall_forall in Hall. apply Hall. now apply list_elem_of_In.
Qed.

Lemma assign_ordered k v ps : ordered ps -> ordered (assign k v ps).
Proof.
  intros H. unfold assign. destruct (String.eqb k "__proto__") eqn:E; [assumption|].
  apply define_ordered; [|assumption]. now apply String.eqb_neq.
Qed.

Lemma All_Forall {A} (P : A -> Prop) l : All P l <-> Forall P l.
Proof.
  induction l as [|x l IH]; simpl.
  - split; auto.
  - rewrite IH. split; [intros []; now constructor | intros H; now inversion H].
Qed.

Lemma define_all (P : value -> Prop) k v ps :
  P v -> All (fun kv => P (snd kv)) ps -> All (fun kv => P (snd kv)) (define k v ps).
Proof.
  intros Hv. induction ps as [|[k' v'] ps IH]; simpl; [auto|].
  intros [H1 H2].
  destruct (String.eqb k k'); [|destruct (before k k')]; simpl; auto.
Qed.

Lemma assign_all (P : value -> Prop) k v ps :
  P v -> All (fun kv => P (snd kv)) ps -> All (fun kv => P (snd kv)) (assign k v ps).
Proof.
  intros Hv Hps. unfold assign. destruct (String.eqb k "__proto__"); [assumption|].
  now apply define_all.
Qed.

(** ** [_deepClone] *)

Lemma clone_into_invariant (P : value -> Prop) f l acc :
  Forall (fun kv => P (f (snd kv))) l ->
  ordered acc -> All (fun kv => P (snd kv)) acc ->
  ordered (clone_into f l acc) /\ All (fun kv => P (snd kv)) (clone_into f l acc).
Proof.
  revert acc. induction l as [|[k v] l IH]; simpl; intros acc Hl Ho Ha; [auto|].
  apply Forall_cons_1 in Hl as [Hv Hl]. simpl in Hv.
  apply IH; [assumption | now apply assign_ordered | now apply assign_all].
Qed.

(** What [_deepClone] returns is well formed and has no frozen node. *)
Lemma _deepClone_well_formed v :
  well_formed (_deepClone v) /\ thaw (_deepClone v) = _deepClone v.
Proof.
  induction v as [| | | | | |fz items IH|fz ps IH] using value_ind';
    simpl; auto.
  - split.
    + apply All_Forall. apply Forall_map. simpl.
      eapply Forall_impl; [eassumption|]. now intros x [].
    + f_equal. rewrite <- List.map_map. rewrite List.map_map.
      induction IH as [|x l [_ Hx] _ IHl]; simpl; [reflexivity|].
      now rewrite Hx, IHl.
  - destruct (clone_into_invariant
                (fun x => well_formed x /\ thaw x = x) _deepClone ps [])
      as [Ho Ha]; simpl; auto.
    split.
    + split; [assumption|].
      apply All_Forall. apply All_Forall in Ha.
      eapply Forall_impl; [eassumption|]. now intros kv [].
    + f_equal. apply All_Forall in Ha. clear Ho IH.
      induction Ha as [|[k x] l [_ Hx] _ IHl]; simpl; [reflexivity|].
      simpl in Hx. rewrite Hx. f_equal. exact IHl.
Qed.

Lemma clone_into_ordered f acc l :
  ordered (acc ++ l) ->
  clone_into f l acc = acc ++ map (fun kv => (fst kv, f (snd kv))) l.
Proof.
  revert acc. induction l as [|[k v] l IH]; simpl; intros acc Ho.
  - now rewrite app_nil_r.
  - destruct (ordered_app_inv _ _ _ _ Ho) as (Hp & Hl & Hb & Ho').
    rewrite assign_define by assumption.
    rewrite define_last by assumption.
    rewrite IH.
    + now rewrite <- app_assoc.
    + rewrite <- app_assoc. simpl.
      clear - Ho. revert Ho. induction acc as [|[k0 v0] acc IHa]; simpl.
      * intros (? & ? & ?). repeat split; auto.
      * intros (Hp0 & Hall & Hord). repeat split; auto.
        rewrite Forall_app in *. destruct Hall as [H1 H2]. split; [assumption|].
        apply Forall_cons_1 in H2 as [H2 H3]. constructor; assumption.
Qed.

(** On a well-formed value [_deepClone] rebuilds the same tree, every
    node of it new. *)
Lemma _deepClone_thaw v : well_formed v -> _deepClone v = thaw v.
Proof.
  induction v as [| | | | | |fz items IH|fz ps IH] using value_ind';
    simpl; auto.
  - intros Hall. f_equal. apply All_Forall in Hall.
    induction IH as [|x l Hx _ IHl]; simpl; [reflexivity|].
    apply Forall_cons_1 in Hall as [H1 H2]. now rewrite Hx, IHl.
  - intros [Ho Hall]. f_equal.
    rewrite (clone_into_ordered _deepClone [] ps) by assumption. simpl.
    apply All_Forall in Hall.
    induction IH as [|[k x] l Hx _ IHl]; simpl; [reflexivity|].
    apply Forall_cons_1 in Hall as [H1 H2]. simpl in *.
    rewrite Hx by assumption. f_equal. apply IHl; [|assumption].
    destruct Ho as (_ & _ & Ho). assumption.
Qed.

Lemma _deepClone_idempotent v : _deepClone (_deepClone v) = _deepClone v.
Proof.
  destruct (_deepClone_well_formed v) as [Hw Ht].
  now rewrite _deepClone_thaw.
Qed.

Lemma _deepClone_freeze v : _deepClone (Object_freeze v) = _deepClone v.
Proof. now destruct v. Qed.

Lemma _deepClone_scalar v : is_scalar v = true -> _deepClone v = v.
Proof. now destruct v. Qed.

(** ** What every mutator does to the store *)

Lemma well_typed_is_variant w this c : well_typed w this c -> is_variant this w.
Proof.
  intros (inst & Hl & Hc). exists inst. split; [assumption|].
  intros j. rewrite Hc. now destruct c.
Qed.

Lemma invoke_evolves this c w o w' : invoke this c w = (o, w') -> evolves w w'.
Proof.
  intros H. pose proof (safe_invoke this c w) as Hs. unfold after in Hs.
  now rewrite H in Hs.
Qed.

Lemma toJSON_reads_instance this w :
  toJSON this w =
    match heap w !! this with
    | Some inst =>
        (Ok (match cls inst with
             | Anonymous captured => captured
             | _ => _deepClone (_body inst)
             end), w)
    | None => (Throw Dangling, w)
    end.
Proof.
  unfold toJSON, bind, deref. destruct (heap w !! this) as [inst|]; [|reflexivity].
  now destruct (cls inst).
Qed.

Lemma toJSON_evolves this w w' inst :
  evolves w w' -> heap w !! this = Some inst ->
  result (toJSON this) w' = result (toJSON this) w.
Proof.
  intros Hev Hl. unfold result. rewrite !toJSON_reads_instance.
  now rewrite (evolves_lookup _ _ _ _ Hev Hl), Hl.
Qed.

Lemma Query_id_reads_instance this w :
  Query_id this w =
    match heap w !! this with
    | Some inst => (Ok (qid (_metadata inst)), w)
    | None => (Throw Dangling, w)
    end.
Proof.
  unfold Query_id, bind, deref. now destruct (heap w !! this).
Qed.

(** The instance a mutator returns: constructed during the call, with a
    generated id newer than every id in use, an empty operation list and
    a creation time read during the call. *)
Lemma invoke_result w q c q' w' :
  well_typed w q c ->
  invoke q c w = (Ok q', w') ->
  length (heap w) <= q' /\
  exists inst',
    heap w' !! q' = Some inst' /\
    (exists n t, qid (_metadata inst') = id_string n t /\
                 queryIdCounter w < n <= queryIdCounter w') /\
    operations (_metadata inst') = [] /\
    (exists k, reads w <= k < reads w' /\ created (_metadata inst') = now w k) /\
    (exists x, _body inst' = Object_freeze (_deepClone x)).
Proof.
  intros Hty Hrun.
  pose proof (invoke_evolves _ _ _ _ _ Hrun) as Hev.
  destruct (fresh_invoke q c w q' w' (well_typed_is_variant _ _ _ Hty) Hrun)
    as [Hlo Hhi].
  split; [assumption|].
  destruct (lookup_lt_is_Some_2 _ _ Hhi) as [inst' Hl'].
  exists inst'. split; [assumption|].
  apply (ev_added _ _ Hev q' inst' Hlo Hl').
Qed.

(** ** Identity and frame of the mutators *)

(** C3.  For every instance [q] of the six variants and every mutator
    call on it: the receiver serializes after the call as it did before,
    whether the call returns or throws, and the instance a call returns is
    another instance than [q] (another reference, another id). *)
Theorem mutator_returns_new_instance_and_keeps_receiver :
  forall w q c o w',
    ids_bounded w ->
    well_typed w q c ->
    invoke q c w = (o, w') ->
    result (toJSON q) w' = result (toJSON q) w /\
    heap w' !! q = heap w !! q /\
    forall q', o = Ok q' ->
      q' <> q /\
      exists i i',
        result (Query_id q) w' = Ok i /\
        result (Query_id q') w' = Ok i' /\
        i' <> i.
Proof.
  intros w q c o w' Hids Hty Hrun.
  pose proof (invoke_evolves _ _ _ _ _ Hrun) as Hev.
  destruct Hty as (inst & Hl & Hc).
  pose proof (evolves_lookup _ _ _ _ Hev Hl) as Hl'.
  split; [eapply toJSON_evolves; eassumption|].
  split; [congruence|].
  intros q' ->.
  destruct (invoke_result w q c q' w' ltac:(exists inst; auto) Hrun)
    as (Hlo & inst' & Hq' & (n & t & Hid & Hn) & _).
  apply lookup_lt_Some in Hl as Hlt.
  split; [lia|].
  exists (qid (_metadata inst)), (qid (_metadata inst')).
  unfold result. rewrite !Query_id_reads_instance, Hl', Hq'. simpl.
  repeat split.
  destruct (Hids q inst Hl) as (n0 & t0 & Hid0 & Hn0).
  rewrite Hid, Hid0. intros Heq. apply id_string_inj in Heq. lia.
Qed.

Lemma run_pair {A} (m : M A) w : m w = (result m w, after m w).
Proof. unfold result, after. now destruct (m w). Qed.

Lemma sample_term_world_ids_bounded : ids_bounded sample_term_world.
Proof.
  eapply evolves_ids_bounded; [apply safe_TermQuery_constructor|].
  apply ids_bounded_initial.
Qed.

Lemma mutator_returns_new_instance_and_keeps_receiver_witness :
  result (toJSON 0) (after (invoke 0 (Term_boost (num_of_Z 2))) sample_term_world)
    = result (toJSON 0) sample_term_world /\
  heap (after (invoke 0 (Term_boost (num_of_Z 2))) sample_term_world) !! 0
    = heap sample_term_world !! 0 /\
  forall q',
    result (invoke 0 (Term_boost (num_of_Z 2))) sample_term_world = Ok q' ->
    q' <> 0 /\
    exists i i',
      result (Query_id 0)
        (after (invoke 0 (Term_boost (num_of_Z 2))) sample_term_world) = Ok i /\
      result (Query_id q')
        (after (invoke 0 (Term_boost (num_of_Z 2))) sample_term_world) = Ok i' /\
      i' <> i.
Proof.
  apply (mutator_returns_new_instance_and_keeps_receiver
           sample_term_world 0 (Term_boost (num_of_Z 2))).
  - apply sample_term_world_ids_bounded.
  - eexists. split; [vm_compute; reflexivity | reflexivity].
  - apply run_pair.
Defined.


(** ** Symbolic runs

    [exec] runs a program of the monad on a symbolic world: it unfolds the
    methods, reduces, and resolves the reads of the store from the facts at
    hand. *)

Ltac unfold_all :=
  unfold BoolQuery_clone, TermQuery_clone, RangeQuery_clone, NestedQuery_clone,
    DisMaxQuery_clone, BoostingQuery_clone,
    BoolQuery_constructor, TermQuery_constructor, RangeQuery_constructor,
    NestedQuery_constructor, DisMaxQuery_constructor, BoostingQuery_constructor,
    Query_constructor,
    _recordOperation, _serializeArgs, generateOperationId, generateId,
    this_body, _createNew, clone, toJSON, Query_id, metadata, merged_body,
    instanceof, RangeQuery_hasBounds, RangeQuery_getBounds, BoolQuery_isEmpty,
    bind, try_catch, deref, lift, ret, throw, Date_now, Math_random_base36,
    increment_counter, allocate, set_body, assign.

Ltac exec_step Hl :=
  first [ progress unfold_all
        | progress simpl
        | rewrite Hl
        | rewrite list_lookup_middle by reflexivity
        | rewrite insert_app_r_alt by (simpl; lia)
        | rewrite Nat.sub_diag
        | rewrite eqb_proto by assumption ].

Ltac exec_with Hl := repeat exec_step Hl.

Ltac crunch :=
  repeat first [ progress simpl
               | progress unfold assign
               | rewrite eqb_proto by assumption
               | match goal with
                 | H : is_scalar ?v = true |- context [_deepClone ?v] =>
                     rewrite (_deepClone_scalar v H)
                 end ].
Ltac exec := let H := fresh in assert (True) as H by exact I; exec_with H; clear H.

Lemma TermQuery_constructor_run field v w :
  field <> "__proto__" ->
  exists w' md,
    TermQuery_constructor field v w = (Ok (length (heap w)), w') /\
    heap w' !! length (heap w) =
      Some (mkInstance TermQuery
              (VObj true [("term", VObj false [(field, _deepClone v)])]) md).
Proof.
  intros Hf. exec. 
  do 2 eexists. split; [reflexivity|]. exec. reflexivity.
Qed.

Lemma TermQuery_set_option_run name key this v w fz fz' field cv md :
  heap w !! this =
    Some (mkInstance TermQuery (VObj fz [("term", VObj fz' [(field, cv)])]) md) ->
  field <> "__proto__" ->
  exists w' md',
    TermQuery_set_option name key this v w = (Ok (length (heap w)), w') /\
    heap w' !! length (heap w) =
      Some (mkInstance TermQuery
              (VObj true
                 [("term",
                   VObj false
                     [(field,
                       _deepClone
                         (if is_object cv
                          then obj (define key v (spread cv []))
                          else obj [("value", cv); (key, v)]))])])
              md').
Proof.
  intros Hl Hf.
  unfold TermQuery_set_option.
  exec_with Hl.
  do 2 eexists. split; [reflexivity|]. exec_with Hl. reflexivity.
Qed.

Lemma toJSON_run this w inst :
  heap w !! this = Some inst -> (forall j, cls inst <> Anonymous j) ->
  toJSON this w = (Ok (_deepClone (_body inst)), w).
Proof.
  intros Hl Hc. rewrite toJSON_reads_instance, Hl.
  destruct (cls inst) eqn:E; try reflexivity. now destruct (Hc captured).
Qed.

Lemma TermQuery_serializes_shorthand field v w q w1 :
  is_scalar v = true ->
  Q_term field v w = (Ok q, w1) ->
  (result (toJSON q) w1 = Ok (obj [("term", obj [(field, v)])]) <->
   field <> "__proto__").
Proof.
  intros Hs Hrun. unfold Q_term, TermQuery_constructor in Hrun.
  rewrite Query_constructor_run in Hrun. injection Hrun as <- <-.
  unfold result. rewrite toJSON_reads_instance. simpl.
  rewrite list_lookup_middle by reflexivity. simpl.
  destruct (String.string_dec field "__proto__") as [->|Hf].
  - simpl. split; [discriminate | congruence].
  - crunch. unfold obj. split; [auto | reflexivity].
Qed.

(** C6.  A term query built with a scalar value, serializing as
    [{term: {field: value}}]: [boost(b)] yields the expanded object
    [{value, boost}], and [caseInsensitive] on that instance merges into it,
    keeping the value and the boost; the same holds with the two mutators
    in the other order. *)
Theorem term_shorthand_promotion :
  forall w field v b ci q w1,
    is_scalar v = true ->
    Q_term field v w = (Ok q, w1) ->
    result (toJSON q) w1 = Ok (obj [("term", obj [(field, v)])]) ->
    (exists q1 w2 q2 w3,
        TermQuery_boost q b w1 = (Ok q1, w2) /\
        result (toJSON q1) w2 =
          Ok (obj [("term", obj [(field, obj [("value", v); ("boost", VNum b)])])]) /\
        TermQuery_caseInsensitive q1 ci w2 = (Ok q2, w3) /\
        result (toJSON q2) w3 =
          Ok (obj [("term",
                    obj [(field,
                          obj [("value", v); ("boost", VNum b);
                               ("case_insensitive", VBool (default true ci))])])])) /\
    (exists q1 w2 q2 w3,
        TermQuery_caseInsensitive q ci w1 = (Ok q1, w2) /\
        result (toJSON q1) w2 =
          Ok (obj [("term",
                    obj [(field,
                          obj [("value", v);
                               ("case_insensitive", VBool (default true ci))])])]) /\
        TermQuery_boost q1 b w2 = (Ok q2, w3) /\
        result (toJSON q2) w3 =
          Ok (obj [("term",
                    obj [(field,
                          obj [("value", v);
                               ("case_insensitive", VBool (default true ci));
                               ("boost", VNum b)])])])).
Proof.
  intros w field v b ci q w1 Hs Hrun Hjson.
  apply (TermQuery_serializes_shorthand field v w q w1 Hs Hrun) in Hjson as Hf.
  destruct (TermQuery_constructor_run field v w Hf) as (w1' & md & Hrun' & Hq).
  unfold Q_term in Hrun. rewrite Hrun' in Hrun. injection Hrun as <- <-.
  rewrite (_deepClone_scalar v Hs) in Hq.
  assert (is_object v = false) as Hobj by (now destruct v).
  split.
  - destruct (TermQuery_set_option_run "boost" "boost" _ (VNum b) _ _ _ _ _ _ Hq Hf)
      as (w2 & md1 & Hrun1 & Hq1).
    rewrite Hobj in Hq1. simpl in Hq1. rewrite (_deepClone_scalar v Hs) in Hq1.
    destruct (TermQuery_set_option_run "caseInsensitive" "case_insensitive" _
                (VBool (default true ci)) _ _ _ _ _ _ Hq1 Hf)
      as (w3 & md2 & Hrun2 & Hq2).
    simpl in Hq2. rewrite (_deepClone_scalar v Hs) in Hq2.
    exists (length (heap w1')), w2, (length (heap w2)), w3.
    unfold TermQuery_boost, TermQuery_caseInsensitive, result.
    rewrite Hrun1, Hrun2.
    rewrite (toJSON_run _ _ _ Hq1) by discriminate.
    rewrite (toJSON_run _ _ _ Hq2) by discriminate.
    crunch. auto.
  - destruct (TermQuery_set_option_run "caseInsensitive" "case_insensitive" _
                (VBool (default true ci)) _ _ _ _ _ _ Hq Hf)
      as (w2 & md1 & Hrun1 & Hq1).
    rewrite Hobj in Hq1. simpl in Hq1. rewrite (_deepClone_scalar v Hs) in Hq1.
    destruct (TermQuery_set_option_run "boost" "boost" _ (VNum b) _ _ _ _ _ _ Hq1 Hf)
      as (w3 & md2 & Hrun2 & Hq2).
    simpl in Hq2. rewrite (_deepClone_scalar v Hs) in Hq2.
    exists (length (heap w1')), w2, (length (heap w2)), w3.
    unfold TermQuery_boost, TermQuery_caseInsensitive, result.
    rewrite Hrun1, Hrun2.
    rewrite (toJSON_run _ _ _ Hq1) by discriminate.
    rewrite (toJSON_run _ _ _ Hq2) by discriminate.
    crunch. auto.
Qed.

Lemma term_shorthand_promotion_witness :
  (exists q1 w2 q2 w3,
      TermQuery_boost 0 (Finite (3 # 2)) sample_term_world = (Ok q1, w2) /\
      result (toJSON q1) w2 =
        Ok (obj [("term",
                  obj [("price",
                        obj [("value", VNum (num_of_Z 100));
                             ("boost", VNum (Finite (3 # 2)))])])]) /\
      TermQuery_caseInsensitive q1 None w2 = (Ok q2, w3) /\
      result (toJSON q2) w3 =
        Ok (obj [("term",
                  obj [("price",
                        obj [("value", VNum (num_of_Z 100));
                             ("boost", VNum (Finite (3 # 2)));
                             ("case_insensitive", VBool (default true None))])])])) /\
  (exists q1 w2 q2 w3,
      TermQuery_caseInsensitive 0 None sample_term_world = (Ok q1, w2) /\
      result (toJSON q1) w2 =
        Ok (obj [("term",
                  obj [("price",
                        obj [("value", VNum (num_of_Z 100));
                             ("case_insensitive", VBool (default true None))])])]) /\
      TermQuery_boost q1 (Finite (3 # 2)) w2 = (Ok q2, w3) /\
      result (toJSON q2) w3 =
        Ok (obj [("term",
                  obj [("price",
                        obj [("value", VNum (num_of_Z 100));
                             ("case_insensitive", VBool (default true None));
                             ("boost", VNum (Finite (3 # 2)))])])])).
Proof.
  apply (term_shorthand_promotion sample_world "price" (VNum (num_of_Z 100))
           (Finite (3 # 2)) None 0 sample_term_world).
  - reflexivity.
  - apply run_pair.
  - vm_compute. reflexivity.
Defined.

(** ** Conditional application *)

(** C8.  [when] with a falsy condition returns the receiver itself (the
    same reference; nothing is constructed, the world is as it was) and
    with a truthy condition returns what [fn] returns for the receiver;
    [unless] does the same with the condition negated. *)
Theorem when_unless_return_receiver_or_apply :
  forall (q : ref) (condition : value) (fn : ref -> M ref) (w : world),
    (truthy condition = false ->
       when q condition fn w = (Ok q, w) /\ unless q condition fn w = fn q w) /\
    (truthy condition = true ->
       when q condition fn w = fn q w /\ unless q condition fn w = (Ok q, w)).
Proof.
  intros q condition fn w. unfold when, unless.
  split; intros ->; split; reflexivity.
Qed.

(** The falsy values of JavaScript. *)
Lemma falsy_values :
  truthy (VBool false) = false /\ truthy (VNum zero) = false /\
  truthy (VNum NaN) = false /\ truthy (VStr "") = false /\
  truthy VNull = false /\ truthy VUndefined = false.
Proof. repeat split. Qed.

(** ** The factory's [exists] *)





(** ** Where the code departs from its contract *)

(** C1.  [NestedQuery.clone] rebuilds the instance from [path] and the
    receiver's own [query], and [DisMaxQuery.clone] from the receiver's own
    [queries]: the body that [boost] and [query] hand to [_createNew] is
    dropped.  The nested query returned by [boost(2)] serializes without
    [boost], the dis-max query returned by [query(r)] with the queries it
    had. *)
Theorem nested_boost_and_dis_max_query_are_dropped :
  forall clock gen,
    result nested_boost_scenario (initial clock gen) =
      Ok (obj [("nested",
                obj [("path", VStr "user");
                     ("query", obj [("term", obj [("name", VStr "kim")])])])],
          VUndefined) /\
    result dis_max_query_scenario (initial clock gen) = Ok (arr []).
Proof. intros clock gen. split; reflexivity. Qed.

(** C2.  Every [clone] ignores the metadata that [_createNew] passes: the
    instance a mutator returns has an empty operation list, not the
    receiver's list with the new record appended. *)
Theorem bool_boost_leaves_the_log_empty :
  forall clock gen,
    result bool_boost_scenario (initial clock gen) = Ok ([], []).
Proof. intros clock gen. reflexivity. Qed.

(** C5.  The constructor of BoostingQuery stores the ratio it is given
    without the range check that [negativeBoost] makes: 1.5 is accepted. *)
Theorem boosting_constructor_accepts_any_ratio :
  forall clock gen,
    result boosting_scenario (initial clock gen) =
      Ok (obj [("boosting",
                obj [("positive", obj [("term", obj [("a", VNum (num_of_Z 1))])]);
                     ("negative", obj [("term", obj [("b", VNum (num_of_Z 2))])]);
                     ("negative_boost", VNum (Finite (3 # 2)))])]).
Proof. intros clock gen. reflexivity. Qed.

(** C4.  The constructor freezes the top-level object of the clone it
    stores and nothing below it: an assignment to a property of a nested
    object goes through and changes what the instance serializes. *)
Theorem nested_write_reaches_the_stored_body :
  forall clock gen,
    result nested_write_scenario (initial clock gen) =
      Ok (obj [("term", obj [("status", VStr "active")])],
          obj [("term", obj [("status", VStr "deleted")])]).
Proof. intros clock gen. reflexivity. Qed.

(** ** JSON texts *)

Lemma lexeme_eqb_eq a b : lexeme_eqb a b = true <-> a = b.
Proof.
  destruct a, b; simpl; try (split; [discriminate | congruence]);
    try (split; reflexivity).
  - destruct q as [n d], q0 as [n' d']. simpl.
    rewrite andb_true_iff, Z.eqb_eq, Pos.eqb_eq.
    split; [intros [-> ->]; reflexivity | intros [= -> ->]; auto].
  - rewrite String.eqb_eq. split; congruence.
Qed.

Lemma text_eqb_eq a b : text_eqb a b = true <-> a = b.
Proof.
  revert b. induction a as [|x a IH]; destruct b as [|y b]; simpl;
    try (split; [discriminate | congruence]); [split; reflexivity|].
  rewrite andb_true_iff, lexeme_eqb_eq, IH. split; [intros [-> ->]; reflexivity|].
  intros [= -> ->]. auto.
Qed.

Lemma same_text_eq a b : same_text a b = true <-> a = b.
Proof.
  destruct a, b; simpl; try (split; [discriminate | congruence]).
  - rewrite text_eqb_eq. split; congruence.
  - split; reflexivity.
Qed.

(** The text printed for a value is the text of what it transmits. *)
Lemma stringify_transmit iso v :
  stringify iso v = option_map print_json (transmit iso v).
Proof.
  induction v as [| |b|n|s|t|fz items IH|fz ps IH] using value_ind';
    simpl; try reflexivity.
  - now destruct b.
  - now destruct n.
  - f_equal. f_equal. generalize true.
    induction IH as [|x l Hx _ IHl]; intros first; simpl; [reflexivity|].
    rewrite Hx, IHl. now destruct (transmit iso x).
  - f_equal. f_equal. generalize true.
    induction IH as [|[k x] l Hx _ IHl]; intros first; simpl; [reflexivity|].
    simpl in Hx. rewrite Hx. destruct (transmit iso x); simpl; now rewrite IHl.
Qed.

(** A JSON text starts with a lexeme that opens a value. *)
Lemma print_json_head j : exists l tl, print_json j = l :: tl /\ opens_value l.
Proof.
  destruct j as [|[]| | | |]; simpl; eexists _, _; split; try reflexivity; exact I.
Qed.

Lemma print_json_elements_prefix_free items :
  Forall (fun a => forall b r r',
            (print_json a ++ r = print_json b ++ r')%list -> a = b /\ r = r') items ->
  forall first items' r r',
    (print_json_elements print_json items first ++ r =
     print_json_elements print_json items' first ++ r')%list ->
    items = items' /\ r = r'.
Proof.
  induction 1 as [|x l Hx _ IHl]; intros first [|y l'] r r'; simpl.
  - intros [= ->]. auto.
  - destruct (print_json_head y) as (h & tl & -> & Hh).
    destruct first; simpl; intros [= <-]; try discriminate. destruct Hh.
  - destruct (print_json_head x) as (h & tl & -> & Hh).
    destruct first; simpl; intros [= ->]; try discriminate. destruct Hh.
  - intros H.
    assert ((print_json x ++ print_json_elements print_json l false ++ r =
             print_json y ++ print_json_elements print_json l' false ++ r')%list)
      as H'.
    { destruct first; simpl in H; [|injection H as H];
        rewrite <- !app_assoc in H; exact H. }
    apply Hx in H' as [-> H'].
    apply IHl in H' as [-> ->]. auto.
Qed.

Lemma print_json_members_prefix_free ms :
  Forall (fun kj => forall b r r',
            (print_json (snd kj) ++ r = print_json b ++ r')%list ->
            snd kj = b /\ r = r') ms ->
  forall first ms' r r',
    (print_json_members print_json ms first ++ r =
     print_json_members print_json ms' first ++ r')%list ->
    ms = ms' /\ r = r'.
Proof.
  induction 1 as [|[k x] l Hx _ IHl]; intros first [|[k' y] l'] r r'; simpl.
  - intros [= ->]. auto.
  - destruct first; simpl; intros [=].
  - destruct first; simpl; intros [=].
  - intros H.
    assert (k = k' /\
            (print_json x ++ print_json_members print_json l false ++ r =
             print_json y ++ print_json_members print_json l' false ++ r')%list)
      as [-> H'].
    { destruct first; simpl in H; simplify_eq;
        rewrite <- !app_assoc in *; auto. }
    simpl in Hx. apply Hx in H' as [-> H'].
    apply IHl in H' as [-> ->]. auto.
Qed.

(** No JSON text is a proper prefix of another: the text determines the
    value and where it ends. *)
Lemma print_json_prefix_free a :
  forall b r r', (print_json a ++ r = print_json b ++ r')%list -> a = b /\ r = r'.
Proof.
  induction a as [|x|q|s|items IH|ms IH] using json_ind';
    intros b r r'.
  - destruct b as [|[]| | | |]; simpl; intros [=]; auto.
  - destruct x, b as [|[]| | | |]; simpl; intros [=]; auto.
  - destruct b as [|[]| | | |]; simpl; intros [=]; subst; auto.
  - destruct b as [|[]| | | |]; simpl; intros [=]; subst; auto.
  - destruct b as [|[]| | |items'|]; simpl; intros [=].
    apply (print_json_elements_prefix_free items IH) in H0 as [-> ->]. auto.
  - destruct b as [|[]| | | |ms']; simpl; intros [=].
    apply (print_json_members_prefix_free ms IH) in H0 as [-> ->]. auto.
Qed.

Lemma print_json_inj a b : print_json a = print_json b -> a = b.
Proof.
  intros H. apply (print_json_prefix_free a b [] []). now rewrite !app_nil_r.
Qed.

(** Two values print the same text exactly when they transmit the same
    value. *)
Lemma same_text_transmit iso a b :
  same_text (stringify iso a) (stringify iso b) = true <->
  transmit iso a = transmit iso b.
Proof.
  rewrite same_text_eq, !stringify_transmit.
  destruct (transmit iso a) as [x|], (transmit iso b) as [y|]; simpl;
    split; try discriminate; try reflexivity.
  - intros [= H]. f_equal. now apply print_json_inj.
  - now intros [= ->].
Qed.

(** ** Structural equality *)

Lemma toJSON_serialized this w :
  toJSON this w =
    match heap w !! this with
    | Some inst => (Ok (serialized inst), w)
    | None => (Throw Dangling, w)
    end.
Proof. apply toJSON_reads_instance. Qed.

Lemma toJSON_ok_inv this w j w' :
  toJSON this w = (Ok j, w') ->
  w' = w /\ exists inst, heap w !! this = Some inst /\ j = serialized inst.
Proof.
  rewrite toJSON_serialized. destruct (heap w !! this) as [inst|]; [|discriminate].
  intros [= <- <-]. eauto.
Qed.

Lemma toJSON_stable this w w1 j :
  evolves w w1 -> toJSON this w = (Ok j, w) -> toJSON this w1 = (Ok j, w1).
Proof.
  intros Hev H. apply toJSON_ok_inv in H as (_ & inst & Hl & ->).
  rewrite toJSON_serialized. now rewrite (evolves_lookup _ _ _ _ Hev Hl).
Qed.

Lemma mapM_toJSON_ok_inv qs w js w' :
  mapM toJSON qs w = (Ok js, w') -> w' = w.
Proof.
  revert js w'. induction qs as [|q qs IH]; simpl; intros js w'.
  - now intros [= <- <-].
  - intros H. apply bind_ok_inv in H as (j & w1 & H1 & H).
    apply bind_ok_inv in H as (js' & w2 & H2 & H).
    injection H as <- <-.
    apply toJSON_ok_inv in H1 as [-> _]. now apply IH in H2.
Qed.

Lemma mapM_toJSON_stable qs w w1 js :
  evolves w w1 -> mapM toJSON qs w = (Ok js, w) -> mapM toJSON qs w1 = (Ok js, w1).
Proof.
  intros Hev. revert js. induction qs as [|q qs IH]; simpl; intros js.
  - now intros [= <-].
  - intros H. apply bind_ok_inv in H as (j & w' & H1 & H).
    apply bind_ok_inv in H as (js' & w'' & H2 & H).
    injection H as <- <-.
    apply toJSON_ok_inv in H1 as H1'. destruct H1' as [-> _].
    rewrite (bind_run _ _ _ _ _ (toJSON_stable _ _ _ _ Hev H1)).
    rewrite (bind_run _ _ _ _ _ (IH _ H2)). reflexivity.
Qed.

Lemma safe_construct k : safe (construct k).
Proof.
  destruct k; simpl;
    [ apply safe_BoolQuery_constructor | apply safe_TermQuery_constructor
    | apply safe_RangeQuery_constructor | apply safe_NestedQuery_constructor
    | apply safe_DisMaxQuery_constructor | apply safe_BoostingQuery_constructor ].
Qed.

Lemma fresh_construct k : fresh (fun _ => True) (construct k).
Proof.
  destruct k; simpl;
    unfold BoolQuery_constructor, TermQuery_constructor, RangeQuery_constructor,
      NestedQuery_constructor, DisMaxQuery_constructor, BoostingQuery_constructor;
    fresh_auto.
Qed.

(** The instance a constructor call returns: its class and its body are
    determined by the call and by what the arguments serialize to. *)
Lemma construct_twice k w q1 w1 q2 w2 :
  construct k w = (Ok q1, w1) ->
  construct k w1 = (Ok q2, w2) ->
  exists i1 i2,
    heap w1 !! q1 = Some i1 /\ heap w2 !! q2 = Some i2 /\
    cls i1 = cls i2 /\ _body i1 = _body i2 /\ (forall j, cls i1 <> Anonymous j).
Proof.
  intros H1 H2.
  pose proof (safe_construct k w) as Hev. unfold after in Hev. rewrite H1 in Hev.
  simpl in Hev.
  destruct k; simpl in *.
  - unfold BoolQuery_constructor in *. rewrite Query_constructor_run in *.
    injection H1 as <- <-. injection H2 as <- <-.
    do 2 eexists. simpl. rewrite !list_lookup_middle by reflexivity.
    repeat split. discriminate.
  - unfold TermQuery_constructor in *. rewrite Query_constructor_run in *.
    injection H1 as <- <-. injection H2 as <- <-.
    do 2 eexists. simpl. rewrite !list_lookup_middle by reflexivity.
    repeat split. discriminate.
  - unfold RangeQuery_constructor in *. rewrite Query_constructor_run in *.
    injection H1 as <- <-. injection H2 as <- <-.
    do 2 eexists. simpl. rewrite !list_lookup_middle by reflexivity.
    repeat split. discriminate.
  - unfold NestedQuery_constructor in *.
    apply bind_ok_inv in H1 as (j & w' & Hj & H1).
    apply toJSON_ok_inv in Hj as Hj'. destruct Hj' as [-> _].
    rewrite (bind_run _ _ _ _ _ (toJSON_stable _ _ _ _ Hev Hj)) in H2.
    rewrite Query_constructor_run in *.
    injection H1 as <- <-. injection H2 as <- <-.
    do 2 eexists. simpl. rewrite !list_lookup_middle by reflexivity.
    repeat split. discriminate.
  - unfold DisMaxQuery_constructor in *.
    apply bind_ok_inv in H1 as (js & w' & Hj & H1).
    apply mapM_toJSON_ok_inv in Hj as Hj'. subst w'.
    rewrite (bind_run _ _ _ _ _ (mapM_toJSON_stable _ _ _ _ Hev Hj)) in H2.
    rewrite Query_constructor_run in *.
    injection H1 as <- <-. injection H2 as <- <-.
    do 2 eexists. simpl. rewrite !list_lookup_middle by reflexivity.
    repeat split. discriminate.
  - unfold BoostingQuery_constructor in *.
    apply bind_ok_inv in H1 as (p & w' & Hp & H1).
    apply toJSON_ok_inv in Hp as Hp'. destruct Hp' as [-> _].
    apply bind_ok_inv in H1 as (n & w' & Hn & H1).
    apply toJSON_ok_inv in Hn as Hn'. destruct Hn' as [-> _].
    rewrite (bind_run _ _ _ _ _ (toJSON_stable _ _ _ _ Hev Hp)) in H2.
    rewrite (bind_run _ _ _ _ _ (toJSON_stable _ _ _ _ Hev Hn)) in H2.
    rewrite Query_constructor_run in *.
    injection H1 as <- <-. injection H2 as <- <-.
    do 2 eexists. simpl. rewrite !list_lookup_middle by reflexivity.
    repeat split. discriminate.
Qed.

(** The id of an instance constructed while the world went from [w] to
    [w']. *)
Lemma added_id w w' q inst :
  evolves w w' -> length (heap w) <= q -> heap w' !! q = Some inst ->
  exists n t, qid (_metadata inst) = id_string n t /\
              queryIdCounter w < n <= queryIdCounter w'.
Proof. intros Hev Hq Hl. now destruct (ev_added _ _ Hev q inst Hq Hl). Qed.

Lemma equals_run iso a b w ia ib :
  heap w !! a = Some ia -> heap w !! b = Some ib ->
  equals iso a b w =
    (Ok (same_text (stringify iso (serialized ia)) (stringify iso (serialized ib))), w).
Proof.
  intros Ha Hb. unfold equals.
  erewrite bind_run by (rewrite toJSON_serialized, Ha; reflexivity).
  erewrite bind_run by (rewrite toJSON_serialized, Hb; reflexivity).
  reflexivity.
Qed.

(** C7, as the code has it.  [equals] answers true exactly when the two
    serialized bodies transmit the same value, the elements of arrays and
    the members of mappings both taken in order; the metadata of the two
    instances plays no role.  Two instances built by the same constructor
    call are equal in this sense and carry different ids. *)
Theorem equals_compares_transmitted_bodies_in_order :
  forall iso,
    (forall w a b ia ib,
        heap w !! a = Some ia -> heap w !! b = Some ib ->
        exists r,
          equals iso a b w = (Ok r, w) /\
          (r = true <->
           transmit iso (serialized ia) = transmit iso (serialized ib))) /\
    (forall k w q1 w1 q2 w2,
        construct k w = (Ok q1, w1) ->
        construct k w1 = (Ok q2, w2) ->
        result (equals iso q1 q2) w2 = Ok true /\
        exists i1 i2,
          result (Query_id q1) w2 = Ok i1 /\
          result (Query_id q2) w2 = Ok i2 /\
          i1 <> i2).
Proof.
  intros iso. split.
  - intros w a b ia ib Ha Hb. eexists. split; [exact (equals_run iso a b w ia ib Ha Hb)|].
    apply same_text_transmit.
  - intros k w q1 w1 q2 w2 H1 H2.
    destruct (construct_twice k w q1 w1 q2 w2 H1 H2)
      as (i1 & i2 & Hq1 & Hq2 & Hc & Hb & Hna).
    pose proof (safe_construct k w) as Hev1. unfold after in Hev1.
    rewrite H1 in Hev1. simpl in Hev1.
    pose proof (safe_construct k w1) as Hev2. unfold after in Hev2.
    rewrite H2 in Hev2. simpl in Hev2.
    pose proof (evolves_lookup _ _ _ _ Hev2 Hq1) as Hq1'.
    destruct (fresh_construct k w q1 w1 I H1) as [Hlo1 Hhi1].
    destruct (fresh_construct k w1 q2 w2 I H2) as [Hlo2 Hhi2].
    split.
    + unfold result. rewrite (equals_run iso q1 q2 w2 i1 i2 Hq1' Hq2). simpl.
      f_equal. apply same_text_eq. unfold serialized. now rewrite Hc, Hb.
    + destruct (added_id _ _ _ _ Hev1 Hlo1 Hq1) as (n1 & t1 & Hid1 & Hn1).
      destruct (added_id _ _ _ _ Hev2 Hlo2 Hq2) as (n2 & t2 & Hid2 & Hn2).
      exists (qid (_metadata i1)), (qid (_metadata i2)).
      unfold result. rewrite !Query_id_reads_instance, Hq1', Hq2. simpl.
      repeat split. rewrite Hid1, Hid2. intros Heq.
      apply id_string_inj in Heq. lia.
Qed.

(** C7, as stated, fails: the two bodies below hold the same keys with the
    same values, and [equals] answers false, because the keys were added
    in a different order. *)
Lemma equals_is_sensitive_to_key_order :
  result key_order_scenario sample_world =
    Ok (false,
        Some (JObj [("term",
                     JObj [("f",
                            JObj [("value", JStr "x"); ("boost", JNum 2);
                                  ("case_insensitive", JBool true)])])]),
        Some (JObj [("term",
                     JObj [("f",
                            JObj [("value", JStr "x");
                                  ("case_insensitive", JBool true);
                                  ("boost", JNum 2)])])])) /\
  deeply_identical
    (JObj [("term",
            JObj [("f",
                   JObj [("value", JStr "x"); ("boost", JNum 2);
                         ("case_insensitive", JBool true)])])])
    (JObj [("term",
            JObj [("f",
                   JObj [("value", JStr "x"); ("case_insensitive", JBool true);
                         ("boost", JNum 2)])])]) = true.
Proof. split; vm_compute; reflexivity. Qed.

(** ** Objects built by [define] *)

Lemma lookup_define k k' v ps :
  lookup_prop k (define k' v ps) =
    if String.eqb k k' then Some v else lookup_prop k ps.
Proof.
  induction ps as [|[k0 v0] ps IH]; simpl.
  - reflexivity.
  - destruct (String.eqb k' k0) eqn:E0; [|destruct (before k' k0)]; simpl.
    + apply String.eqb_eq in E0 as ->. now destruct (String.eqb k k0).
    + reflexivity.
    + rewrite IH. destruct (String.eqb k k0) eqn:E1; [|reflexivity].
      apply String.eqb_eq in E1 as ->.
      destruct (String.eqb k0 k') eqn:E2; [|reflexivity].
      apply String.eqb_eq in E2 as ->. rewrite String.eqb_refl in E0. discriminate.
Qed.

Lemma ordered_lookup_head k v rest : ordered ((k, v) :: rest) -> lookup_prop k rest = None.
Proof.
  simpl. intros (_ & Hall & _).
  induction rest as [|[k' v'] rest IH]; simpl; [reflexivity|].
  apply Forall_cons_1 in Hall as [[Hne _] Hall]. simpl in Hne.
  apply String.eqb_neq in Hne. rewrite String.eqb_sym in Hne. rewrite Hne. auto.
Qed.

Lemma ordered_tail kv rest : ordered (kv :: rest) -> ordered rest.
Proof. destruct kv. simpl. tauto. Qed.

Lemma ordered_no_proto ps : ordered ps -> Forall (fun kv => fst kv <> "__proto__") ps.
Proof.
  induction ps as [|[k v] ps IH]; simpl; [constructor|].
  intros (Hp & _ & Ho). constructor; auto.
Qed.

Lemma fold_define_ordered l acc :
  Forall (fun kv => fst kv <> "__proto__") l -> ordered acc ->
  ordered (fold_left (fun a kv => define (fst kv) (snd kv) a) l acc).
Proof.
  revert acc. induction l as [|[k v] l IH]; simpl; intros acc Hl Ha; [assumption|].
  apply Forall_cons_1 in Hl as [Hk Hl]. apply IH; [assumption|].
  now apply define_ordered.
Qed.

Lemma fold_define_lookup k l acc :
  ordered l ->
  lookup_prop k (fold_left (fun a kv => define (fst kv) (snd kv) a) l acc) =
    match lookup_prop k l with
    | Some v => Some v
    | None => lookup_prop k acc
    end.
Proof.
  revert acc. induction l as [|[k1 v1] l IH]; intros acc Ho; simpl; [reflexivity|].
  rewrite IH by (eapply ordered_tail; eassumption).
  rewrite lookup_define.
  destruct (String.eqb k k1) eqn:E; [|reflexivity].
  apply String.eqb_eq in E as ->.
  now rewrite (ordered_lookup_head _ _ _ Ho).
Qed.

(** Spreading an ordered object into an empty literal copies it. *)
Lemma fold_define_self l :
  ordered l -> fold_left (fun a kv => define (fst kv) (snd kv) a) l [] = l.
Proof.
  intros Ho.
  assert (forall acc, ordered (acc ++ l)%list ->
            fold_left (fun a kv => define (fst kv) (snd kv) a) l acc = (acc ++ l)%list) as H.
  { clear Ho. induction l as [|[k v] l IH]; simpl; intros acc Ho.
    - now rewrite app_nil_r.
    - destruct (ordered_app_inv _ _ _ _ Ho) as (Hp & Hl & Hb & Ho').
      rewrite define_last by assumption.
      rewrite IH; rewrite <- app_assoc; [reflexivity | exact Ho]. }
  now apply (H []).
Qed.

Lemma ordered_map_values (f : value -> value) ps :
  ordered ps -> ordered (map (fun kv => (fst kv, f (snd kv))) ps).
Proof.
  induction ps as [|[k v] ps IH]; simpl; [auto|].
  intros (Hp & Hall & Ho). repeat split; auto.
  apply Forall_map. eapply Forall_impl; [eassumption|]. now intros [k' v'].
Qed.

Lemma lookup_map_values (f : value -> value) k ps :
  lookup_prop k (map (fun kv => (fst kv, f (snd kv))) ps) =
    option_map f (lookup_prop k ps).
Proof.
  induction ps as [|[k' v'] ps IH]; simpl; [reflexivity|].
  now destruct (String.eqb k k').
Qed.

Lemma _deepClone_ordered_object fz ps :
  ordered ps ->
  _deepClone (VObj fz ps) =
    VObj false (map (fun kv => (fst kv, _deepClone (snd kv))) ps).
Proof.
  intros Ho. simpl. f_equal. now rewrite (clone_into_ordered _deepClone [] ps).
Qed.

Lemma well_formed_lookup fz ps k v :
  well_formed (VObj fz ps) -> lookup_prop k ps = Some v -> well_formed v.
Proof.
  simpl. intros [_ Hall]. induction ps as [|[k' v'] ps IH]; simpl; [discriminate|].
  destruct Hall as [H1 H2]. destruct (String.eqb k k'); [|auto].
  now intros [= <-].
Qed.

Ltac unfold_all_in H :=
  unfold BoolQuery_clone, TermQuery_clone, RangeQuery_clone, NestedQuery_clone,
    DisMaxQuery_clone, BoostingQuery_clone,
    BoolQuery_constructor, TermQuery_constructor, RangeQuery_constructor,
    NestedQuery_constructor, DisMaxQuery_constructor, BoostingQuery_constructor,
    Query_constructor,
    _recordOperation, _serializeArgs, generateOperationId, generateId,
    this_body, _createNew, clone, Query_id, metadata, merged_body,
    instanceof, RangeQuery_hasBounds, RangeQuery_getBounds, BoolQuery_isEmpty,
    bind, try_catch, deref, lift, ret, throw, Date_now, Math_random_base36,
    increment_counter, allocate, set_body, assign in H.

Ltac exec_in H Ha Hb :=
  repeat first [ progress unfold_all_in H
               | progress simpl in H
               | rewrite toJSON_reads_instance in H
               | rewrite Ha in H
               | rewrite Hb in H
               | rewrite list_lookup_middle in H by reflexivity ].

(** ** Embedding by value *)

(** The instance that a clause mutator of BoolQuery returns for a single
    sub-query [s]: its slot ends with a clone of what [s] serialized to
    when the call was made. *)
Lemma BoolQuery_add_clause_content name slot b s w c w1 ib x fz bps :
  heap w !! b = Some ib -> cls ib = BoolQuery ->
  _body ib = Object_freeze (_deepClone x) ->
  prop (_body ib) "bool" = Ok (VObj fz bps) ->
  slot <> "__proto__" ->
  BoolQuery_add_clause name slot b (One s) w = (Ok c, w1) ->
  exists j items ic R bs,
    toJSON s w = (Ok j, w) /\
    heap w1 !! c = Some ic /\
    serialized ic = VObj false R /\
    lookup_prop "bool" R = Some (VObj false bs) /\
    lookup_prop slot bs = Some (arr (items ++ [_deepClone j])).
Proof.
  intros Hb Hcls Hbody Hbool Hslot Hrun.
  (* the stored body is an ordered object that holds [bool] *)
  destruct (_deepClone_well_formed x) as [Hwf _].
  destruct (_deepClone x) as [| | | | | | |fz0 ps] eqn:Ex;
    simpl in Hbody; rewrite Hbody in Hbool; simpl in Hbool; try discriminate.
  destruct (lookup_prop "bool" ps) as [bool|] eqn:Elook; simpl in Hbool;
    [|discriminate].
  injection Hbool as ->.
  pose proof (well_formed_lookup _ _ _ _ Hwf Elook) as Hwfb.
  destruct Hwf as [Hops _]. destruct Hwfb as [Hobps _].
  (* the run *)
  unfold BoolQuery_add_clause in Hrun. simpl as_array in Hrun.
  destruct (heap w !! s) as [is_|] eqn:Hs.
  2:{ exec_in Hrun Hb Hbody. rewrite Elook in Hrun. simpl in Hrun.
      destruct (elements _); simpl in Hrun; [|discriminate].
      rewrite Hs in Hrun. discriminate. }
  exec_in Hrun Hb Hbody. rewrite Elook in Hrun. simpl in Hrun.
  destruct (elements (js_or (default VUndefined (lookup_prop slot bps)) (arr [])))
    as [old|e] eqn:Eold; simpl in Hrun; [|discriminate].
  exec_in Hrun Hs Hb. rewrite Hcls in Hrun. exec_in Hrun Hb Hbody.
  unfold_all_in Hrun. fold (serialized is_) in Hrun.
  remember (arr (old ++ [serialized is_])) as A eqn:EA.
  assert (spread (VObj fz bps) [] = bps) as Esb
    by (unfold spread; simpl; now apply fold_define_self).
  assert (spread (VObj true ps) [] = ps) as Esp
    by (unfold spread; simpl; now apply fold_define_self).
  rewrite Esb, Esp in Hrun.
  remember (obj (define slot A bps)) as X eqn:EX.
  change (spread (obj [("bool", X)]) ps) with (define "bool" X ps) in Hrun.
  remember (define "bool" X ps) as L eqn:EL.
  assert (ordered L) as HoL
    by (subst L; apply define_ordered; [discriminate | assumption]).
  remember (spread (obj L) (spread (obj [("bool", obj [])]) [])) as R0 eqn:ER0.
  assert (ordered R0) as HoR0.
  { subst R0. unfold spread. simpl. apply fold_define_ordered.
    - now apply ordered_no_proto.
    - simpl. repeat split; [discriminate | constructor]. }
  assert (lookup_prop "bool" R0 = Some X) as ElR0.
  { subst R0. unfold spread. simpl. rewrite fold_define_lookup by assumption.
    subst L. rewrite lookup_define. reflexivity. }
  assert (ordered (define slot A bps)) as HoX
    by (apply define_ordered; assumption).
  clear ER0.
  injection Hrun as <- <-.
  exists (serialized is_), (map _deepClone old).
  eexists. eexists. eexists.
  split; [rewrite toJSON_reads_instance, Hs; reflexivity|].
  simpl heap. rewrite list_lookup_middle by reflexivity.
  split; [reflexivity|].
  unfold serialized at 1. simpl cls. cbv iota. simpl _body.
  rewrite (clone_into_ordered _deepClone [] R0) by assumption. simpl app.
  rewrite _deepClone_ordered_object by (now apply ordered_map_values).
  split; [reflexivity|].
  rewrite 2!(lookup_map_values _deepClone "bool"), ElR0. simpl option_map.
  rewrite _deepClone_idempotent.
  subst X. unfold obj. rewrite _deepClone_ordered_object by assumption.
  split; [reflexivity|].
  rewrite lookup_map_values, lookup_define, String.eqb_refl. simpl option_map.
  subst A. unfold arr. simpl. now rewrite map_app.
Qed.


Lemma evolves_bodies_cloned w w' : evolves w w' -> bodies_cloned w -> bodies_cloned w'.
Proof.
  intros Hev Hb r inst Hl.
  destruct (decide (r < length (heap w))) as [Hlt | Hge].
  - destruct Hev as [[a H] _ _ _ _ _ _].
    rewrite H, lookup_app_l in Hl by assumption. eauto.
  - now destruct (ev_added _ _ Hev r inst ltac:(lia) Hl) as (_ & _ & _ & ?).
Qed.

Lemma bodies_cloned_initial clock gen : bodies_cloned (initial clock gen).
Proof. intros r inst Hl. discriminate. Qed.

Lemma add_clause_invoke k q this :
  invoke this (add_clause k q) =
    BoolQuery_add_clause
      (match k with
       | Must => "must" | Should => "should" | Filter => "filter"
       | MustNot => "mustNot"
       end) (slot_key k) this q.
Proof. now destruct k. Qed.

Lemma slot_key_not_proto k : slot_key k <> "__proto__".
Proof. now destruct k. Qed.

Lemma clauses_run c k w ic R bs v :
  heap w !! c = Some ic ->
  serialized ic = VObj false R ->
  lookup_prop "bool" R = Some (VObj false bs) ->
  lookup_prop (slot_key k) bs = Some v ->
  result (clauses c k) w = Ok v.
Proof.
  intros Hc Hs Hb Hv. unfold result, clauses.
  erewrite bind_run by (rewrite toJSON_reads_instance, Hc; reflexivity).
  fold (serialized ic). rewrite Hs. unfold bind, lift. simpl.
  rewrite Hb. simpl. now rewrite Hv.
Qed.

(** C9.  Two boolean compounds are built by adding the same sub-query
    [s] to a clause slot, and a mutator is then called on [s].  Each
    compound holds, at the end of its slot, the body that [s] serialized to
    when it was embedded, and serializes after the call on [s] as it did
    before; [s] itself serializes as before. *)
Theorem embedded_copies_are_independent_of_the_source :
  forall w b1 b2 s k1 k2 c1 w1 c2 w2 m o w3,
    bodies_cloned w ->
    bool_compound w b1 ->
    bool_compound w1 b2 ->
    well_typed w s m ->
    invoke b1 (add_clause k1 (One s)) w = (Ok c1, w1) ->
    invoke b2 (add_clause k2 (One s)) w1 = (Ok c2, w2) ->
    invoke s m w2 = (o, w3) ->
    exists j items1 items2,
      result (toJSON s) w = Ok j /\
      result (clauses c1 k1) w3 = Ok (arr (items1 ++ [j])) /\
      result (clauses c2 k2) w3 = Ok (arr (items2 ++ [j])) /\
      result (toJSON c1) w3 = result (toJSON c1) w1 /\
      result (toJSON c2) w3 = result (toJSON c2) w2 /\
      result (toJSON s) w3 = result (toJSON s) w.
Proof.
  intros w b1 b2 s k1 k2 c1 w1 c2 w2 m o w3
    Hcl (ib1 & fz1 & bps1 & Hb1 & Hcls1 & Hbool1)
    (ib2 & fz2 & bps2 & Hb2 & Hcls2 & Hbool2) Hty Hrun1 Hrun2 Hrun3.
  pose proof (invoke_evolves _ _ _ _ _ Hrun1) as Hev1.
  pose proof (invoke_evolves _ _ _ _ _ Hrun2) as Hev2.
  pose proof (invoke_evolves _ _ _ _ _ Hrun3) as Hev3.
  pose proof (evolves_bodies_cloned _ _ Hev1 Hcl) as Hcl1.
  destruct (Hcl b1 ib1 Hb1) as [x1 Hx1].
  destruct (Hcl1 b2 ib2 Hb2) as [x2 Hx2].
  rewrite add_clause_invoke in Hrun1, Hrun2.
  destruct (BoolQuery_add_clause_content _ _ _ _ _ _ _ _ _ _ _
              Hb1 Hcls1 Hx1 Hbool1 (slot_key_not_proto k1) Hrun1)
    as (j & items1 & ic1 & R1 & bs1 & Hj & Hc1 & Hs1 & Hl1 & Hv1).
  destruct (BoolQuery_add_clause_content _ _ _ _ _ _ _ _ _ _ _
              Hb2 Hcls2 Hx2 Hbool2 (slot_key_not_proto k2) Hrun2)
    as (j' & items2 & ic2 & R2 & bs2 & Hj' & Hc2 & Hs2 & Hl2 & Hv2).
  rewrite (toJSON_stable _ _ _ _ Hev1 Hj) in Hj'. injection Hj' as <-.
  (* the body of a variant is its own clone *)
  destruct Hty as (is_ & Hs & Hm).
  assert (_deepClone j = j) as Hjj.
  { rewrite toJSON_reads_instance, Hs in Hj. injection Hj as <-.
    rewrite Hm. destruct m; simpl; apply _deepClone_idempotent. }
  rewrite Hjj in Hv1, Hv2.
  pose proof (evolves_trans _ _ _ Hev2 Hev3) as Hev23.
  pose proof (evolves_trans _ _ _ Hev1 Hev23) as Hev13.
  exists j, items1, items2.
  split; [unfold result; now rewrite Hj|].
  split; [eapply clauses_run; eauto using evolves_lookup|].
  split; [eapply clauses_run; eauto using evolves_lookup|].
  split; [eapply toJSON_evolves; eauto|].
  split; [eapply toJSON_evolves; eauto|].
  eapply toJSON_evolves; eauto.
Qed.

Lemma sample_shared_world_bodies_cloned : bodies_cloned sample_shared_world.
Proof.
  eapply evolves_bodies_cloned; [|apply bodies_cloned_initial].
  apply (safe_bind (Q_term "active" (VBool true))); [apply safe_TermQuery_constructor|].
  intros s. apply (safe_bind Q_bool); [apply safe_BoolQuery_constructor|].
  intros b1. apply (safe_bind Q_bool); [apply safe_BoolQuery_constructor|].
  intros b2. apply safe_ret.
Qed.

Lemma embedded_copies_are_independent_of_the_source_witness :
  exists j items1 items2,
    result (toJSON 0) sample_shared_world = Ok j /\
    result (clauses 3 Filter) sample_boosted_world = Ok (arr (items1 ++ [j])) /\
    result (clauses 4 Must) sample_boosted_world = Ok (arr (items2 ++ [j])) /\
    result (toJSON 3) sample_boosted_world = result (toJSON 3) sample_filter_world /\
    result (toJSON 4) sample_boosted_world = result (toJSON 4) sample_must_world /\
    result (toJSON 0) sample_boosted_world = result (toJSON 0) sample_shared_world.
Proof.
  apply (embedded_copies_are_independent_of_the_source
           sample_shared_world 1 2 0 Filter Must
           3 sample_filter_world 4 sample_must_world
           (Term_boost (num_of_Z 2))
           (result (invoke 0 (Term_boost (num_of_Z 2))) sample_must_world)
           sample_boosted_world).
  - apply sample_shared_world_bodies_cloned.
  - do 3 eexists.
    split; [vm_compute; reflexivity | split; [reflexivity | vm_compute; reflexivity]].
  - do 3 eexists.
    split; [vm_compute; reflexivity | split; [reflexivity | vm_compute; reflexivity]].
  - eexists. split; [vm_compute; reflexivity | reflexivity].
  - exact (run_pair _ _).
  - exact (run_pair _ _).
  - exact (run_pair _ _).
Defined.

(** ** Further properties of the variants *)

(** *** Range checks *)

Lemma out_of_range_spec v :
  v <> NaN -> (out_of_range v = true <-> ~ in_unit_interval v).
Proof.
  intros Hn. destruct v as [|neg|q]; [congruence| |].
  - simpl. destruct neg; simpl; tauto.
  - unfold out_of_range, num_gt, num_lt, zero, one, num_of_Z. simpl in_unit_interval.
    rewrite orb_true_iff, !negb_true_iff.
    rewrite <- !not_true_iff_false, !Qle_bool_iff. simpl inject_Z.
    split.
    + intros [H|H] [H0 H1]; auto.
    + intros H. destruct (Qlt_le_dec q 0) as [Hlt|Hle].
      * left. intros Hc. apply (Qlt_not_le _ _ Hlt Hc).
      * right. intros Hc. apply H. split; assumption.
Qed.

(** X1.  [negativeBoost] of BoostingQuery and [tieBreaker] of DisMaxQuery
    throw their range error for every number outside the closed interval
    [0, 1] (NaN aside, which passes both comparisons): no operation is
    recorded, no instance is constructed, the world is as it was. *)
Theorem ratio_mutators_reject_values_outside_unit_interval :
  forall this v w,
    v <> NaN -> ~ in_unit_interval v ->
    BoostingQuery_negativeBoost this v w =
      (Throw (Error "Negative boost must be between 0 and 1"), w) /\
    DisMaxQuery_tieBreaker this v w =
      (Throw (Error "Tie breaker must be between 0 and 1"), w).
Proof.
  intros this v w Hn Hout. apply (out_of_range_spec v Hn) in Hout.
  unfold BoostingQuery_negativeBoost, DisMaxQuery_tieBreaker. rewrite Hout.
  split; reflexivity.
Qed.

Lemma ratio_mutators_reject_values_outside_unit_interval_witness :
  BoostingQuery_negativeBoost 0 (Finite (3 # 2)) sample_world =
    (Throw (Error "Negative boost must be between 0 and 1"), sample_world) /\
  DisMaxQuery_tieBreaker 0 (Finite (3 # 2)) sample_world =
    (Throw (Error "Tie breaker must be between 0 and 1"), sample_world).
Proof.
  apply (ratio_mutators_reject_values_outside_unit_interval
           0 (Finite (3 # 2)) sample_world).
  - discriminate.
  - simpl. intros [_ H]. apply Qle_bool_iff in H. discriminate.
Defined.

(** X2.  The constructor of BoostingQuery makes no such check: it returns
    an instance for every ratio, and the instance serializes with the ratio
    it was given. *)
Theorem boosting_constructor_stores_the_ratio_unchecked :
  forall w positive negative ratio jp jn,
    toJSON positive w = (Ok jp, w) ->
    toJSON negative w = (Ok jn, w) ->
    exists q w1,
      BoostingQuery_constructor positive negative (VNum ratio) w = (Ok q, w1) /\
      result (toJSON q) w1 =
        Ok (obj [("boosting",
                  obj [("positive", _deepClone jp);
                       ("negative", _deepClone jn);
                       ("negative_boost", VNum ratio)])]).
Proof.
  intros w positive negative ratio jp jn Hp Hn.
  unfold BoostingQuery_constructor.
  rewrite (bind_run _ _ _ _ _ Hp), (bind_run _ _ _ _ _ Hn).
  rewrite Query_constructor_run. do 2 eexists. split; [reflexivity|].
  unfold result. rewrite toJSON_reads_instance. simpl heap.
  rewrite list_lookup_middle by reflexivity. simpl.
  now rewrite !_deepClone_idempotent.
Qed.

Lemma sample_term_serialized :
  toJSON 0 sample_term_world =
    (Ok (obj [("term", obj [("price", VNum (num_of_Z 100))])]), sample_term_world).
Proof. vm_compute. reflexivity. Qed.

Lemma boosting_constructor_stores_the_ratio_unchecked_witness :
  exists q w1,
    BoostingQuery_constructor 0 0 (VNum (Finite (3 # 2))) sample_term_world
      = (Ok q, w1) /\
    result (toJSON q) w1 =
      Ok (obj [("boosting",
                obj [("positive",
                      _deepClone (obj [("term", obj [("price", VNum (num_of_Z 100))])]));
                     ("negative",
                      _deepClone (obj [("term", obj [("price", VNum (num_of_Z 100))])]));
                     ("negative_boost", VNum (Finite (3 # 2)))])]).
Proof.
  apply (boosting_constructor_stores_the_ratio_unchecked
           sample_term_world 0 0 (Finite (3 # 2))
           (obj [("term", obj [("price", VNum (num_of_Z 100))])])
           (obj [("term", obj [("price", VNum (num_of_Z 100))])])).
  - exact sample_term_serialized.
  - exact sample_term_serialized.
Defined.

(** *** The stored body *)


(** *** What a mutator returns *)

(** X4.  The instance that a mutator call returns is a new one: its id
    differs from the id of every instance that existed before the call, its
    creation time was read from the clock during the call, and its
    operation list is empty. *)
Theorem mutator_result_has_fresh_id_and_empty_log :
  forall w q c q' w',
    ids_bounded w ->
    well_typed w q c ->
    invoke q c w = (Ok q', w') ->
    exists inst',
      heap w' !! q' = Some inst' /\
      heap w !! q' = None /\
      operations (_metadata inst') = [] /\
      (exists k, reads w <= k < reads w' /\ created (_metadata inst') = now w k) /\
      (forall r inst, heap w !! r = Some inst ->
         qid (_metadata inst) <> qid (_metadata inst')).
Proof.
  intros w q c q' w' Hids Hty Hrun.
  destruct (invoke_result w q c q' w' Hty Hrun)
    as (Hlo & inst' & Hq' & (n & t & Hid & Hn) & Hops & Hcr & _).
  exists inst'. split; [assumption|].
  split; [now apply lookup_ge_None_2|].
  split; [assumption|]. split; [assumption|].
  intros r inst Hl. destruct (Hids r inst Hl) as (n0 & t0 & Hid0 & Hn0).
  rewrite Hid, Hid0. intros Heq. apply id_string_inj in Heq. lia.
Qed.

Lemma mutator_result_has_fresh_id_and_empty_log_witness :
  exists inst',
    heap (after (invoke 0 (Term_boost (num_of_Z 2))) sample_term_world) !! 1 = Some inst' /\
    heap sample_term_world !! 1 = None /\
    operations (_metadata inst') = [] /\
    (exists k, reads sample_term_world <= k
                 < reads (after (invoke 0 (Term_boost (num_of_Z 2))) sample_term_world) /\
               created (_metadata inst') = now sample_term_world k) /\
    (forall r inst, heap sample_term_world !! r = Some inst ->
       qid (_metadata inst) <> qid (_metadata inst')).
Proof.
  apply (mutator_result_has_fresh_id_and_empty_log
           sample_term_world 0 (Term_boost (num_of_Z 2)) 1).
  - apply sample_term_world_ids_bounded.
  - eexists. split; [vm_compute; reflexivity | reflexivity].
  - vm_compute. reflexivity.
Defined.



(** X6.  For the field name [__proto__] the cloned range has no own
    property, and [Q.exists] ends in the TypeError of the destructuring in
    [gte]. *)
Theorem exists_on_proto_throws :
  forall w, exists m w', Q_exists "__proto__" w = (Throw (TypeError m), w').
Proof.
  intros w. do 2 eexists. unfold Q_exists, RangeQuery_gte, RangeQuery_set.
  exec. reflexivity.
Qed.

(** *** Compounds rebuilt by [clone] *)

Lemma NestedQuery_constructor_run path inner w j :
  toJSON inner w = (Ok j, w) ->
  exists w' md,
    NestedQuery_constructor path inner w = (Ok (length (heap w)), w') /\
    heap w' !! length (heap w) =
      Some (mkInstance NestedQuery
              (VObj true
                 [("nested", VObj false [("path", _deepClone path);
                                         ("query", _deepClone j)])]) md).
Proof.
  intros Hj. unfold NestedQuery_constructor. rewrite (bind_run _ _ _ _ _ Hj).
  rewrite Query_constructor_run. do 2 eexists. split; [reflexivity|].
  simpl heap. rewrite list_lookup_middle by reflexivity. reflexivity.
Qed.

#[local] Arguments String.eqb !s1 !s2 : simpl nomatch.

Lemma NestedQuery_set_option_run name key this v w fz fz' p j md :
  heap w !! this =
    Some (mkInstance NestedQuery
            (VObj fz [("nested", VObj fz' [("path", p); ("query", j)])]) md) ->
  key <> "path" ->
  exists q' w' md',
    set_option "nested" name key this v w = (Ok q', w') /\
    heap w' !! q' =
      Some (mkInstance NestedQuery
              (VObj true
                 [("nested", VObj false [("path", _deepClone p);
                                         ("query", _deepClone j)])]) md').
Proof.
  intros Hl Hk. unfold set_option. exec_with Hl.
  apply String.eqb_neq in Hk as Hk1. rewrite Hk1.
  assert (("path" =? key) = false) as Hk2 by (rewrite String.eqb_sym; exact Hk1).
  destruct (before key "path"), (key =? "query"), (before key "query");
    exec_with Hk2; destruct (truthy p); exec_with Hl.
  all: do 3 eexists; (split; [reflexivity|]); exec_with Hl.
  all: reflexivity.
Qed.

(** X7.  A NestedQuery built by its constructor serializes as
    [{nested: {path, query}}], and so does the instance that [scoreMode],
    [boost], [ignoreUnmapped] or [innerHits] returns for it: [clone]
    rebuilds the instance from [path] and [query] alone. *)
Theorem nested_option_mutators_return_a_copy_of_the_receiver :
  forall w path inner q w1 b mode ignore config,
    NestedQuery_constructor (VStr path) inner w = (Ok q, w1) ->
    exists jq,
      result (toJSON q) w1 =
        Ok (obj [("nested", obj [("path", VStr path); ("query", jq)])]) /\
      forall m, In m (nested_options b mode ignore config) ->
        exists q' w2,
          invoke q m w1 = (Ok q', w2) /\
          result (toJSON q') w2 =
            Ok (obj [("nested", obj [("path", VStr path); ("query", jq)])]).
Proof.
  intros w path inner q w1 b mode ignore config Hrun.
  assert (exists j, toJSON inner w = (Ok j, w)) as [j Hj].
  { unfold NestedQuery_constructor in Hrun.
    apply bind_ok_inv in Hrun as (j & w' & Hj & _).
    apply toJSON_ok_inv in Hj as Hj'. destruct Hj' as [-> _]. eauto. }
  destruct (NestedQuery_constructor_run (VStr path) inner w j Hj)
    as (w1' & md & Hrun' & Hq).
  rewrite Hrun' in Hrun. injection Hrun as <- <-.
  exists (_deepClone j). split.
  { unfold result. rewrite (toJSON_run _ _ _ Hq) by discriminate. simpl.
    now rewrite _deepClone_idempotent. }
  intros m Hm.
  assert (exists name key v,
             invoke (length (heap w)) m =
               set_option "nested" name key (length (heap w)) v /\
             key <> "path") as (name & key & v & -> & Hk).
  { simpl in Hm. destruct Hm as [<-|[<-|[<-|[<-|[]]]]]; simpl;
      unfold NestedQuery_scoreMode, NestedQuery_boost, NestedQuery_ignoreUnmapped,
        NestedQuery_innerHits; do 3 eexists; (split; [reflexivity|discriminate]). }
  destruct (NestedQuery_set_option_run name key _ v _ _ _ _ _ _ Hq Hk)
    as (q' & w2 & md' & Hrun2 & Hq').
  exists q', w2. split; [assumption|].
  unfold result. rewrite (toJSON_run _ _ _ Hq') by discriminate. simpl.
  now rewrite !_deepClone_idempotent.
Qed.

Lemma sample_nested_run :
  NestedQuery_constructor (VStr "user") 0 sample_term_world =
    (Ok 1, after (NestedQuery_constructor (VStr "user") 0) sample_term_world).
Proof. vm_compute. reflexivity. Qed.

Lemma nested_option_mutators_return_a_copy_of_the_receiver_witness :
  exists jq,
    result (toJSON 1) (after (NestedQuery_constructor (VStr "user") 0) sample_term_world) =
      Ok (obj [("nested", obj [("path", VStr "user"); ("query", jq)])]) /\
    forall m, In m (nested_options (num_of_Z 2) ModeAvg None (obj [])) ->
      exists q' w2,
        invoke 1 m (after (NestedQuery_constructor (VStr "user") 0) sample_term_world)
          = (Ok q', w2) /\
        result (toJSON q') w2 =
          Ok (obj [("nested", obj [("path", VStr "user"); ("query", jq)])]).
Proof.
  apply (nested_option_mutators_return_a_copy_of_the_receiver
           sample_term_world "user" 0 1
           (after (NestedQuery_constructor (VStr "user") 0) sample_term_world)
           (num_of_Z 2) ModeAvg None (obj [])).
  exact sample_nested_run.
Defined.

Lemma map__deepClone_idempotent l :
  map _deepClone (map _deepClone l) = map _deepClone l.
Proof.
  induction l as [|x l IH]; simpl; [reflexivity|].
  now rewrite _deepClone_idempotent, IH.
Qed.

(** The temporary instances that the [clone] of a compound constructs
    hand back, through [toJSON], the values they captured. *)
Lemma temporary_queries_run items w :
  exists refs w',
    mapM (fun j => Query_constructor (Anonymous j) (obj []) None) items w
      = (Ok refs, w') /\
    evolves w w' /\
    mapM toJSON refs w' = (Ok items, w').
Proof.
  revert w. induction items as [|j items IH]; intros w.
  - exists [], w. split; [reflexivity|]. split; [apply evolves_refl | reflexivity].
  - pose proof (safe_Query_constructor (Anonymous j) (obj []) w) as Hev0.
    unfold after in Hev0. rewrite Query_constructor_run in Hev0. simpl in Hev0.
    match type of Hev0 with evolves _ ?w0 =>
      destruct (IH w0) as (refs & w' & Hrun & Hev & Hback) end.
    exists (length (heap w) :: refs), w'.
    split.
    { simpl. rewrite (bind_run _ _ _ _ _ (Query_constructor_run _ _ w)).
      now rewrite (bind_run _ _ _ _ _ Hrun). }
    split; [eapply evolves_trans; eassumption|].
    simpl.
    assert (toJSON (length (heap w)) w' = (Ok j, w')) as Hj.
    { rewrite toJSON_reads_instance.
      erewrite (evolves_lookup _ _ _ _ Hev);
        [|simpl; apply list_lookup_middle; reflexivity].
      reflexivity. }
    rewrite (bind_run _ _ _ _ _ Hj). now rewrite (bind_run _ _ _ _ _ Hback).
Qed.

Lemma DisMaxQuery_constructor_run qs w js :
  mapM toJSON qs w = (Ok js, w) ->
  exists w' md,
    DisMaxQuery_constructor qs w = (Ok (length (heap w)), w') /\
    heap w' !! length (heap w) =
      Some (mkInstance DisMaxQuery
              (VObj true
                 [("dis_max",
                   VObj false [("queries", VArr false (map _deepClone js))])])
              md).
Proof.
  intros Hjs. unfold DisMaxQuery_constructor. rewrite (bind_run _ _ _ _ _ Hjs).
  rewrite Query_constructor_run. do 2 eexists. split; [reflexivity|].
  simpl heap. rewrite list_lookup_middle by reflexivity. reflexivity.
Qed.

Lemma DisMaxQuery_query_run this r w fz fz1 fz2 items md ir :
  heap w !! this =
    Some (mkInstance DisMaxQuery
            (VObj fz [("dis_max", VObj fz1 [("queries", VArr fz2 items)])]) md) ->
  heap w !! r = Some ir ->
  exists q' w' md',
    DisMaxQuery_query this r w = (Ok q', w') /\
    heap w' !! q' =
      Some (mkInstance DisMaxQuery
              (VObj true
                 [("dis_max",
                   VObj false [("queries", VArr false (map _deepClone items))])])
              md').
Proof.
  intros Hl Hr.
  unfold DisMaxQuery_query, _createNew, clone, DisMaxQuery_clone,
    DisMaxQuery_constructor.
  set (F := mapM (fun queryJson => Query_constructor (Anonymous queryJson) (obj []) None)).
  set (G := mapM toJSON).
  pose proof temporary_queries_run as HF. fold F in HF. fold G in HF.
  clearbody F G.
  destruct ir as [c b m].
  destruct c; repeat first [exec_step Hl | rewrite Hr].
  all: match goal with
       | HF' : forall items w, exists refs w', ?f items w = _ /\ _
         |- context [?f ?l ?W] =>
           destruct (HF' l W) as (refs & w' & HrunF & Hev & Hback); rewrite HrunF
       end.
  all: repeat first [exec_step Hl | rewrite Hr | rewrite Hback].
  all: do 3 eexists; (split; [reflexivity|]).
  all: repeat first [exec_step Hl | rewrite Hr | rewrite Hback].
  all: reflexivity.
Qed.

(** X8.  A DisMaxQuery built by its constructor serializes as
    [{dis_max: {queries}}], and so does the instance that [query(r)]
    returns for it, for every instance [r]: [clone] rebuilds the instance
    from the queries of the receiver. *)
Theorem dis_max_query_returns_a_copy_of_the_receiver :
  forall w qs q w1 r jr,
    DisMaxQuery_constructor qs w = (Ok q, w1) ->
    toJSON r w1 = (Ok jr, w1) ->
    exists items q' w2,
      result (toJSON q) w1 =
        Ok (obj [("dis_max", obj [("queries", arr items)])]) /\
      DisMaxQuery_query q r w1 = (Ok q', w2) /\
      result (toJSON q') w2 =
        Ok (obj [("dis_max", obj [("queries", arr items)])]).
Proof.
  intros w qs q w1 r jr Hrun Hr.
  assert (exists js, mapM toJSON qs w = (Ok js, w)) as [js Hjs].
  { unfold DisMaxQuery_constructor in Hrun.
    apply bind_ok_inv in Hrun as (js & w0 & Hjs & _).
    apply mapM_toJSON_ok_inv in Hjs as Hw0. subst w0. eauto. }
  destruct (DisMaxQuery_constructor_run qs w js Hjs) as (w1' & md & Hrun' & Hq).
  rewrite Hrun' in Hrun. injection Hrun as <- <-.
  apply toJSON_ok_inv in Hr as (_ & ir & Hr & _).
  destruct (DisMaxQuery_query_run _ r _ _ _ _ _ _ ir Hq Hr)
    as (q' & w2 & md' & Hrun2 & Hq').
  exists (map _deepClone js), q', w2.
  split.
  { unfold result. rewrite (toJSON_run _ _ _ Hq) by discriminate. simpl.
    now rewrite map__deepClone_idempotent. }
  split; [assumption|].
  unfold result. rewrite (toJSON_run _ _ _ Hq') by discriminate. simpl.
  now rewrite !map__deepClone_idempotent.
Qed.

Lemma dis_max_query_returns_a_copy_of_the_receiver_witness :
  exists items q' w2,
    result (toJSON 1) (after (DisMaxQuery_constructor [0]) sample_term_world) =
      Ok (obj [("dis_max", obj [("queries", arr items)])]) /\
    DisMaxQuery_query 1 0 (after (DisMaxQuery_constructor [0]) sample_term_world)
      = (Ok q', w2) /\
    result (toJSON q') w2 =
      Ok (obj [("dis_max", obj [("queries", arr items)])]).
Proof.
  apply (dis_max_query_returns_a_copy_of_the_receiver
           sample_term_world [0] 1
           (after (DisMaxQuery_constructor [0]) sample_term_world) 0
           (obj [("term", obj [("price", VNum (num_of_Z 100))])])).
  - vm_compute. reflexivity.
  - vm_compute. reflexivity.
Defined.

(** *** Runs of the helpers *)

Lemma this_body_run this w inst :
  heap w !! this = Some inst -> this_body this w = (Ok (_body inst), w).
Proof. intros Hl. unfold this_body, bind, deref, ret. now rewrite Hl. Qed.

Lemma Query_id_run this w inst :
  heap w !! this = Some inst -> Query_id this w = (Ok (qid (_metadata inst)), w).
Proof. intros Hl. now rewrite Query_id_reads_instance, Hl. Qed.

(** The queries that serialize are recorded without an exception. *)
Lemma _serializeArgs_queries_run qs w js :
  mapM toJSON qs w = (Ok js, w) ->
  exists sargs, _serializeArgs (map AQuery qs) w = (Ok sargs, w).
Proof.
  revert js. induction qs as [|q qs IH]; intros js H.
  - eexists. reflexivity.
  - simpl in H. apply bind_ok_inv in H as (j & w1 & Hj & H).
    apply toJSON_ok_inv in Hj as Hj'. destruct Hj' as (-> & inst & Hl & ->).
    apply bind_ok_inv in H as (js' & w2 & Hjs & H).
    apply mapM_toJSON_ok_inv in Hjs as Hw. subst w2.
    destruct (IH js' Hjs) as [sargs Hs].
    unfold _serializeArgs in *. simpl.
    set (F := mapM _ (map AQuery qs)) in *.
    eexists. unfold bind. rewrite (Query_id_run _ _ _ Hl), Hj. simpl.
    rewrite Hs. reflexivity.
Qed.

Lemma _recordOperation_run name args w sargs :
  _serializeArgs args w = (Ok sargs, w) ->
  exists op, _recordOperation name args w = (Ok op, recorded w).
Proof.
  intros Hs. unfold _recordOperation. rewrite (bind_run _ _ _ _ _ Hs).
  eexists. reflexivity.
Qed.

Lemma safe_BoolQuery_add_clause name slot this query :
  safe (BoolQuery_add_clause name slot this query).
Proof. unfold BoolQuery_add_clause. safe_auto. Qed.

Lemma safe_set_option kind name key this v : safe (set_option kind name key this v).
Proof. unfold set_option. safe_auto. Qed.

Lemma safe_TermQuery_set_option name key this v :
  safe (TermQuery_set_option name key this v).
Proof. unfold TermQuery_set_option. safe_auto. Qed.


Lemma safe_run {A} (m : M A) w o w' : safe m -> m w = (o, w') -> evolves w w'.
Proof. intros Hs H. specialize (Hs w). unfold after in Hs. now rewrite H in Hs. Qed.

Lemma BoolQuery_createNew_run this nb op w body md :
  heap w !! this = Some (mkInstance BoolQuery body md) ->
  exists w' md',
    _createNew this nb op w = (Ok (length (heap w)), w') /\
    heap w' !! length (heap w) =
      Some (mkInstance BoolQuery
              (Object_freeze
                 (_deepClone
                    (obj (spread (merged_body (mkInstance BoolQuery body md) nb)
                            [("bool", obj [])]))))
              md').
Proof.
  intros Hl. exec_with Hl. do 2 eexists. split; [reflexivity|].
  exec_with Hl. reflexivity.
Qed.

(** What a clause mutator stores: the slot extended by the serialized
    queries, the other options of [bool] as they were. *)
Lemma BoolQuery_add_clause_run name slot this query w fz fz' bps md js old :
  heap w !! this =
    Some (mkInstance BoolQuery (VObj fz [("bool", VObj fz' bps)]) md) ->
  elements (js_or (default VUndefined (lookup_prop slot bps)) (arr [])) = Ok old ->
  mapM toJSON (as_array query) w = (Ok js, w) ->
  exists w' md',
    BoolQuery_add_clause name slot this query w = (Ok (length (heap w)), w') /\
    heap w' !! length (heap w) =
      Some (mkInstance BoolQuery
              (VObj true
                 [("bool",
                   _deepClone
                     (obj (define slot (arr (old ++ js))
                             (spread (VObj fz' bps) []))))])
              md').
Proof.
  intros Hl Hold Hjs.
  destruct (_serializeArgs_queries_run _ _ _ Hjs) as [sargs Hs].
  destruct (_recordOperation_run name _ _ _ Hs) as [op Hop].
  unfold BoolQuery_add_clause.
  rewrite (bind_run _ _ _ _ _ (this_body_run _ _ _ Hl)). simpl _body.
  unfold lift at 1. unfold bind at 1. simpl prop. cbv iota beta.
  unfold lift at 1. unfold bind at 1. simpl prop. cbv iota beta.
  rewrite Hold.
  unfold lift at 1. unfold bind at 1. cbv iota beta.
  rewrite (bind_run _ _ _ _ _ Hjs).
  rewrite (bind_run _ _ _ _ _ Hop).
  destruct (BoolQuery_createNew_run this
              (obj [("bool", obj (define slot (arr (old ++ js)) (spread (VObj fz' bps) [])))])
              (Some op) (recorded w) _ _ Hl) as (w' & md' & Hrun & Hq).
  exists w', md'. split; [exact Hrun|].
  simpl heap in Hq. rewrite Hq. reflexivity.
Qed.

(** *** The factory's combinators *)

Lemma BoolQuery_constructor_default_run w :
  exists w' md,
    BoolQuery_constructor VUndefined w = (Ok (length (heap w)), w') /\
    evolves w w' /\
    heap w' !! length (heap w) =
      Some (mkInstance BoolQuery (VObj true [("bool", VObj false [])]) md).
Proof.
  pose proof (safe_BoolQuery_constructor VUndefined w) as Hev. unfold after in Hev.
  unfold BoolQuery_constructor in *. rewrite Query_constructor_run in *.
  do 2 eexists. split; [reflexivity|]. split; [exact Hev|].
  simpl heap. rewrite list_lookup_middle by reflexivity. reflexivity.
Qed.

(** The serialized body of a variant is its own deep clone. *)
Lemma serialized_variants_are_clones qs w js :
  Forall (fun q => is_variant q w) qs ->
  mapM toJSON qs w = (Ok js, w) ->
  map _deepClone js = js.
Proof.
  intros Hv. revert js. induction Hv as [|q qs Hq _ IH]; intros js H.
  - injection H as <-. reflexivity.
  - simpl in H. apply bind_ok_inv in H as (j & w1 & Hj & H).
    apply toJSON_ok_inv in Hj as (-> & inst & Hl & ->).
    apply bind_ok_inv in H as (js' & w2 & Hjs & H).
    apply mapM_toJSON_ok_inv in Hjs as Hw. subst w2.
    injection H as <-. simpl. rewrite (IH _ Hjs). f_equal.
    destruct Hq as (inst' & Hl' & Hc). rewrite Hl in Hl'. injection Hl' as <-.
    unfold serialized. destruct (cls inst) eqn:E;
      try apply _deepClone_idempotent. now destruct (Hc captured).
Qed.

Lemma combine_run k w qs js :
  mapM toJSON qs w = (Ok js, w) ->
  exists c w' md,
    combine k qs w = (Ok c, w') /\
    evolves w w' /\
    heap w' !! c =
      Some (mkInstance BoolQuery
              (VObj true
                 [("bool",
                   VObj false
                     [(slot_key (combinator_slot k), VArr false (map _deepClone js))])])
              md).
Proof.
  intros Hjs.
  destruct (BoolQuery_constructor_default_run w) as (w0 & md0 & Hrun0 & Hev0 & Hb).
  pose proof (mapM_toJSON_stable _ _ _ _ Hev0 Hjs) as Hjs0.
  assert (forall name slot,
            slot <> "__proto__" ->
            exists w' md',
              BoolQuery_add_clause name slot (length (heap w)) (Many qs) w0
                = (Ok (length (heap w0)), w') /\
              evolves w w' /\
              heap w' !! length (heap w0) =
                Some (mkInstance BoolQuery
                        (VObj true
                           [("bool", VObj false [(slot, VArr false (map _deepClone js))])])
                        md')) as Hadd.
  { intros name slot Hslot.
    destruct (BoolQuery_add_clause_run name slot _ (Many qs) w0 _ _ _ _ js []
                Hb eq_refl Hjs0) as (w' & md' & Hrun & Hq).
    exists w', md'. split; [exact Hrun|]. split.
    - eapply evolves_trans; [exact Hev0|].
      exact (safe_run _ _ _ _ (safe_BoolQuery_add_clause _ _ _ _) Hrun).
    - rewrite Hq. simpl. unfold assign. rewrite (eqb_proto _ Hslot). reflexivity. }
  destruct k; simpl combine;
    unfold Q_and, Q_or, Q_filter, Q_must, Q_should,
      BoolQuery_must, BoolQuery_should, BoolQuery_filter;
    rewrite (bind_run _ _ _ _ _ Hrun0);
    match goal with
    | |- context [BoolQuery_add_clause ?name ?slot _ _ _] =>
        destruct (Hadd name slot ltac:(discriminate)) as (w' & md' & Hrun & Hev & Hq)
    end;
    exists (length (heap w0)), w', md'; auto.
Qed.

Lemma BoolQuery_isEmpty_run c w k items md :
  heap w !! c =
    Some (mkInstance BoolQuery
            (VObj true [("bool", VObj false [(slot_key k, VArr false items)])]) md) ->
  BoolQuery_isEmpty c w = (Ok (match items with [] => true | _ => false end), w).
Proof.
  intros Hl. unfold BoolQuery_isEmpty.
  rewrite (bind_run _ _ _ _ _ (this_body_run _ _ _ Hl)).
  destruct k, items; reflexivity.
Qed.

Lemma mapM_toJSON_length qs w js :
  mapM toJSON qs w = (Ok js, w) -> length js = length qs.
Proof.
  revert js. induction qs as [|x qs IH]; intros js H.
  - now injection H as <-.
  - simpl in H. apply bind_ok_inv in H as (j & w1 & Hj & H).
    apply toJSON_ok_inv in Hj as (-> & _).
    apply bind_ok_inv in H as (js' & w2 & Hjs & H).
    apply mapM_toJSON_ok_inv in Hjs as Hw. subst w2.
    injection H as <-. simpl. now rewrite (IH _ Hjs).
Qed.

(** X9.  The factory's combinators.  [Q.and] and [Q.must] fill the slot
    [must], [Q.or] and [Q.should] the slot [should], [Q.filter] the slot
    [filter], each with the serialized queries in the order given and
    nothing else; [Q.not] fills [must_not] with the one query.  Called
    with no query, a combinator still returns a compound with an empty
    array in its slot, which [Q.isEmpty] reports as empty and
    [Q.validate] rejects with "Bool query has no clauses"; called with
    at least one query, the compound is not empty and valid. *)
Theorem combinators_fill_one_slot :
  forall w,
    (forall k qs js,
        Forall (fun q => is_variant q w) qs ->
        mapM toJSON qs w = (Ok js, w) ->
        exists c w',
          combine k qs w = (Ok c, w') /\
          result (toJSON c) w' =
            Ok (obj [("bool", obj [(slot_key (combinator_slot k), arr js)])]) /\
          result (Q_isEmpty c) w' = Ok (match qs with [] => true | _ => false end) /\
          result (Q_validate c) w' =
            Ok (match qs with
                | [] => mkValidation false ["Bool query has no clauses"]
                | _ => mkValidation true []
                end)) /\
    (forall q j,
        is_variant q w ->
        toJSON q w = (Ok j, w) ->
        exists c w',
          Q_not q w = (Ok c, w') /\
          result (toJSON c) w' = Ok (obj [("bool", obj [("must_not", arr [j])])]) /\
          result (Q_isEmpty c) w' = Ok false /\
          result (Q_validate c) w' = Ok (mkValidation true [])).
Proof.
  intros w.
  assert (forall c w' md slot items,
            In slot ["must"; "should"; "filter"; "must_not"] ->
            heap w' !! c =
              Some (mkInstance BoolQuery
                      (VObj true [("bool", VObj false [(slot, VArr false items)])]) md) ->
            map _deepClone items = items ->
            result (toJSON c) w' = Ok (obj [("bool", obj [(slot, arr items)])]) /\
            result (Q_isEmpty c) w' =
              Ok (match items with [] => true | _ => false end) /\
            result (Q_validate c) w' =
              Ok (match items with
                  | [] => mkValidation false ["Bool query has no clauses"]
                  | _ => mkValidation true []
                  end)) as Hreport.
  { intros c w' md slot items Hslot Hc Hfix.
    assert (instanceof c BoolQuery w' = (Ok true, w')) as Hinst
      by (unfold instanceof, bind, deref, ret; now rewrite Hc).
    assert (instanceof c RangeQuery w' = (Ok false, w')) as Hnot
      by (unfold instanceof, bind, deref, ret; now rewrite Hc).
    assert (BoolQuery_isEmpty c w' =
              (Ok (match items with [] => true | _ => false end), w')) as Hempty.
    { unfold BoolQuery_isEmpty.
      rewrite (bind_run _ _ _ _ _ (this_body_run _ _ _ Hc)).
      simpl in Hslot. destruct Hslot as [<-|[<-|[<-|[<-|[]]]]], items; reflexivity. }
    split.
    { unfold result. rewrite (toJSON_run _ _ _ Hc) by discriminate.
      simpl in Hslot. destruct Hslot as [<-|[<-|[<-|[<-|[]]]]]; simpl;
        now rewrite Hfix. }
    split.
    { unfold result, Q_isEmpty. now rewrite (bind_run _ _ _ _ _ Hinst), Hempty. }
    unfold result, Q_validate, try_catch, bind, ret. cbv beta zeta.
    rewrite (toJSON_run _ _ _ Hc) by discriminate. simpl.
    rewrite Hinst, Hempty, Hnot. now destruct items. }
  split.
  - intros k qs js Hv Hjs.
    destruct (combine_run k w qs js Hjs) as (c & w' & md & Hrun & Hev & Hc).
    pose proof (serialized_variants_are_clones _ _ _ Hv Hjs) as Hfix.
    rewrite Hfix in Hc.
    exists c, w'. split; [exact Hrun|].
    pose proof (mapM_toJSON_length _ _ _ Hjs) as Hlen.
    destruct (Hreport c w' md (slot_key (combinator_slot k)) js
                ltac:(destruct k; simpl; auto) Hc Hfix) as (H1 & H2 & H3).
    split; [exact H1|].
    destruct qs, js; try discriminate; auto.
  - intros q j Hv Hj.
    destruct (BoolQuery_constructor_default_run w) as (w0 & md0 & Hrun0 & Hev0 & Hb).
    assert (mapM toJSON [q] w = (Ok [j], w)) as Hjs
      by (simpl; now rewrite (bind_run _ _ _ _ _ Hj)).
    pose proof (mapM_toJSON_stable _ _ _ _ Hev0 Hjs) as Hjs0.
    pose proof (serialized_variants_are_clones [q] w [j]
                  ltac:(constructor; [exact Hv | constructor]) Hjs) as Hfix.
    destruct (BoolQuery_add_clause_run "mustNot" "must_not" _ (One q) w0 _ _ _ _ [j] []
                Hb eq_refl Hjs0) as (w' & md' & Hrun & Hc).
    simpl in Hc. injection Hfix as Hfix. rewrite Hfix in Hc.
    exists (length (heap w0)), w'.
    split.
    { unfold Q_not, BoolQuery_mustNot. now rewrite (bind_run _ _ _ _ _ Hrun0). }
    apply (Hreport _ _ md' "must_not" [j]); [simpl; auto | exact Hc |].
    simpl. now rewrite Hfix.
Qed.

Lemma sample_term_is_variant : is_variant 0 sample_term_world.
Proof. eexists. split; [vm_compute; reflexivity | discriminate]. Qed.

Lemma sample_terms_serialized :
  mapM toJSON [0] sample_term_world =
    (Ok [obj [("term", obj [("price", VNum (num_of_Z 100))])]], sample_term_world).
Proof. vm_compute. reflexivity. Qed.

Lemma combinators_fill_one_slot_witness :
  exists c w',
    combine And [0] sample_term_world = (Ok c, w') /\
    result (toJSON c) w' =
      Ok (obj [("bool",
                obj [(slot_key (combinator_slot And),
                      arr [obj [("term", obj [("price", VNum (num_of_Z 100))])]])])]) /\
    result (Q_isEmpty c) w' = Ok false /\
    result (Q_validate c) w' = Ok (mkValidation true []).
Proof.
  destruct (combinators_fill_one_slot sample_term_world) as [H _].
  apply (H And [0] [obj [("term", obj [("price", VNum (num_of_Z 100))])]]).
  - constructor; [exact sample_term_is_variant | constructor].
  - exact sample_terms_serialized.
Defined.

(** *** Term queries *)

Ltac getters :=
  unfold result, TermQuery_getField, TermQuery_getValue, TermQuery_getBoost,
    TermQuery_isCaseInsensitive, RangeQuery_getField, get_option.

(** X10.  The accessors of a term query read back what was set.  On a
    query built from a scalar value, [getField] and [getValue] return
    the field and the value, [getBoost] is [undefined] and
    [isCaseInsensitive] is [false]; after [boost(b)] and
    [caseInsensitive(ci)] the field and the value are the same, and
    [getBoost] and [isCaseInsensitive] return [b] and [ci] (by default
    [true]). *)
Theorem term_getters_read_back :
  forall w field v b ci q w1,
    is_scalar v = true ->
    field <> "__proto__" ->
    Q_term field v w = (Ok q, w1) ->
    (result (TermQuery_getField q) w1 = Ok (VStr field) /\
     result (TermQuery_getValue q) w1 = Ok v /\
     result (TermQuery_getBoost q) w1 = Ok VUndefined /\
     result (TermQuery_isCaseInsensitive q) w1 = Ok (VBool false)) /\
    exists q1 w2 q2 w3,
      TermQuery_boost q b w1 = (Ok q1, w2) /\
      TermQuery_caseInsensitive q1 ci w2 = (Ok q2, w3) /\
      result (TermQuery_getField q2) w3 = Ok (VStr field) /\
      result (TermQuery_getValue q2) w3 = Ok v /\
      result (TermQuery_getBoost q2) w3 = Ok (VNum b) /\
      result (TermQuery_isCaseInsensitive q2) w3 = Ok (VBool (default true ci)).
Proof.
  intros w field v b ci q w1 Hs Hf Hrun.
  destruct (TermQuery_constructor_run field v w Hf) as (w1' & md & Hrun' & Hq).
  unfold Q_term in Hrun. rewrite Hrun' in Hrun. injection Hrun as <- <-.
  rewrite (_deepClone_scalar v Hs) in Hq.
  assert (is_object v = false) as Hobj by (now destruct v).
  split.
  { getters. rewrite !(bind_run _ _ _ _ _ (this_body_run _ _ _ Hq)).
    simpl. destruct v; try discriminate; repeat split. }
  destruct (TermQuery_set_option_run "boost" "boost" _ (VNum b) _ _ _ _ _ _ Hq Hf)
    as (w2 & md1 & Hrun1 & Hq1).
  rewrite Hobj in Hq1. simpl in Hq1. rewrite (_deepClone_scalar v Hs) in Hq1.
  destruct (TermQuery_set_option_run "caseInsensitive" "case_insensitive" _
              (VBool (default true ci)) _ _ _ _ _ _ Hq1 Hf)
    as (w3 & md2 & Hrun2 & Hq2).
  simpl in Hq2. rewrite (_deepClone_scalar v Hs) in Hq2.
  exists (length (heap w1')), w2, (length (heap w2)), w3.
  split; [exact Hrun1|]. split; [exact Hrun2|].
  getters. rewrite !(bind_run _ _ _ _ _ (this_body_run _ _ _ Hq2)).
  simpl. repeat split.
Qed.

Lemma term_getters_read_back_witness :
  (result (TermQuery_getField 0) sample_term_world = Ok (VStr "price") /\
   result (TermQuery_getValue 0) sample_term_world = Ok (VNum (num_of_Z 100)) /\
   result (TermQuery_getBoost 0) sample_term_world = Ok VUndefined /\
   result (TermQuery_isCaseInsensitive 0) sample_term_world = Ok (VBool false)) /\
  exists q1 w2 q2 w3,
    TermQuery_boost 0 (Finite (3 # 2)) sample_term_world = (Ok q1, w2) /\
    TermQuery_caseInsensitive q1 None w2 = (Ok q2, w3) /\
    result (TermQuery_getField q2) w3 = Ok (VStr "price") /\
    result (TermQuery_getValue q2) w3 = Ok (VNum (num_of_Z 100)) /\
    result (TermQuery_getBoost q2) w3 = Ok (VNum (Finite (3 # 2))) /\
    result (TermQuery_isCaseInsensitive q2) w3 = Ok (VBool (default true None)).
Proof.
  apply (term_getters_read_back sample_world "price" (VNum (num_of_Z 100))
           (Finite (3 # 2)) None 0 sample_term_world).
  - reflexivity.
  - discriminate.
  - apply run_pair.
Defined.

(** X11.  Setting an option of a term query a second time replaces its
    value where the key stands: after [boost(a)], [caseInsensitive(ci)]
    and [boost(b)] the query serializes with the keys [value], [boost],
    [case_insensitive] in this order and the boost [b]. *)
Theorem term_boost_again_replaces_in_place :
  forall w field v a ci b q w1,
    is_scalar v = true ->
    field <> "__proto__" ->
    Q_term field v w = (Ok q, w1) ->
    exists q1 w2 q2 w3 q3 w4,
      TermQuery_boost q a w1 = (Ok q1, w2) /\
      TermQuery_caseInsensitive q1 ci w2 = (Ok q2, w3) /\
      TermQuery_boost q2 b w3 = (Ok q3, w4) /\
      result (toJSON q3) w4 =
        Ok (obj [("term",
                  obj [(field,
                        obj [("value", v); ("boost", VNum b);
                             ("case_insensitive", VBool (default true ci))])])]).
Proof.
  intros w field v a ci b q w1 Hs Hf Hrun.
  destruct (TermQuery_constructor_run field v w Hf) as (w1' & md & Hrun' & Hq).
  unfold Q_term in Hrun. rewrite Hrun' in Hrun. injection Hrun as <- <-.
  rewrite (_deepClone_scalar v Hs) in Hq.
  assert (is_object v = false) as Hobj by (now destruct v).
  destruct (TermQuery_set_option_run "boost" "boost" _ (VNum a) _ _ _ _ _ _ Hq Hf)
    as (w2 & md1 & Hrun1 & Hq1).
  rewrite Hobj in Hq1. simpl in Hq1. rewrite (_deepClone_scalar v Hs) in Hq1.
  destruct (TermQuery_set_option_run "caseInsensitive" "case_insensitive" _
              (VBool (default true ci)) _ _ _ _ _ _ Hq1 Hf)
    as (w3 & md2 & Hrun2 & Hq2).
  simpl in Hq2. rewrite (_deepClone_scalar v Hs) in Hq2.
  destruct (TermQuery_set_option_run "boost" "boost" _ (VNum b) _ _ _ _ _ _ Hq2 Hf)
    as (w4 & md3 & Hrun3 & Hq3).
  simpl in Hq3. rewrite (_deepClone_scalar v Hs) in Hq3.
  exists (length (heap w1')), w2, (length (heap w2)), w3, (length (heap w3)), w4.
  split; [exact Hrun1|]. split; [exact Hrun2|]. split; [exact Hrun3|].
  unfold result. rewrite (toJSON_run _ _ _ Hq3) by discriminate.
  crunch. reflexivity.
Qed.

Lemma term_boost_again_replaces_in_place_witness :
  exists q1 w2 q2 w3 q3 w4,
    TermQuery_boost 0 (num_of_Z 2) sample_term_world = (Ok q1, w2) /\
    TermQuery_caseInsensitive q1 None w2 = (Ok q2, w3) /\
    TermQuery_boost q2 (num_of_Z 3) w3 = (Ok q3, w4) /\
    result (toJSON q3) w4 =
      Ok (obj [("term",
                obj [("price",
                      obj [("value", VNum (num_of_Z 100)); ("boost", VNum (num_of_Z 3));
                           ("case_insensitive", VBool (default true None))])])]).
Proof.
  apply (term_boost_again_replaces_in_place sample_world "price" (VNum (num_of_Z 100))
           (num_of_Z 2) None (num_of_Z 3) 0 sample_term_world).
  - reflexivity.
  - discriminate.
  - apply run_pair.
Defined.

(** X12.  A term query on a [Date] serializes the date as its value, but
    the first option set on it drops the date: [typeof] of a [Date] is
    ['object'], so [boost(b)] spreads the date, which has no own
    enumerable property, and the result serializes as
    [{term: {field: {boost: b}}}]; [getValue] of the result returns that
    object. *)
Theorem term_option_on_a_date_loses_the_value :
  forall w field t b q w1,
    field <> "__proto__" ->
    Q_term field (VDate t) w = (Ok q, w1) ->
    result (toJSON q) w1 = Ok (obj [("term", obj [(field, VDate t)])]) /\
    exists q1 w2,
      TermQuery_boost q b w1 = (Ok q1, w2) /\
      result (toJSON q1) w2 =
        Ok (obj [("term", obj [(field, obj [("boost", VNum b)])])]) /\
      result (TermQuery_getValue q1) w2 = Ok (obj [("boost", VNum b)]).
Proof.
  intros w field t b q w1 Hf Hrun.
  destruct (TermQuery_constructor_run field (VDate t) w Hf) as (w1' & md & Hrun' & Hq).
  unfold Q_term in Hrun. rewrite Hrun' in Hrun. injection Hrun as <- <-.
  simpl in Hq.
  split.
  { unfold result. rewrite (toJSON_run _ _ _ Hq) by discriminate. crunch. reflexivity. }
  destruct (TermQuery_set_option_run "boost" "boost" _ (VNum b) _ _ _ _ _ _ Hq Hf)
    as (w2 & md1 & Hrun1 & Hq1).
  simpl in Hq1.
  exists (length (heap w1')), w2.
  split; [exact Hrun1|].
  split.
  { unfold result. rewrite (toJSON_run _ _ _ Hq1) by discriminate. crunch. reflexivity. }
  getters. rewrite !(bind_run _ _ _ _ _ (this_body_run _ _ _ Hq1)). reflexivity.
Qed.

Lemma term_option_on_a_date_loses_the_value_witness :
  result (toJSON 0) (after (Q_term "seen" (VDate 0)) sample_world) =
    Ok (obj [("term", obj [("seen", VDate 0)])]) /\
  exists q1 w2,
    TermQuery_boost 0 (num_of_Z 2) (after (Q_term "seen" (VDate 0)) sample_world)
      = (Ok q1, w2) /\
    result (toJSON q1) w2 =
      Ok (obj [("term", obj [("seen", obj [("boost", VNum (num_of_Z 2))])])]) /\
    result (TermQuery_getValue q1) w2 = Ok (obj [("boost", VNum (num_of_Z 2))]).
Proof.
  apply (term_option_on_a_date_loses_the_value sample_world "seen" 0 (num_of_Z 2) 0
           (after (Q_term "seen" (VDate 0)) sample_world)).
  - discriminate.
  - apply run_pair.
Defined.

(** *** Range queries *)







(** *** Validation and equality *)

Lemma quiet_ret {A} (a : A) : quiet (ret a).
Proof. now intros w. Qed.

Lemma quiet_lift {A} (o : outcome A) : quiet (lift o).
Proof. now intros w. Qed.

Lemma quiet_bind {A B} (m : M A) (k : A -> M B) :
  quiet m -> (forall a, quiet (k a)) -> quiet (bind m k).
Proof.
  intros Hm Hk w. specialize (Hm w). unfold after, bind in *.
  destruct (m w) as [[a|e] w']; simpl in *; subst; [apply Hk | reflexivity].
Qed.

Lemma quiet_try_catch {A} (m : M A) (h : error -> M A) :
  quiet m -> (forall e, quiet (h e)) -> quiet (try_catch m h).
Proof.
  intros Hm Hh w. specialize (Hm w). unfold after, try_catch in *.
  destruct (m w) as [[a|e] w']; simpl in *; subst; [reflexivity | apply Hh].
Qed.

Lemma quiet_deref r : quiet (deref r).
Proof. intros w. unfold after, deref. now destruct (heap w !! r). Qed.

Ltac quiet_step :=
  cbv beta zeta;
  match goal with
  | |- quiet (bind _ _) => apply quiet_bind; [| intros ?]
  | |- quiet (try_catch _ _) => apply quiet_try_catch; [| intros ?]
  | |- quiet (ret _) => apply quiet_ret
  | |- quiet (lift _) => apply quiet_lift
  | |- quiet (deref _) => apply quiet_deref
  | |- quiet (match ?x with _ => _ end) => destruct x
  | |- quiet (if ?x then _ else _) => destruct x
  end.

Ltac quiet_auto := repeat quiet_step.

Lemma quiet_toJSON this : quiet (toJSON this).
Proof. unfold toJSON. quiet_auto. Qed.

Lemma quiet_instanceof this c : quiet (instanceof this c).
Proof. unfold instanceof. quiet_auto. Qed.

Lemma quiet_this_body this : quiet (this_body this).
Proof. unfold this_body. quiet_auto. Qed.

Lemma quiet_BoolQuery_isEmpty this : quiet (BoolQuery_isEmpty this).
Proof. unfold BoolQuery_isEmpty. quiet_auto; apply quiet_this_body. Qed.

Lemma quiet_RangeQuery_hasBounds this : quiet (RangeQuery_hasBounds this).
Proof.
  unfold RangeQuery_hasBounds, RangeQuery_getBounds. quiet_auto; apply quiet_this_body.
Qed.

Lemma try_catch_returns {A} (m : M A) (h : error -> M A) w :
  quiet m -> (forall e, exists a, h e w = (Ok a, w)) ->
  exists a, try_catch m h w = (Ok a, w).
Proof.
  intros Hm Hh. specialize (Hm w). unfold after, try_catch in *.
  destruct (m w) as [[a|e] w']; simpl in *; subst; eauto.
Qed.

(** X15.  [Q.validate] never throws and changes nothing, whatever it is
    given: an exception of the serialization is caught and reported.
    The result is valid exactly when its list of errors is empty.  A
    term, nested, dis_max or boosting query whose body is an object is
    always valid. *)
Theorem validate_never_throws :
  forall query w,
    exists v,
      Q_validate query w = (Ok v, w) /\
      (valid v = true <-> errors v = []) /\
      (forall inst,
         heap w !! query = Some inst ->
         In (cls inst) [TermQuery; NestedQuery; DisMaxQuery; BoostingQuery] ->
         is_object (_body inst) = true ->
         v = mkValidation true []).
Proof.
  intros query w. unfold Q_validate. cbv zeta.
  match goal with
  | |- context [bind (try_catch ?m ?h) _] =>
      destruct (try_catch_returns m h w) as [errs Herrs]
  end.
  - quiet_auto;
      first [ apply quiet_toJSON | apply quiet_instanceof
            | apply quiet_BoolQuery_isEmpty | apply quiet_RangeQuery_hasBounds ].
  - intros e. eexists. reflexivity.
  - rewrite (bind_run _ _ _ _ _ Herrs). eexists. split; [reflexivity|].
    split; [simpl; destruct errs; split; intros; congruence|].
    intros inst Hl Hc Hb. simpl. revert Herrs.
    assert (instanceof query BoolQuery w = (Ok false, w) /\
            instanceof query RangeQuery w = (Ok false, w)) as [Hi1 Hi2].
    { unfold instanceof, bind, deref, ret. rewrite Hl.
      simpl in Hc. destruct Hc as [<-|[<-|[<-|[<-|[]]]]]; now split. }
    unfold try_catch.
    rewrite (bind_run _ _ _ _ _
               (toJSON_run _ _ _ Hl
                  ltac:(simpl in Hc; intros j;
                        destruct Hc as [<-|[<-|[<-|[<-|[]]]]]; discriminate))).
    assert (negb (truthy (_deepClone (_body inst))) ||
              typeof_not_object (_deepClone (_body inst)) = false) as ->
      by (destruct (_body inst); try discriminate; reflexivity).
    unfold bind, ret. rewrite Hi1, Hi2. now intros [= <-].
Qed.

(** X16.  On existing instances [equals] always returns, and it is
    reflexive, symmetric and transitive; [Q.equals] returns what
    [equals] returns and changes nothing. *)
Theorem equals_is_an_equivalence (toISOString : Z -> string) :
  forall w a b c ia ib ic,
    heap w !! a = Some ia ->
    heap w !! b = Some ib ->
    heap w !! c = Some ic ->
    result (equals toISOString a a) w = Ok true /\
    result (equals toISOString a b) w = result (equals toISOString b a) w /\
    (result (equals toISOString a b) w = Ok true ->
     result (equals toISOString b c) w = Ok true ->
     result (equals toISOString a c) w = Ok true) /\
    Q_equals toISOString a b w = (result (equals toISOString a b) w, w).
Proof.
  intros w a b c ia ib ic Ha Hb Hc.
  unfold result, Q_equals.
  rewrite (equals_run _ a a _ _ _ Ha Ha), (equals_run _ a b _ _ _ Ha Hb),
    (equals_run _ b a _ _ _ Hb Ha), (equals_run _ b c _ _ _ Hb Hc),
    (equals_run _ a c _ _ _ Ha Hc).
  cbn [fst].
  split; [f_equal; now apply same_text_eq|].
  split.
  { f_equal. destruct (same_text _ _) eqn:E1 at 1.
    - apply same_text_eq in E1. symmetry. apply same_text_eq. congruence.
    - destruct (same_text (stringify toISOString (serialized ib)) _) eqn:E2;
        [|reflexivity].
      apply same_text_eq in E2. symmetry in E2. apply same_text_eq in E2. congruence. }
  split; [|reflexivity].
  intros [= H1] [= H2]. f_equal.
  apply same_text_eq in H1, H2. apply same_text_eq. congruence.
Qed.

Lemma equals_is_an_equivalence_witness :
  result (equals (fun _ => "") 0 0) sample_boosted_world = Ok true /\
  result (equals (fun _ => "") 0 5) sample_boosted_world =
    result (equals (fun _ => "") 5 0) sample_boosted_world /\
  (result (equals (fun _ => "") 0 5) sample_boosted_world = Ok true ->
   result (equals (fun _ => "") 5 3) sample_boosted_world = Ok true ->
   result (equals (fun _ => "") 0 3) sample_boosted_world = Ok true) /\
  Q_equals (fun _ => "") 0 5 sample_boosted_world =
    (result (equals (fun _ => "") 0 5) sample_boosted_world, sample_boosted_world).
Proof.
  assert (exists ia, heap sample_boosted_world !! 0 = Some ia) as [ia Ha]
    by (eexists; vm_compute; reflexivity).
  assert (exists ib, heap sample_boosted_world !! 5 = Some ib) as [ib Hb]
    by (eexists; vm_compute; reflexivity).
  assert (exists ic, heap sample_boosted_world !! 3 = Some ic) as [ic Hc]
    by (eexists; vm_compute; reflexivity).
  exact (equals_is_an_equivalence (fun _ => "") sample_boosted_world 0 5 3 ia ib ic
           Ha Hb Hc).
Defined.

(** *** Path and query of a nested query *)

Lemma NestedQuery_path_run this p w fz fz' p0 j md :
  heap w !! this =
    Some (mkInstance NestedQuery
            (VObj fz [("nested", VObj fz' [("path", p0); ("query", j)])]) md) ->
  exists q' w' md',
    NestedQuery_path this p w = (Ok q', w') /\
    heap w' !! q' =
      Some (mkInstance NestedQuery
              (VObj true
                 [("nested",
                   VObj false [("path", if String.eqb p "" then _deepClone p0 else VStr p);
                               ("query", _deepClone j)])]) md').
Proof.
  intros Hl. unfold NestedQuery_path, set_option. exec_with Hl.
  destruct (String.eqb p ""); exec_with Hl.
  all: do 3 eexists; (split; [reflexivity|]); exec_with Hl; reflexivity.
Qed.

Lemma NestedQuery_query_run this r w fz fz' p0 j md ir :
  heap w !! this =
    Some (mkInstance NestedQuery
            (VObj fz [("nested", VObj fz' [("path", p0); ("query", j)])]) md) ->
  heap w !! r = Some ir ->
  exists q' w' md',
    NestedQuery_query this r w = (Ok q', w') /\
    heap w' !! q' =
      Some (mkInstance NestedQuery
              (VObj true
                 [("nested",
                   VObj false [("path", _deepClone p0); ("query", _deepClone j)])]) md').
Proof.
  intros Hl Hr. unfold NestedQuery_query.
  destruct ir as [c b m].
  destruct c; repeat first [exec_step Hl | rewrite Hr];
    destruct (truthy p0); repeat first [exec_step Hl | rewrite Hr].
  all: do 3 eexists; (split; [reflexivity|]).
  all: repeat first [exec_step Hl | rewrite Hr]; reflexivity.
Qed.

(** X17.  A nested query serializes as [{nested: {path, query}}], which
    [getPath] and [getQuery] read back.  [path(p)] replaces the path,
    unless [p] is the empty string: then the result keeps the old path.
    [query(r)] returns a copy of the receiver: [clone] rebuilds the
    instance from the receiver's own query, and [r] is lost. *)
Theorem nested_path_is_replaced_unless_empty :
  forall w path inner q w1 p r jr,
    NestedQuery_constructor (VStr path) inner w = (Ok q, w1) ->
    toJSON r w1 = (Ok jr, w1) ->
    exists jq,
      result (toJSON q) w1 =
        Ok (obj [("nested", obj [("path", VStr path); ("query", jq)])]) /\
      result (NestedQuery_getPath q) w1 = Ok (VStr path) /\
      result (NestedQuery_getQuery q) w1 = Ok jq /\
      (exists q' w2,
          NestedQuery_path q p w1 = (Ok q', w2) /\
          result (toJSON q') w2 =
            Ok (obj [("nested",
                      obj [("path", VStr (if String.eqb p "" then path else p));
                           ("query", jq)])])) /\
      (exists q' w2,
          NestedQuery_query q r w1 = (Ok q', w2) /\
          result (toJSON q') w2 =
            Ok (obj [("nested", obj [("path", VStr path); ("query", jq)])])).
Proof.
  intros w path inner q w1 p r jr Hrun Hr.
  assert (exists j, toJSON inner w = (Ok j, w)) as [j Hj].
  { unfold NestedQuery_constructor in Hrun.
    apply bind_ok_inv in Hrun as (j & w' & Hj & _).
    apply toJSON_ok_inv in Hj as Hj'. destruct Hj' as [-> _]. eauto. }
  destruct (NestedQuery_constructor_run (VStr path) inner w j Hj)
    as (w1' & md & Hrun' & Hq).
  rewrite Hrun' in Hrun. injection Hrun as <- <-.
  apply toJSON_ok_inv in Hr as (_ & ir & Hr & _).
  exists (_deepClone j).
  split.
  { unfold result. rewrite (toJSON_run _ _ _ Hq) by discriminate. simpl.
    now rewrite _deepClone_idempotent. }
  split.
  { unfold result, NestedQuery_getPath, get_option.
    rewrite (bind_run _ _ _ _ _ (this_body_run _ _ _ Hq)). reflexivity. }
  split.
  { unfold result, NestedQuery_getQuery, get_option.
    rewrite (bind_run _ _ _ _ _ (this_body_run _ _ _ Hq)). reflexivity. }
  split.
  - destruct (NestedQuery_path_run _ p _ _ _ _ _ _ Hq) as (q' & w2 & md' & Hrun2 & Hq').
    exists q', w2. split; [assumption|].
    unfold result. rewrite (toJSON_run _ _ _ Hq') by discriminate. simpl.
    rewrite !_deepClone_idempotent. now destruct (String.eqb p "").
  - destruct (NestedQuery_query_run _ r _ _ _ _ _ _ ir Hq Hr)
      as (q' & w2 & md' & Hrun2 & Hq').
    exists q', w2. split; [assumption|].
    unfold result. rewrite (toJSON_run _ _ _ Hq') by discriminate. simpl.
    now rewrite !_deepClone_idempotent.
Qed.

Lemma sample_nested_world_run :
  NestedQuery_constructor (VStr "user") 0 sample_term_world = (Ok 1, sample_nested_world).
Proof. vm_compute. reflexivity. Qed.

Lemma nested_path_is_replaced_unless_empty_witness :
  exists jq,
    result (toJSON 1) sample_nested_world =
      Ok (obj [("nested", obj [("path", VStr "user"); ("query", jq)])]) /\
    result (NestedQuery_getPath 1) sample_nested_world = Ok (VStr "user") /\
    result (NestedQuery_getQuery 1) sample_nested_world = Ok jq /\
    (exists q' w2,
        NestedQuery_path 1 "owner" sample_nested_world = (Ok q', w2) /\
        result (toJSON q') w2 =
          Ok (obj [("nested",
                    obj [("path", VStr (if String.eqb "owner" "" then "user" else "owner"));
                         ("query", jq)])])) /\
    (exists q' w2,
        NestedQuery_query 1 0 sample_nested_world = (Ok q', w2) /\
        result (toJSON q') w2 =
          Ok (obj [("nested", obj [("path", VStr "user"); ("query", jq)])])).
Proof.
  apply (nested_path_is_replaced_unless_empty sample_term_world "user" 0 1
           sample_nested_world "owner" 0
           (obj [("term", obj [("price", VNum (num_of_Z 100))])])).
  - exact sample_nested_world_run.
  - vm_compute. reflexivity.
Defined.

(** *** Boosting queries *)

Ltac exec2 Hl :=
  repeat first [ exec_step Hl
               | rewrite lookup_app_l by (rewrite ?length_app; simpl; lia) ].

Lemma BoostingQuery_constructor_run positive negative ratio w jp jn :
  toJSON positive w = (Ok jp, w) ->
  toJSON negative w = (Ok jn, w) ->
  exists w' md,
    BoostingQuery_constructor positive negative ratio w = (Ok (length (heap w)), w') /\
    heap w' !! length (heap w) =
      Some (mkInstance BoostingQuery
              (VObj true
                 [("boosting",
                   VObj false
                     [("positive", _deepClone jp); ("negative", _deepClone jn);
                      ("negative_boost",
                       _deepClone (match ratio with
                                   | VUndefined => VNum (Finite (1 # 5))
                                   | _ => ratio
                                   end))])]) md).
Proof.
  intros Hp Hn. unfold BoostingQuery_constructor.
  rewrite (bind_run _ _ _ _ _ Hp), (bind_run _ _ _ _ _ Hn).
  rewrite Query_constructor_run. do 2 eexists. split; [reflexivity|].
  simpl heap. rewrite list_lookup_middle by reflexivity. reflexivity.
Qed.

Lemma BoostingQuery_negativeBoost_run this v w fz fz' jp jn ratio md :
  heap w !! this =
    Some (mkInstance BoostingQuery
            (VObj fz [("boosting",
                       VObj fz' [("positive", jp); ("negative", jn);
                                 ("negative_boost", ratio)])]) md) ->
  out_of_range v = false ->
  ratio <> VUndefined ->
  exists q' w' md',
    BoostingQuery_negativeBoost this v w = (Ok q', w') /\
    heap w' !! q' =
      Some (mkInstance BoostingQuery
              (VObj true
                 [("boosting",
                   VObj false
                     [("positive", _deepClone jp); ("negative", _deepClone jn);
                      ("negative_boost",
                       if truthy (VNum v) then VNum v else _deepClone ratio)])]) md').
Proof.
  intros Hl Hv Hr. unfold BoostingQuery_negativeBoost, set_option. rewrite Hv.
  exec_with Hl.
  destruct v as [|neg|x]; [| |destruct (Qeq_bool x 0)]; exec2 Hl.
  all: do 3 eexists; (split; [reflexivity|]); exec2 Hl.
  all: destruct ratio; try congruence; reflexivity.
Qed.

Lemma BoostingQuery_set_query_run name this r w fz fz' jp jn ratio md ir :
  heap w !! this =
    Some (mkInstance BoostingQuery
            (VObj fz [("boosting",
                       VObj fz' [("positive", jp); ("negative", jn);
                                 ("negative_boost", ratio)])]) md) ->
  heap w !! r = Some ir ->
  ratio <> VUndefined ->
  In name ["positive"; "negative"] ->
  exists q' w' md',
    BoostingQuery_set_query name this r w = (Ok q', w') /\
    heap w' !! q' =
      Some (mkInstance BoostingQuery
              (VObj true
                 [("boosting",
                   VObj false
                     [("positive", _deepClone jp); ("negative", _deepClone jn);
                      ("negative_boost", _deepClone ratio)])]) md').
Proof.
  intros Hl Hr Hratio Hname. unfold BoostingQuery_set_query.
  destruct ir as [c b m].
  simpl in Hname. destruct Hname as [<-|[<-|[]]];
    destruct c; repeat first [exec_step Hl | rewrite Hr];
    destruct (truthy ratio); repeat first [exec_step Hl | rewrite Hr
                 | rewrite lookup_app_l by (rewrite ?length_app; simpl; lia)].
  all: do 3 eexists; (split; [reflexivity|]).
  all: repeat first [exec_step Hl | rewrite Hr
                 | rewrite lookup_app_l by (rewrite ?length_app; simpl; lia)].
  all: destruct ratio; try congruence; reflexivity.
Qed.

(** X18.  A boosting query built without a ratio has the ratio 0.2.
    [negativeBoost(v)] with [v] in range replaces the ratio only when
    [v] is truthy: for [0] (and [NaN]) the result keeps the old ratio.
    [positive(r)] and [negative(r)] return a copy of the receiver:
    [clone] rebuilds the instance from the receiver's own queries. *)
Theorem boosting_ratio_is_replaced_unless_falsy :
  forall w positive negative ratio q w1 v r jr,
    BoostingQuery_constructor positive negative
      (match ratio with Some n => VNum n | None => VUndefined end) w = (Ok q, w1) ->
    out_of_range v = false ->
    toJSON r w1 = (Ok jr, w1) ->
    exists jp jn,
      result (toJSON q) w1 =
        Ok (obj [("boosting",
                  obj [("positive", jp); ("negative", jn);
                       ("negative_boost", VNum (default (Finite (1 # 5)) ratio))])]) /\
      (exists q' w2,
          BoostingQuery_negativeBoost q v w1 = (Ok q', w2) /\
          result (toJSON q') w2 =
            Ok (obj [("boosting",
                      obj [("positive", jp); ("negative", jn);
                           ("negative_boost",
                            VNum (if truthy (VNum v) then v
                                  else default (Finite (1 # 5)) ratio))])])) /\
      (exists q' w2,
          BoostingQuery_positive q r w1 = (Ok q', w2) /\
          result (toJSON q') w2 =
            Ok (obj [("boosting",
                      obj [("positive", jp); ("negative", jn);
                           ("negative_boost",
                            VNum (default (Finite (1 # 5)) ratio))])])) /\
      (exists q' w2,
          BoostingQuery_negative q r w1 = (Ok q', w2) /\
          result (toJSON q') w2 =
            Ok (obj [("boosting",
                      obj [("positive", jp); ("negative", jn);
                           ("negative_boost",
                            VNum (default (Finite (1 # 5)) ratio))])])).
Proof.
  intros w positive negative ratio q w1 v r jr Hrun Hv Hr.
  assert (exists jp jn, toJSON positive w = (Ok jp, w) /\ toJSON negative w = (Ok jn, w))
    as (jp & jn & Hp & Hn).
  { unfold BoostingQuery_constructor in Hrun.
    apply bind_ok_inv in Hrun as (jp & w' & Hp & Hrun).
    apply toJSON_ok_inv in Hp as Hp'. destruct Hp' as [-> _].
    apply bind_ok_inv in Hrun as (jn & w' & Hn & _).
    apply toJSON_ok_inv in Hn as Hn'. destruct Hn' as [-> _]. eauto. }
  destruct (BoostingQuery_constructor_run positive negative
              (match ratio with Some n => VNum n | None => VUndefined end) w jp jn Hp Hn)
    as (w1' & md & Hrun' & Hq).
  rewrite Hrun' in Hrun. injection Hrun as <- <-.
  assert (_deepClone
            (match match ratio with Some n => VNum n | None => VUndefined end with
             | VUndefined => VNum (Finite (1 # 5))
             | _ => match ratio with Some n => VNum n | None => VUndefined end
             end) = VNum (default (Finite (1 # 5)) ratio)) as Eratio
    by (now destruct ratio).
  rewrite Eratio in Hq.
  apply toJSON_ok_inv in Hr as (_ & ir & Hr & _).
  assert (VNum (default (Finite (1 # 5)) ratio) <> VUndefined) as Hne by discriminate.
  exists (_deepClone jp), (_deepClone jn).
  split.
  { unfold result. rewrite (toJSON_run _ _ _ Hq) by discriminate. simpl.
    now rewrite !_deepClone_idempotent. }
  split.
  { destruct (BoostingQuery_negativeBoost_run _ v _ _ _ _ _ _ _ Hq Hv Hne)
      as (q' & w2 & md' & Hrun2 & Hq').
    exists q', w2. split; [assumption|].
    unfold result. rewrite (toJSON_run _ _ _ Hq') by discriminate.
    destruct (truthy (VNum v)); simpl; now rewrite !_deepClone_idempotent. }
  split.
  - destruct (BoostingQuery_set_query_run "positive" _ r _ _ _ _ _ _ _ ir Hq Hr
                Hne ltac:(simpl; auto))
      as (q' & w2 & md' & Hrun2 & Hq').
    exists q', w2. split; [assumption|].
    unfold result. rewrite (toJSON_run _ _ _ Hq') by discriminate. simpl.
    now rewrite !_deepClone_idempotent.
  - destruct (BoostingQuery_set_query_run "negative" _ r _ _ _ _ _ _ _ ir Hq Hr
                Hne ltac:(simpl; auto))
      as (q' & w2 & md' & Hrun2 & Hq').
    exists q', w2. split; [assumption|].
    unfold result. rewrite (toJSON_run _ _ _ Hq') by discriminate. simpl.
    now rewrite !_deepClone_idempotent.
Qed.

Lemma sample_boosting_world_run :
  BoostingQuery_constructor 0 0
    (match @None number with Some n => VNum n | None => VUndefined end)
    sample_term_world = (Ok 1, sample_boosting_world).
Proof. vm_compute. reflexivity. Qed.

Lemma boosting_ratio_is_replaced_unless_falsy_witness :
  exists jp jn,
    result (toJSON 1) sample_boosting_world =
      Ok (obj [("boosting",
                obj [("positive", jp); ("negative", jn);
                     ("negative_boost", VNum (default (Finite (1 # 5)) None))])]) /\
    (exists q' w2,
        BoostingQuery_negativeBoost 1 zero sample_boosting_world = (Ok q', w2) /\
        result (toJSON q') w2 =
          Ok (obj [("boosting",
                    obj [("positive", jp); ("negative", jn);
                         ("negative_boost",
                          VNum (if truthy (VNum zero) then zero
                                else default (Finite (1 # 5)) None))])])) /\
    (exists q' w2,
        BoostingQuery_positive 1 0 sample_boosting_world = (Ok q', w2) /\
        result (toJSON q') w2 =
          Ok (obj [("boosting",
                    obj [("positive", jp); ("negative", jn);
                         ("negative_boost",
                          VNum (default (Finite (1 # 5)) None))])])) /\
    (exists q' w2,
        BoostingQuery_negative 1 0 sample_boosting_world = (Ok q', w2) /\
        result (toJSON q') w2 =
          Ok (obj [("boosting",
                    obj [("positive", jp); ("negative", jn);
                         ("negative_boost",
                          VNum (default (Finite (1 # 5)) None))])])).
Proof.
  apply (boosting_ratio_is_replaced_unless_falsy sample_term_world 0 0 None 1
           sample_boosting_world zero 0
           (obj [("term", obj [("price", VNum (num_of_Z 100))])])).
  - exact sample_boosting_world_run.
  - reflexivity.
  - vm_compute. reflexivity.
Defined.

(** *** Disjunctions *)

Lemma DisMaxQuery_createNew_run this nb op w fz fz1 fz2 items md :
  heap w !! this =
    Some (mkInstance DisMaxQuery
            (VObj fz [("dis_max", VObj fz1 [("queries", VArr fz2 items)])]) md) ->
  exists q' w' md',
    _createNew this nb op w = (Ok q', w') /\
    heap w' !! q' =
      Some (mkInstance DisMaxQuery
              (VObj true
                 [("dis_max",
                   VObj false [("queries", VArr false (map _deepClone items))])])
              md').
Proof.
  intros Hl.
  unfold _createNew, clone, DisMaxQuery_clone, DisMaxQuery_constructor.
  set (F := mapM (fun queryJson => Query_constructor (Anonymous queryJson) (obj []) None)).
  set (G := mapM toJSON).
  pose proof temporary_queries_run as HF. fold F in HF. fold G in HF.
  clearbody F G.
  exec_with Hl.
  match goal with
  | HF' : forall items w, exists refs w', ?f items w = _ /\ _
    |- context [?f ?l ?W] =>
      destruct (HF' l W) as (refs & w' & HrunF & Hev & Hback); rewrite HrunF
  end.
  repeat first [exec_step Hl | rewrite Hback].
  do 3 eexists. split; [reflexivity|].
  repeat first [exec_step Hl | rewrite Hback]. reflexivity.
Qed.

Lemma mapM_toJSON_heap qs w w' js :
  heap w' = heap w -> mapM toJSON qs w = (Ok js, w) -> mapM toJSON qs w' = (Ok js, w').
Proof.
  intros Hh. revert js. induction qs as [|q qs IH]; simpl; intros js.
  - now intros [= <-].
  - intros H. apply bind_ok_inv in H as (j & w1 & H1 & H).
    apply bind_ok_inv in H as (js' & w2 & H2 & H).
    apply toJSON_ok_inv in H1 as (-> & inst & Hl & ->).
    apply mapM_toJSON_ok_inv in H2 as Hw. subst w2.
    injection H as <-.
    assert (toJSON q w' = (Ok (serialized inst), w')) as Hq
      by (rewrite toJSON_serialized, Hh, Hl; reflexivity).
    rewrite (bind_run _ _ _ _ _ Hq), (bind_run _ _ _ _ _ (IH _ H2)). reflexivity.
Qed.

(** X19.  A disjunction built from [n] queries reports [n] as its query
    count, and every one of [queries], [addQueries], [tieBreaker] (in
    range) and [boost] returns an instance that serializes exactly as
    the receiver, [{dis_max: {queries}}]: [clone] rebuilds the instance
    from the receiver's own queries alone. *)
Theorem dis_max_mutators_return_a_copy_of_the_receiver :
  forall w qs q w1 queries more tie b js1 js2,
    DisMaxQuery_constructor qs w = (Ok q, w1) ->
    mapM toJSON queries w1 = (Ok js1, w1) ->
    mapM toJSON more w1 = (Ok js2, w1) ->
    out_of_range tie = false ->
    exists items,
      result (toJSON q) w1 =
        Ok (obj [("dis_max", obj [("queries", arr items)])]) /\
      result (DisMaxQuery_getQueryCount q) w1 = Ok (VNum (num_of_nat (length qs))) /\
      forall m, In m (dis_max_calls queries more tie b) ->
        exists q' w2,
          invoke q m w1 = (Ok q', w2) /\
          result (toJSON q') w2 =
            Ok (obj [("dis_max", obj [("queries", arr items)])]).
Proof.
  intros w qs q w1 queries more tie b js1 js2 Hrun Hq1 Hq2 Htie.
  assert (exists js, mapM toJSON qs w = (Ok js, w) /\ length js = length qs)
    as (js & Hjs & Hlen).
  { unfold DisMaxQuery_constructor in Hrun.
    apply bind_ok_inv in Hrun as (js & w0 & Hjs & _).
    apply mapM_toJSON_ok_inv in Hjs as Hw0. subst w0. exists js. split; [assumption|].
    clear - Hjs. revert js Hjs. induction qs as [|x qs IH]; intros js H.
    - now injection H as <-.
    - simpl in H. apply bind_ok_inv in H as (j & w1 & Hj & H).
      apply toJSON_ok_inv in Hj as (-> & _).
      apply bind_ok_inv in H as (js' & w2 & Hjs & H).
      apply mapM_toJSON_ok_inv in Hjs as Hw. subst w2.
      injection H as <-. simpl. now rewrite (IH _ Hjs). }
  destruct (DisMaxQuery_constructor_run qs w js Hjs) as (w1' & md & Hrun' & Hq).
  rewrite Hrun' in Hrun. injection Hrun as <- <-.
  exists (map _deepClone js).
  split.
  { unfold result. rewrite (toJSON_run _ _ _ Hq) by discriminate. simpl.
    now rewrite map__deepClone_idempotent. }
  split.
  { unfold result, DisMaxQuery_getQueryCount, DisMaxQuery_getQueries, get_option.
    exec_with Hq. now rewrite length_map, Hlen. }
  intros m Hm.
  assert (exists nb op wr,
             heap wr = heap w1' /\
             invoke (length (heap w)) m w1' =
               _createNew (length (heap w)) nb op wr) as (nb & op & wr & Hh & ->).
  { simpl in Hm. destruct Hm as [<-|[<-|[<-|[<-|[]]]]]; simpl.
    - unfold DisMaxQuery_queries.
      do 2 eexists. exists (recorded w1'). split; [reflexivity|].
      assert (_recordOperation "queries" [AQueries queries] w1' =
                (Ok (mkOperation "queries" [LInstances queries]
                       (now w1' (reads w1'))
                       ("op_" ++ Z_to_string (now w1' (S (reads w1'))) ++ "_" ++
                        random w1' (draws w1'))%string), recorded w1')) as Hop
        by reflexivity.
      rewrite (bind_run _ _ _ _ _ Hop).
      rewrite (bind_run _ _ _ _ _ (this_body_run _ (recorded w1') _ Hq)).
      simpl _body. unfold lift at 1. unfold bind at 1. simpl prop. cbv iota beta.
      rewrite (bind_run _ _ _ _ _ (mapM_toJSON_heap _ w1' (recorded w1') _ eq_refl Hq1)).
      reflexivity.
    - unfold DisMaxQuery_addQueries.
      destruct (_serializeArgs_queries_run _ _ _ Hq2) as [sargs Hs].
      destruct (_recordOperation_run "addQueries" _ _ _ Hs) as [op Hop].
      do 2 eexists. exists (recorded w1'). split; [reflexivity|].
      rewrite (bind_run _ _ _ _ _ Hop).
      rewrite (bind_run _ _ _ _ _ (this_body_run _ (recorded w1') _ Hq)).
      simpl _body. unfold lift at 1. unfold bind at 1. simpl prop. cbv iota beta.
      unfold lift at 1. unfold bind at 1. simpl prop. cbv iota beta.
      unfold lift at 1. unfold bind at 1. simpl elements. cbv iota beta.
      rewrite (bind_run _ _ _ _ _ (mapM_toJSON_heap _ w1' (recorded w1') _ eq_refl Hq2)).
      reflexivity.
    - unfold DisMaxQuery_tieBreaker. rewrite Htie. unfold set_option.
      assert (exists op, _recordOperation "tieBreaker" [AValue (VNum tie)] w1' =
                (Ok op, recorded w1')) as [op Hop] by (eexists; reflexivity).
      do 2 eexists. exists (recorded w1'). split; [reflexivity|].
      rewrite (bind_run _ _ _ _ _ Hop).
      rewrite (bind_run _ _ _ _ _ (this_body_run _ (recorded w1') _ Hq)).
      reflexivity.
    - unfold DisMaxQuery_boost, set_option.
      assert (exists op, _recordOperation "boost" [AValue (VNum b)] w1' =
                (Ok op, recorded w1')) as [op Hop] by (eexists; reflexivity).
      do 2 eexists. exists (recorded w1'). split; [reflexivity|].
      rewrite (bind_run _ _ _ _ _ Hop).
      rewrite (bind_run _ _ _ _ _ (this_body_run _ (recorded w1') _ Hq)).
      reflexivity. }
  rewrite <- Hh in Hq.
  destruct (DisMaxQuery_createNew_run _ nb op wr _ _ _ _ _ Hq)
    as (q' & w2 & md' & Hrun2 & Hq').
  exists q', w2. split; [assumption|].
  unfold result. rewrite (toJSON_run _ _ _ Hq') by discriminate. simpl.
  now rewrite !map__deepClone_idempotent.
Qed.

Lemma sample_dis_max_world_run :
  DisMaxQuery_constructor [0] sample_term_world = (Ok 1, sample_dis_max_world).
Proof. vm_compute. reflexivity. Qed.

Lemma dis_max_mutators_return_a_copy_of_the_receiver_witness :
  exists items,
    result (toJSON 1) sample_dis_max_world =
      Ok (obj [("dis_max", obj [("queries", arr items)])]) /\
    result (DisMaxQuery_getQueryCount 1) sample_dis_max_world =
      Ok (VNum (num_of_nat (length [0]))) /\
    forall m, In m (dis_max_calls [0] [0; 0] (Finite (1 # 2)) (num_of_Z 2)) ->
      exists q' w2,
        invoke 1 m sample_dis_max_world = (Ok q', w2) /\
        result (toJSON q') w2 =
          Ok (obj [("dis_max", obj [("queries", arr items)])]).
Proof.
  apply (dis_max_mutators_return_a_copy_of_the_receiver sample_term_world [0] 1
           sample_dis_max_world [0] [0; 0] (Finite (1 # 2)) (num_of_Z 2)
           [obj [("term", obj [("price", VNum (num_of_Z 100))])]]
           [obj [("term", obj [("price", VNum (num_of_Z 100))])];
            obj [("term", obj [("price", VNum (num_of_Z 100))])]]).
  - exact sample_dis_max_world_run.
  - vm_compute. reflexivity.
  - vm_compute. reflexivity.
  - reflexivity.
Defined.

(** *** Boolean compounds *)

Lemma clean_fixed v : clean v <-> _deepClone v = v.
Proof.
  split.
  - intros [Hw Ht]. now rewrite _deepClone_thaw.
  - intros H. unfold clean. rewrite <- H. apply _deepClone_well_formed.
Qed.

Lemma clean__deepClone v : clean (_deepClone v).
Proof. apply _deepClone_well_formed. Qed.

Lemma map_values_define (f : value -> value) k v ps :
  map (fun kv => (fst kv, f (snd kv))) (define k v ps) =
    define k (f v) (map (fun kv => (fst kv, f (snd kv))) ps).
Proof.
  induction ps as [|[k' v'] ps IH]; simpl; [reflexivity|].
  destruct (String.eqb k k'); [reflexivity|].
  destruct (before k k'); [reflexivity|].
  simpl. now rewrite IH.
Qed.

Lemma clean_define k v ps :
  k <> "__proto__" -> clean v -> clean (obj ps) -> clean (obj (define k v ps)).
Proof.
  intros Hk [Hwv Htv] [[Ho Ha] Ht]. split.
  - simpl. split; [now apply define_ordered | now apply define_all].
  - simpl in *. injection Ht as Ht. f_equal.
    rewrite map_values_define, Htv. now rewrite Ht.
Qed.

Lemma clean_lookup ps k v :
  clean (obj ps) -> lookup_prop k ps = Some v -> clean v.
Proof.
  intros [Hw Ht] Hl. split; [eapply well_formed_lookup; eassumption|].
  simpl in Ht. injection Ht as Ht.
  assert (lookup_prop k (map (fun kv => (fst kv, thaw (snd kv))) ps) = Some (thaw v))
    as H by (rewrite lookup_map_values, Hl; reflexivity).
  rewrite Ht, Hl in H. now injection H.
Qed.

Lemma clean_arr items : clean (arr items) <-> Forall clean items.
Proof.
  unfold clean. simpl. rewrite All_Forall. split.
  - intros [Hw Ht]. injection Ht as Ht.
    induction items as [|x items IH]; [constructor|].
    apply Forall_cons_1 in Hw as [Hx Hw]. simpl in Ht. injection Ht as Hx' Ht.
    constructor; auto.
  - intros H. split.
    + eapply Forall_impl; [eassumption|]. now intros x [].
    + f_equal. induction H as [|x items [_ Hx] _ IH]; simpl; [reflexivity|].
      now rewrite Hx, IH.
Qed.

Lemma clean_elements v items :
  clean v -> elements v = Ok items -> Forall clean items.
Proof.
  intros Hc He. destruct v; try discriminate; simpl in He; injection He as <-.
  - clear Hc. induction s as [|c s IH]; simpl; constructor; [now split | assumption].
  - destruct frozen; [destruct Hc as [_ Ht]; discriminate|].
    now apply clean_arr.
Qed.

Lemma clean_serialized qs w js :
  Forall (fun q => is_variant q w) qs ->
  mapM toJSON qs w = (Ok js, w) ->
  Forall clean js.
Proof.
  intros Hv H. pose proof (serialized_variants_are_clones _ _ _ Hv H) as Hfix.
  clear - Hfix. induction js as [|j js IH]; [constructor|].
  simpl in Hfix. injection Hfix as Hj Hjs. constructor; [now apply clean_fixed | auto].
Qed.

Lemma plain_bool_clauses w b bps k :
  plain_bool w b bps ->
  result (clauses b k) w = Ok (default VUndefined (lookup_prop (slot_key k) bps)).
Proof.
  intros (fz & md & Hl & Hfix). unfold result, clauses.
  rewrite (bind_run _ _ _ _ _ (toJSON_run _ _ _ Hl ltac:(discriminate))).
  simpl _body. 
  assert (_deepClone (VObj fz [("bool", VObj false bps)]) =
            obj [("bool", obj bps)]) as ->.
  { simpl. unfold assign. simpl. change (VObj false (clone_into _deepClone bps []))
      with (_deepClone (obj bps)). now rewrite Hfix. }
  reflexivity.
Qed.

Lemma Q_bool_is_plain w :
  exists b w', Q_bool w = (Ok b, w') /\ plain_bool w' b [].
Proof.
  destruct (BoolQuery_constructor_default_run w) as (w' & md & Hrun & _ & Hb).
  exists (length (heap w)), w'. split; [exact Hrun|].
  exists true, md. split; [exact Hb | reflexivity].
Qed.

(** A clause mutator on a plain compound returns a plain compound, with
    the slot extended. *)
Lemma add_clause_on_plain_bool :
  forall w b bps k query js old,
    plain_bool w b bps ->
    elements (js_or (default VUndefined (lookup_prop (slot_key k) bps)) (arr []))
      = Ok old ->
    Forall (fun q => is_variant q w) (as_array query) ->
    mapM toJSON (as_array query) w = (Ok js, w) ->
    exists c w',
      invoke b (add_clause k query) w = (Ok c, w') /\
      plain_bool w' c (define (slot_key k) (arr (old ++ js)) bps).
Proof.
  intros w b bps k query js old Hplain Hold Hv Hjs.
  pose proof Hplain as (fz & md & Hl & Hfix).
  apply clean_fixed in Hfix as Hclean.
  assert (clean (arr (old ++ js))) as HcleanA.
  { apply clean_arr, Forall_app. split; [|eapply clean_serialized; eassumption].
    eapply clean_elements; [|exact Hold].
    destruct (lookup_prop (slot_key k) bps) as [v|] eqn:E; simpl.
    - unfold js_or. destruct (truthy v); [eapply clean_lookup; eassumption|].
      now split.
    - now split. }
  pose proof (clean_define _ _ _ (slot_key_not_proto k) HcleanA Hclean) as Hnew.
  apply clean_fixed in Hnew.
  rewrite add_clause_invoke.
  destruct (BoolQuery_add_clause_run
              (match k with
               | Must => "must" | Should => "should" | Filter => "filter"
               | MustNot => "mustNot"
               end) (slot_key k) b query w _ _ _ _ js old Hl Hold Hjs)
    as (w' & md' & Hrun & Hc).
  assert (spread (VObj false bps) [] = bps) as Es
    by (unfold spread; simpl; apply fold_define_self; apply Hclean).
  rewrite Es, Hnew in Hc.
  exists (length (heap w)), w'. split; [exact Hrun|].
  exists true, md'; split; assumption.
Qed.

(** X20.  On a boolean compound, [must], [should], [filter] and
    [mustNot] append the serialized arguments, in order, to the array
    of their slot (an absent slot counts as empty), whether given one
    query or an array.  The other slots of the result are those of the
    receiver, and the receiver serializes as before. *)
Theorem bool_clause_mutators_append :
  forall w b bps k query js old,
    plain_bool w b bps ->
    elements (js_or (default VUndefined (lookup_prop (slot_key k) bps)) (arr []))
      = Ok old ->
    Forall (fun q => is_variant q w) (as_array query) ->
    mapM toJSON (as_array query) w = (Ok js, w) ->
    exists c w',
      invoke b (add_clause k query) w = (Ok c, w') /\
      plain_bool w' c (define (slot_key k) (arr (old ++ js)) bps) /\
      result (clauses c k) w' = Ok (arr (old ++ js)) /\
      (forall k', k' <> k -> result (clauses c k') w' = result (clauses b k') w) /\
      result (toJSON b) w' = result (toJSON b) w.
Proof.
  intros w b bps k query js old Hplain Hold Hv Hjs.
  destruct (add_clause_on_plain_bool w b bps k query js old Hplain Hold Hv Hjs)
    as (c & w' & Hrun & Hplain').
  pose proof (invoke_evolves _ _ _ _ _ Hrun) as Hev.
  exists c, w'. split; [exact Hrun|].
  split; [exact Hplain'|].
  split.
  { rewrite (plain_bool_clauses _ _ _ k Hplain'), lookup_define.
    now rewrite String.eqb_refl. }
  split.
  { intros k' Hk'.
    rewrite (plain_bool_clauses _ _ _ k' Hplain'), (plain_bool_clauses _ _ _ k' Hplain).
    rewrite lookup_define.
    assert (String.eqb (slot_key k') (slot_key k) = false) as ->
      by (destruct k, k'; try reflexivity; congruence).
    reflexivity. }
  destruct Hplain as (fz & md & Hl & _).
  eapply toJSON_evolves; eassumption.
Qed.

Lemma sample_bool_is_plain : plain_bool sample_shared_world 1 [].
Proof. do 2 eexists. split; [vm_compute; reflexivity | reflexivity]. Qed.

Lemma bool_clause_mutators_append_witness :
  exists c w',
    invoke 1 (add_clause Filter (One 0)) sample_shared_world = (Ok c, w') /\
    plain_bool w' c
      (define (slot_key Filter)
         (arr ([] ++ [obj [("term", obj [("active", VBool true)])]])) []) /\
    result (clauses c Filter) w' =
      Ok (arr ([] ++ [obj [("term", obj [("active", VBool true)])]])) /\
    (forall k', k' <> Filter ->
       result (clauses c k') w' = result (clauses 1 k') sample_shared_world) /\
    result (toJSON 1) w' = result (toJSON 1) sample_shared_world.
Proof.
  apply (bool_clause_mutators_append sample_shared_world 1 [] Filter (One 0)
           [obj [("term", obj [("active", VBool true)])]] []).
  - exact sample_bool_is_plain.
  - reflexivity.
  - constructor; [|constructor].
    eexists. split; [vm_compute; reflexivity | discriminate].
  - vm_compute. reflexivity.
Defined.

Lemma variants_evolve qs w w' :
  evolves w w' -> Forall (fun q => is_variant q w) qs ->
  Forall (fun q => is_variant q w') qs.
Proof.
  intros Hev H. eapply Forall_impl; [exact H|].
  intros q Hq. eapply is_variant_evolves; eassumption.
Qed.

Lemma js_or_length fz items :
  js_or (prop_opt (VArr fz items) "length") (VNum zero) = count_of (length items).
Proof. destruct items; reflexivity. Qed.

Ltac props_of_bool :=
  repeat (match goal with
          | |- context [prop (VObj ?fz ?ps) ?k] =>
              let v := eval cbv in (prop (VObj fz ps) k) in
              change (prop (VObj fz ps) k) with v
          end; cbv iota beta).

(** X21.  Built by [Q.bool().must(a).should(b).filter(c).mustNot(d)], a
    compound serializes with the four slots in the order of the calls,
    each holding its serialized queries; [getClauseCounts] returns the
    four lengths, and [isEmpty] holds exactly when all four arrays are
    empty. *)
Theorem bool_builder_fills_the_four_slots :
  forall w must should filter mustNot j1 j2 j3 j4,
    Forall (fun q => is_variant q w) (must ++ should ++ filter ++ mustNot) ->
    mapM toJSON must w = (Ok j1, w) ->
    mapM toJSON should w = (Ok j2, w) ->
    mapM toJSON filter w = (Ok j3, w) ->
    mapM toJSON mustNot w = (Ok j4, w) ->
    exists b0 w0 b1 w1 b2 w2 b3 w3 b4 w4,
      Q_bool w = (Ok b0, w0) /\
      BoolQuery_must b0 (Many must) w0 = (Ok b1, w1) /\
      BoolQuery_should b1 (Many should) w1 = (Ok b2, w2) /\
      BoolQuery_filter b2 (Many filter) w2 = (Ok b3, w3) /\
      BoolQuery_mustNot b3 (Many mustNot) w3 = (Ok b4, w4) /\
      result (toJSON b4) w4 =
        Ok (obj [("bool", obj [("must", arr j1); ("should", arr j2);
                               ("filter", arr j3); ("must_not", arr j4)])]) /\
      result (BoolQuery_getClauseCounts b4) w4 =
        Ok (mkClauseCounts (count_of (length must)) (count_of (length should))
                           (count_of (length filter)) (count_of (length mustNot))) /\
      result (BoolQuery_isEmpty b4) w4 =
        Ok (match must ++ should ++ filter ++ mustNot with [] => true | _ => false end).
Proof.
  intros w must should filter mustNot j1 j2 j3 j4 Hv H1 H2 H3 H4.
  apply Forall_app in Hv as [Hv1 Hv]. apply Forall_app in Hv as [Hv2 Hv].
  apply Forall_app in Hv as [Hv3 Hv4].
  destruct (Q_bool_is_plain w) as (b0 & w0 & Hrun0 & Hp0).
  pose proof (safe_run _ _ _ _ (safe_BoolQuery_constructor VUndefined) Hrun0) as Hev0.
  destruct (add_clause_on_plain_bool w0 b0 [] Must (Many must) j1 [] Hp0 eq_refl
              (variants_evolve _ _ _ Hev0 Hv1) (mapM_toJSON_stable _ _ _ _ Hev0 H1))
    as (b1 & w1 & Hrun1 & Hp1).
  pose proof (invoke_evolves _ _ _ _ _ Hrun1) as Hev1.
  pose proof (evolves_trans _ _ _ Hev0 Hev1) as Hev01.
  destruct (add_clause_on_plain_bool w1 b1 _ Should (Many should) j2 [] Hp1 eq_refl
              (variants_evolve _ _ _ Hev01 Hv2) (mapM_toJSON_stable _ _ _ _ Hev01 H2))
    as (b2 & w2 & Hrun2 & Hp2).
  pose proof (invoke_evolves _ _ _ _ _ Hrun2) as Hev2.
  pose proof (evolves_trans _ _ _ Hev01 Hev2) as Hev02.
  destruct (add_clause_on_plain_bool w2 b2 _ Filter (Many filter) j3 [] Hp2 eq_refl
              (variants_evolve _ _ _ Hev02 Hv3) (mapM_toJSON_stable _ _ _ _ Hev02 H3))
    as (b3 & w3 & Hrun3 & Hp3).
  pose proof (invoke_evolves _ _ _ _ _ Hrun3) as Hev3.
  pose proof (evolves_trans _ _ _ Hev02 Hev3) as Hev03.
  destruct (add_clause_on_plain_bool w3 b3 _ MustNot (Many mustNot) j4 [] Hp3 eq_refl
              (variants_evolve _ _ _ Hev03 Hv4) (mapM_toJSON_stable _ _ _ _ Hev03 H4))
    as (b4 & w4 & Hrun4 & Hp4).
  exists b0, w0, b1, w1, b2, w2, b3, w3, b4, w4.
  split; [exact Hrun0|]. split; [exact Hrun1|]. split; [exact Hrun2|].
  split; [exact Hrun3|]. split; [exact Hrun4|].
  simpl in Hp4. destruct Hp4 as (fz & md & Hl & Hfix).
  split.
  { unfold result. rewrite (toJSON_run _ _ _ Hl) by discriminate. simpl _body.
    simpl. unfold assign. simpl.
    change (VObj false (clone_into _deepClone ?ps [])) with (_deepClone (obj ps)).
    simpl in Hfix. unfold assign in Hfix. simpl in Hfix. now rewrite Hfix. }
  split.
  { unfold result, BoolQuery_getClauseCounts.
    rewrite (bind_run _ _ _ _ _ (this_body_run _ _ _ Hl)). simpl _body.
    unfold bind, lift, ret. props_of_bool.
    unfold arr. rewrite !js_or_length.
    rewrite (mapM_toJSON_length _ _ _ H1), (mapM_toJSON_length _ _ _ H2),
      (mapM_toJSON_length _ _ _ H3), (mapM_toJSON_length _ _ _ H4). reflexivity. }
  unfold result, BoolQuery_isEmpty.
  rewrite (bind_run _ _ _ _ _ (this_body_run _ _ _ Hl)). simpl _body.
  unfold bind, lift, ret. props_of_bool.
  pose proof (mapM_toJSON_length _ _ _ H1). pose proof (mapM_toJSON_length _ _ _ H2).
  pose proof (mapM_toJSON_length _ _ _ H3). pose proof (mapM_toJSON_length _ _ _ H4).
  destruct must, j1; try discriminate; destruct should, j2; try discriminate;
    destruct filter, j3; try discriminate; destruct mustNot, j4; try discriminate;
    reflexivity.
Qed.

Lemma bool_builder_fills_the_four_slots_witness :
  exists b0 w0 b1 w1 b2 w2 b3 w3 b4 w4,
    Q_bool sample_term_world = (Ok b0, w0) /\
    BoolQuery_must b0 (Many [0]) w0 = (Ok b1, w1) /\
    BoolQuery_should b1 (Many []) w1 = (Ok b2, w2) /\
    BoolQuery_filter b2 (Many [0; 0]) w2 = (Ok b3, w3) /\
    BoolQuery_mustNot b3 (Many []) w3 = (Ok b4, w4) /\
    result (toJSON b4) w4 =
      Ok (obj [("bool",
                obj [("must", arr [obj [("term", obj [("price", VNum (num_of_Z 100))])]]);
                     ("should", arr []);
                     ("filter",
                      arr [obj [("term", obj [("price", VNum (num_of_Z 100))])];
                           obj [("term", obj [("price", VNum (num_of_Z 100))])]]);
                     ("must_not", arr [])])]) /\
    result (BoolQuery_getClauseCounts b4) w4 =
      Ok (mkClauseCounts (count_of (length [0])) (count_of (length (@nil ref)))
                         (count_of (length [0; 0])) (count_of (length (@nil ref)))) /\
    result (BoolQuery_isEmpty b4) w4 =
      Ok (match [0] ++ [] ++ [0; 0] ++ [] with [] => true | _ => false end).
Proof.
  apply (bool_builder_fills_the_four_slots sample_term_world [0] [] [0; 0] []).
  - repeat constructor; exact sample_term_is_variant.
  - vm_compute. reflexivity.
  - reflexivity.
  - vm_compute. reflexivity.
  - reflexivity.
Defined.

Lemma BoolQuery_set_option_run name key this v w fz fz' bps md :
  heap w !! this =
    Some (mkInstance BoolQuery (VObj fz [("bool", VObj fz' bps)]) md) ->
  exists w' md',
    set_option "bool" name key this v w = (Ok (length (heap w)), w') /\
    heap w' !! length (heap w) =
      Some (mkInstance BoolQuery
              (VObj true
                 [("bool",
                   _deepClone (obj (define key v (spread (VObj fz' bps) []))))])
              md').
Proof.
  intros Hl. unfold set_option.
  assert (exists op, _recordOperation name [AValue v] w = (Ok op, recorded w))
    as [op Hop] by (eexists; reflexivity).
  rewrite (bind_run _ _ _ _ _ Hop).
  rewrite (bind_run _ _ _ _ _ (this_body_run _ (recorded w) _ Hl)). simpl _body.
  unfold lift at 1. unfold bind at 1. simpl prop. cbv iota beta.
  destruct (BoolQuery_createNew_run this
              (obj [("bool", obj (define key v (spread (VObj fz' bps) [])))])
              (Some op) (recorded w) _ _ Hl) as (w' & md' & Hrun & Hq).
  exists w', md'. split; [exact Hrun|].
  simpl heap in Hq. rewrite Hq. reflexivity.
Qed.

(** X22.  On a boolean compound, [boost(b)] and
    [minimumShouldMatch(m)] set their key in the body, in place when
    the key is there and at the end otherwise, and keep every clause of
    the receiver. *)
Theorem bool_options_are_merged :
  forall w b bps boost msm,
    plain_bool w b bps ->
    is_scalar msm = true ->
    (exists c w',
        BoolQuery_boost b boost w = (Ok c, w') /\
        plain_bool w' c (define "boost" (VNum boost) bps) /\
        forall k, result (clauses c k) w' = result (clauses b k) w) /\
    (exists c w',
        BoolQuery_minimumShouldMatch b msm w = (Ok c, w') /\
        plain_bool w' c (define "minimum_should_match" msm bps) /\
        forall k, result (clauses c k) w' = result (clauses b k) w).
Proof.
  intros w b bps boost msm Hplain Hs.
  pose proof Hplain as (fz & md & Hl & Hfix).
  apply clean_fixed in Hfix as Hclean.
  assert (spread (VObj false bps) [] = bps) as Es
    by (unfold spread; simpl; apply fold_define_self; apply Hclean).
  assert (forall name key v,
            is_scalar v = true -> key <> "__proto__" ->
            (forall k, String.eqb (slot_key k) key = false) ->
            exists c w',
              set_option "bool" name key b v w = (Ok c, w') /\
              plain_bool w' c (define key v bps) /\
              forall k, result (clauses c k) w' = result (clauses b k) w) as Hgen.
  { intros name key v Hv Hkey Hslots.
    destruct (BoolQuery_set_option_run name key b v w _ _ _ _ Hl)
      as (w' & md' & Hrun & Hc).
    assert (clean v) as Hcv by (destruct v; try discriminate; now split).
    pose proof (clean_define _ _ _ Hkey Hcv Hclean) as Hnew.
    apply clean_fixed in Hnew. rewrite Es, Hnew in Hc.
    assert (plain_bool w' (length (heap w)) (define key v bps)) as Hplain'
      by (exists true, md'; split; assumption).
    exists (length (heap w)), w'. split; [exact Hrun|]. split; [exact Hplain'|].
    intros k.
    rewrite (plain_bool_clauses _ _ _ k Hplain'), (plain_bool_clauses _ _ _ k Hplain).
    now rewrite lookup_define, Hslots. }
  split.
  - apply (Hgen "boost" "boost" (VNum boost)); try reflexivity; try discriminate.
    now intros [].
  - apply (Hgen "minimumShouldMatch" "minimum_should_match" msm);
      try assumption; try discriminate.
    now intros [].
Qed.

Lemma bool_options_are_merged_witness :
  (exists c w',
      BoolQuery_boost 1 (num_of_Z 2) sample_shared_world = (Ok c, w') /\
      plain_bool w' c (define "boost" (VNum (num_of_Z 2)) []) /\
      forall k, result (clauses c k) w' = result (clauses 1 k) sample_shared_world) /\
  (exists c w',
      BoolQuery_minimumShouldMatch 1 (VStr "75%") sample_shared_world = (Ok c, w') /\
      plain_bool w' c (define "minimum_should_match" (VStr "75%") []) /\
      forall k, result (clauses c k) w' = result (clauses 1 k) sample_shared_world).
Proof.
  apply (bool_options_are_merged sample_shared_world 1 [] (num_of_Z 2) (VStr "75%")).
  - exact sample_bool_is_plain.
  - reflexivity.
Defined.

Lemma BoolQuery_constructor_plain_run bps w :
  _deepClone (obj bps) = obj bps ->
  exists w' md',
    BoolQuery_constructor (obj [("bool", obj bps)]) w = (Ok (length (heap w)), w') /\
    evolves w w' /\
    heap w' !! length (heap w) =
      Some (mkInstance BoolQuery (VObj true [("bool", VObj false bps)]) md').
Proof.
  intros Hfix.
  pose proof (safe_BoolQuery_constructor (obj [("bool", obj bps)]) w) as Hev.
  unfold after in Hev.
  unfold BoolQuery_constructor in *. rewrite Query_constructor_run in *.
  do 2 eexists. split; [reflexivity|]. split; [exact Hev|].
  simpl heap. rewrite list_lookup_middle by reflexivity.
  unfold spread. simpl. unfold assign. simpl.
  change (VObj false (clone_into _deepClone bps [])) with (_deepClone (obj bps)).
  now rewrite Hfix.
Qed.

(** X23.  A boolean compound can be rebuilt from its serialized form:
    [new BoolQuery(q.toJSON())] is a different instance with the same
    body, and [equals] holds between the two. *)
Theorem bool_query_rebuilds_from_its_json (toISOString : Z -> string) :
  forall w b bps,
    plain_bool w b bps ->
    exists c w',
      toJSON b w = (Ok (obj [("bool", obj bps)]), w) /\
      BoolQuery_constructor (obj [("bool", obj bps)]) w = (Ok c, w') /\
      plain_bool w' c bps /\
      c <> b /\
      result (equals toISOString c b) w' = Ok true.
Proof.
  intros w b bps Hplain.
  pose proof Hplain as (fz & md & Hl & Hfix).
  assert (_deepClone (VObj fz [("bool", VObj false bps)]) = obj [("bool", obj bps)])
    as Ej.
  { simpl. unfold assign. simpl.
    change (VObj false (clone_into _deepClone bps [])) with (_deepClone (obj bps)).
    now rewrite Hfix. }
  destruct (BoolQuery_constructor_plain_run bps w Hfix) as (w' & md' & Hrun & Hev & Hc).
  exists (length (heap w)), w'.
  split; [rewrite (toJSON_run _ _ _ Hl) by discriminate; simpl _body; now rewrite Ej|].
  split; [exact Hrun|].
  split; [exists true, md'; split; assumption|].
  split; [apply lookup_lt_Some in Hl; lia|].
  unfold result.
  rewrite (equals_run _ _ _ _ _ _ Hc (evolves_lookup _ _ _ _ Hev Hl)).
  cbn [fst]. f_equal. apply same_text_eq. reflexivity.
Qed.

Lemma bool_query_rebuilds_from_its_json_witness :
  exists c w',
    toJSON 1 sample_shared_world = (Ok (obj [("bool", obj [])]), sample_shared_world) /\
    BoolQuery_constructor (obj [("bool", obj [])]) sample_shared_world = (Ok c, w') /\
    plain_bool w' c [] /\
    c <> 1 /\
    result (equals (fun _ => "") c 1) w' = Ok true.
Proof.
  apply (bool_query_rebuilds_from_its_json (fun _ => "") sample_shared_world 1 []).
  exact sample_bool_is_plain.
Defined.
